(** * Reference kernel [gather_nd] (ngraph/runtime/reference/gather_nd.hpp)

    A shallow embedding of the reference implementation of GatherND and of
    its helpers [Span] and [get_indices_offsets], with the properties of its
    specification stated and proved over the embedding.

    Conventions.
    - [size_t] values are integers of [Z] reduced modulo [2^64]; every
      arithmetic operation of the source on [size_t] is followed by
      [to_size_t] here.
    - A [Shape] (a [std::vector<size_t>]) is a [list Z].
    - The buffers [params], [indices] and [out] are lists; the element type
      [T] of [params] and [out] is arbitrary, the elements of [indices] are
      integers (the value of a signed or unsigned [U] of at most 64 bits).
    - The body of [gather_nd] runs in a small monad: the state is the [out]
      buffer together with a log of the [std::copy] calls made so far, and a
      computation returns, throws a [std::domain_error], or has no
      behaviour the source defines (an access out of range, an invalid
      iterator range). *)

From Stdlib Require Import String ZArith List Lia Bool.
Import ListNotations.
Open Scope Z_scope.

(** ** Machine integers *)

Definition size_t_mod : Z := 2 ^ 64.

(** Conversion to [size_t], and the result of [size_t] arithmetic. *)
Definition to_size_t (z : Z) : Z := z mod size_t_mod.

(** Conversion of a [size_t] to the signed [difference_type]. *)
Definition to_ptrdiff (z : Z) : Z :=
  if z <? 2 ^ 63 then z else z - size_t_mod.

(** ** Vectors and shapes *)

Definition Shape : Type := list Z.

Definition rank {A : Type} (v : list A) : Z := Z.of_nat (length v).

(** [v[i]], [v.front()] and [v.back()]; [None] outside the vector. *)
Definition at_ {A : Type} (v : list A) (i : Z) : option A :=
  if i <? 0 then None else nth_error v (Z.to_nat i).

Definition front {A : Type} (v : list A) : option A := hd_error v.

Definition back {A : Type} (v : list A) : option A :=
  match v with
  | [] => None
  | x :: v' => Some (last v' x)
  end.

(** The elements of [[begin(v), next(begin(v), k))]; [None] when
    [next(begin(v), k)] is not an iterator of [v]. *)
Definition prefix {A : Type} (v : list A) (k : Z) : option (list A) :=
  if (0 <=? k) && (k <=? rank v) then Some (firstn (Z.to_nat k) v) else None.

(** [v[i] = x] on a vector. *)
Definition store {A : Type} (v : list A) (i : nat) (x : A) : list A :=
  firstn i v ++ x :: skipn (S i) v.

(** Modelled from the spec: [shape_size] is declared in ngraph/shape.hpp,
    which is not part of the sources at hand; the spec gives it as the
    product of the entries, 1 for a shape of length 0.  Its result is a
    [size_t], accumulated entry by entry. *)
Definition shape_size (s : list Z) : Z :=
  fold_left (fun size d => to_size_t (size * d)) s 1.

(** The product of the entries as an unbounded integer. *)
Definition product (s : list Z) : Z := fold_right Z.mul 1 s.

(** ** [Span]: a view [[m_begin, m_end)] of a vector *)

Record Span : Type := span
  { span_of : list Z;   (* the vector the two iterators point into *)
    m_begin : Z;
    m_end : Z }.

(** [Span::operator[]]: [*next(m_begin, idx)], not checked against [m_end]. *)
Definition Span_at (s : Span) (idx : Z) : option Z :=
  at_ (span_of s) (m_begin s + idx).

(** [Span::size]: [std::distance(m_begin, m_end)]. *)
Definition Span_size (s : Span) : Z := m_end s - m_begin s.

(** The elements a range-based [for] over the span visits; [None] when
    [[m_begin, m_end)] is not a valid range of the vector. *)
Definition Span_elems (s : Span) : option (list Z) :=
  if (0 <=? m_begin s) && (m_begin s <=? m_end s) && (m_end s <=? rank (span_of s))
  then Some (firstn (Z.to_nat (Span_size s)) (skipn (Z.to_nat (m_begin s)) (span_of s)))
  else None.

(** ** [get_indices_offsets] *)

(** The [while (i-- > 0)] loop: [i] is the value of the counter before the
    test, [next_e] the position of the iterator in the sequence [s] it
    walks. *)
Fixpoint offsets_loop (i : nat) (s : list Z) (next_e : Z) (offsets : list Z)
  : option (list Z) :=
  match i with
  | O => Some offsets
  | S i' =>
      match at_ s next_e, nth_error offsets (S i') with
      | Some e, Some o =>
          offsets_loop i' s (next_e + 1) (store offsets i' (to_size_t (e * o)))
      | _, _ => None
      end
  end.

(** [get_indices_offsets(beg, end, last_slice_size)] for two iterators at
    positions [beg] and [end_] of the sequence [s].  A negative element
    count [i + 1] is not a vector the source can build. *)
Definition get_indices_offsets (s : list Z) (beg end_ : Z) (last_slice_size : Z)
  : option (list Z) :=
  let i := end_ - beg in
  if i + 1 <? 0 then None
  else offsets_loop (Z.to_nat i) s beg (repeat last_slice_size (Z.to_nat (i + 1))).

(** The row-major strides of the axes [ds] over a slice of [last]
    elements: each entry is its axis size times the next entry. *)
Fixpoint strides (ds : list Z) (last : Z) : list Z :=
  match ds with
  | [] => [last]
  | d :: ds' =>
      let rest := strides ds' last in to_size_t (d * hd 0 rest) :: rest
  end.

(** ** Outcomes and the monad of [gather_nd] *)

(** The three [throw] sites of [gather_nd], all of type [std::domain_error]. *)
Inductive domain_error : Type :=
| out_shape_first_dim
| batch_dims_differ
| not_enough_rank.

Definition what (e : domain_error) : string :=
  match e with
  | out_shape_first_dim =>
      "out_shape should have on first dim multiplication of batch number of firstdimensions of shape "
  | batch_dims_differ =>
      "dimensions in params and indices have to be equal on batch dimensions"
  | not_enough_rank =>
      "params_shape should have enough rank to be index by indices"
  end.

(** The two error kinds the specification names. *)
Inductive error_kind : Type := ShapeMismatch | InsufficientRank.

Definition kind (e : domain_error) : error_kind :=
  match e with
  | out_shape_first_dim | batch_dims_differ => ShapeMismatch
  | not_enough_rank => InsufficientRank
  end.

Inductive outcome (A : Type) : Type :=
| Returns (a : A)
| Throws (e : domain_error)
| Undefined.

Arguments Returns {A} a.
Arguments Throws {A} e.
Arguments Undefined {A}.

(** One call of [std::copy]: [len] elements from [params + src] to
    [out + dst]. *)
Record copy_event : Type := copy_ev { src : Z; dst : Z; len : Z }.

Section GatherND.

Variable T : Type.

(** The [out] buffer and the calls of [std::copy] made so far, oldest first. *)
Record mem : Type := mk_mem { out_buf : list T; copied : list copy_event }.

Definition M (A : Type) : Type := mem -> outcome A * mem.

Definition ret {A : Type} (a : A) : M A := fun m => (Returns a, m).

Definition bind {A B : Type} (c : M A) (k : A -> M B) : M B :=
  fun m =>
    match c m with
    | (Returns a, m') => k a m'
    | (Throws e, m') => (Throws e, m')
    | (Undefined, m') => (Undefined, m')
    end.

Definition throw {A : Type} (e : domain_error) : M A := fun m => (Throws e, m).

(** A partial read of the source: undefined where it is out of range. *)
Definition defined {A : Type} (o : option A) : M A :=
  fun m => match o with Some a => (Returns a, m) | None => (Undefined, m) end.

Notation "x <- c ;; k" := (bind c (fun x => k))
  (at level 100, c at next level, right associativity).
Notation "c ;;; k" := (bind c (fun _ => k))
  (at level 100, right associativity).

(** [for (size_t i = 0; i != bound; ++i) body(i)]. *)
Fixpoint for_loop (count : nat) (i : Z) (body : Z -> M unit) : M unit :=
  match count with
  | O => ret tt
  | S count' => body i ;;; for_loop count' (i + 1) body
  end.

Definition for_ (bound : Z) (body : Z -> M unit) : M unit :=
  for_loop (Z.to_nat bound) 0 body.

(** The elements [[first, last)] of a buffer. *)
Definition slice {A : Type} (buf : list A) (first last : Z) : list A :=
  firstn (Z.to_nat (last - first)) (skipn (Z.to_nat first) buf).

(** [data] written over [buf] from position [d]. *)
Definition write {A : Type} (buf : list A) (d : Z) (data : list A) : list A :=
  firstn (Z.to_nat d) buf ++ data ++ skipn (Z.to_nat d + length data) buf.

(** [std::copy(next(params, first), next(params, last), next(out, d_first))]. *)
Definition copy (params : list T) (first last d_first : Z) : M unit :=
  fun m =>
    if (first <=? last) && (last <=? rank params)
       && (d_first + (last - first) <=? rank (out_buf m))
    then (Returns tt,
          mk_mem (write (out_buf m) d_first (slice params first last))
                 (copied m ++ [copy_ev first d_first (last - first)]))
    else (Undefined, m).

(** The loop over the components of one coordinate tuple (lines 180-185):
    [c] is the loop variable, [acc] is [input_slice_offset]. *)
Fixpoint coordinates_loop (indices : list Z) (k_1_params : Span)
    (indices_offsets : list Z) (slice_coordinates : Z)
    (count : nat) (c : Z) (acc : Z) : option Z :=
  match count with
  | O => Some acc
  | S count' =>
      match at_ indices (slice_coordinates + c) with
      | None => None
      | Some i_c =>
          let index :=
            if i_c <? 0
            then option_map (fun k => to_size_t (k + i_c)) (Span_at k_1_params c)
            else Some (to_size_t i_c) in
          match index, at_ indices_offsets c with
          | Some index, Some o =>
              coordinates_loop indices k_1_params indices_offsets
                slice_coordinates count' (c + 1)
                (to_size_t (acc + to_size_t (index * o)))
          | _, _ => None
          end
      end
  end.

(** The batched copy loops (lines 167-191), over the values [gather_nd]
    derives from the shapes. *)
Definition copy_engine (params : list T) (indices : list Z)
    (batch_size number_of_slices_to_copy_in_one_batch slice_size
       coordinates_size : Z)
    (indices_offsets : list Z) (batch_offset : Z) (k_1_params : Span) : M unit :=
  for_ batch_size (fun batch =>
    let input_batch_offset := to_size_t (batch * batch_offset) in
    let output_batch_offset :=
      to_size_t (to_size_t (batch * number_of_slices_to_copy_in_one_batch) * slice_size) in
    let coordinates_batch_offset :=
      to_size_t (to_size_t (batch * number_of_slices_to_copy_in_one_batch)
                 * coordinates_size) in
    for_ number_of_slices_to_copy_in_one_batch (fun slice_ =>
      let slice_coordinates :=
        to_size_t (coordinates_batch_offset + to_size_t (slice_ * coordinates_size)) in
      input_slice_offset <-
        defined (coordinates_loop indices k_1_params indices_offsets
                   slice_coordinates (Z.to_nat coordinates_size) 0 input_batch_offset) ;;
      let output_slice_offset :=
        to_size_t (output_batch_offset + to_size_t (slice_ * slice_size)) in
      copy params input_slice_offset (to_size_t (input_slice_offset + slice_size))
           output_slice_offset)).

(** [gather_nd]: the checks of lines 120-144, the derived values of lines
    146-165, then the copy loops. *)
Definition gather_nd (params : list T) (indices : list Z)
    (params_shape indices_shape out_shape : Shape) (batch_dims : Z) : M unit :=
  batch_shape <- defined (prefix params_shape batch_dims) ;;
  let batch_size := shape_size batch_shape in
  out_front <- (if batch_dims =? 0 then ret 0 else defined (front out_shape)) ;;
  if negb (batch_dims =? 0) && negb (batch_size =? out_front)
  then throw out_shape_first_dim
  else
  indices_batch <- defined (prefix indices_shape batch_dims) ;;
  if negb (if list_eq_dec Z.eq_dec batch_shape indices_batch then true else false)
  then throw batch_dims_differ
  else
  indices_back <- defined (back indices_shape) ;;
  let first_slice_index_in_params := to_size_t (batch_dims + indices_back) in
  if negb (first_slice_index_in_params <=? rank params_shape)
  then throw not_enough_rank
  else
  let slice_shape :=
    span params_shape first_slice_index_in_params (rank params_shape) in
  slice_dims <- defined (Span_elems slice_shape) ;;
  let slice_size := shape_size slice_dims in
  let dims_begin := Span_size slice_shape in
  let dims_end := dims_begin + to_ptrdiff (to_size_t (indices_back - 1)) in
  indices_offsets <-
    defined (if (0 <=? dims_end) && (dims_end <=? rank params_shape)
             then get_indices_offsets (rev params_shape) dims_begin dims_end slice_size
             else None) ;;
  offsets_front <- defined (front indices_offsets) ;;
  batch_axis <- defined (at_ params_shape batch_dims) ;;
  let batch_offset := to_size_t (offsets_front * batch_axis) in
  let k_1_indices := span indices_shape batch_dims (rank indices_shape - 1) in
  let k_1_params := span params_shape batch_dims (rank params_shape - 1) in
  k_1_dims <- defined (Span_elems k_1_indices) ;;
  let number_of_slices_to_copy_in_one_batch := shape_size k_1_dims in
  let coordinates_size := indices_back in
  copy_engine params indices batch_size number_of_slices_to_copy_in_one_batch
    slice_size coordinates_size indices_offsets batch_offset k_1_params.

End GatherND.

Arguments mk_mem {T}.
Arguments out_buf {T}.
Arguments copied {T}.
Arguments ret {T A}.
Arguments bind {T A B}.
Arguments throw {T A}.
Arguments defined {T A}.
Arguments for_loop {T}.
Arguments for_ {T}.
Arguments copy {T}.
Arguments copy_engine {T}.
Arguments gather_nd {T}.

(** ** The values [gather_nd] derives from the shapes

    Each definition is the value of the local variable of the same name in
    [gather_nd], as a function of the shapes and of [batch_dims]
    ([gather_nd_valid_shapes] below proves that they are the values the
    copy loops run on). *)

Definition coordinates_size (indices_shape : Shape) : Z := last indices_shape 0.

Definition first_slice_index_in_params (indices_shape : Shape) (batch_dims : Z) : Z :=
  to_size_t (batch_dims + coordinates_size indices_shape).

Definition batch_size (params_shape : Shape) (batch_dims : Z) : Z :=
  shape_size (firstn (Z.to_nat batch_dims) params_shape).

Definition slice_shape (params_shape indices_shape : Shape) (batch_dims : Z) : Shape :=
  skipn (Z.to_nat (first_slice_index_in_params indices_shape batch_dims)) params_shape.

Definition slice_size (params_shape indices_shape : Shape) (batch_dims : Z) : Z :=
  shape_size (slice_shape params_shape indices_shape batch_dims).

Definition k_1_indices (indices_shape : Shape) (batch_dims : Z) : Shape :=
  firstn (Z.to_nat (rank indices_shape - 1 - batch_dims))
         (skipn (Z.to_nat batch_dims) indices_shape).

Definition k_1_params (params_shape : Shape) (batch_dims : Z) : Span :=
  span params_shape batch_dims (rank params_shape - 1).

Definition number_of_slices_to_copy_in_one_batch
    (indices_shape : Shape) (batch_dims : Z) : Z :=
  shape_size (k_1_indices indices_shape batch_dims).

(** The positions [dims_begin] and [dims_end] in the reversed
    [params_shape] (lines 150-151). *)
Definition dims_begin (params_shape indices_shape : Shape) (batch_dims : Z) : Z :=
  rank params_shape - first_slice_index_in_params indices_shape batch_dims.

Definition dims_end (params_shape indices_shape : Shape) (batch_dims : Z) : Z :=
  dims_begin params_shape indices_shape batch_dims
  + to_ptrdiff (to_size_t (coordinates_size indices_shape - 1)).

(** The dimensions [[dims_begin, dims_end)] handed to
    [get_indices_offsets]. *)
Definition offset_dims (params_shape indices_shape : Shape) (batch_dims : Z) : list Z :=
  slice (rev params_shape) (dims_begin params_shape indices_shape batch_dims)
        (dims_end params_shape indices_shape batch_dims).

Definition indices_offsets (params_shape indices_shape : Shape) (batch_dims : Z)
  : list Z :=
  match get_indices_offsets (rev params_shape)
          (dims_begin params_shape indices_shape batch_dims)
          (dims_end params_shape indices_shape batch_dims)
          (slice_size params_shape indices_shape batch_dims) with
  | Some offsets => offsets
  | None => []
  end.

Definition batch_offset (params_shape indices_shape : Shape) (batch_dims : Z) : Z :=
  to_size_t (hd 0 (indices_offsets params_shape indices_shape batch_dims)
             * nth (Z.to_nat batch_dims) params_shape 0).

(** ** What the specification speaks of *)

(** [0, 1, ..., k - 1]. *)
Definition range (k : Z) : list Z := map Z.of_nat (seq 0 (Z.to_nat k)).

(** The size of the [params] axis the component at position [c] of a
    coordinate tuple indexes. *)
Definition axis_size (params_shape : Shape) (batch_dims c : Z) : Z :=
  nth (Z.to_nat (batch_dims + c)) params_shape 0.

(** Component [c] of the coordinate tuple number [t] of the [indices]
    buffer, tuples being counted across batches. *)
Definition coordinate (indices : list Z) (width t c : Z) : Z :=
  nth (Z.to_nat (t * width + c)) indices 0.

(** Negative components index from the end of their axis. *)
Definition resolve (axis i_c : Z) : Z := if i_c <? 0 then axis + i_c else i_c.

Definition resolved_tuple (indices : list Z) (params_shape indices_shape : Shape)
    (batch_dims t : Z) : list Z :=
  map (fun c => resolve (axis_size params_shape batch_dims c)
                        (coordinate indices (coordinates_size indices_shape) t c))
      (range (coordinates_size indices_shape)).

Fixpoint dot_product (xs ys : list Z) : Z :=
  match xs, ys with
  | x :: xs', y :: ys' => x * y + dot_product xs' ys'
  | _, _ => 0
  end.

Section Copies.

Variables (indices : list Z) (params_shape indices_shape : Shape) (batch_dims : Z).

Definition source_offset (b s : Z) : Z :=
  b * batch_offset params_shape indices_shape batch_dims
  + dot_product
      (resolved_tuple indices params_shape indices_shape batch_dims
         (b * number_of_slices_to_copy_in_one_batch indices_shape batch_dims + s))
      (indices_offsets params_shape indices_shape batch_dims).

Definition destination_offset (b s : Z) : Z :=
  b * number_of_slices_to_copy_in_one_batch indices_shape batch_dims
    * slice_size params_shape indices_shape batch_dims
  + s * slice_size params_shape indices_shape batch_dims.

(** The copy the specification prescribes for batch [b] and tuple [s]. *)
Definition copy_of (b s : Z) : copy_event :=
  copy_ev (source_offset b s) (destination_offset b s)
          (slice_size params_shape indices_shape batch_dims).

(** All of them, batch-major then slice-major. *)
Definition copies : list copy_event :=
  flat_map (fun b =>
              map (copy_of b)
                  (range (number_of_slices_to_copy_in_one_batch indices_shape batch_dims)))
           (range (batch_size params_shape batch_dims)).

(** The number of elements of [out] the call addresses. *)
Definition region_size : Z :=
  batch_size params_shape batch_dims
  * number_of_slices_to_copy_in_one_batch indices_shape batch_dims
  * slice_size params_shape indices_shape batch_dims.

End Copies.

(** The elements a list of copies reads from [params], in order. *)
Definition gathered {T : Type} (params : list T) (evs : list copy_event) : list T :=
  flat_map (fun ev => slice params (src ev) (src ev + len ev)) evs.

(** The positions of [out] a list of copies writes, in order. *)
Definition written (evs : list copy_event) : list Z :=
  flat_map (fun ev => map (fun e => dst ev + e) (range (len ev))) evs.

Definition size_t_range (z : Z) : Prop := 0 <= z < size_t_mod.

(** Invariants 1-3 of the specification. *)
Definition invariant_1 (params_shape indices_shape : Shape) (batch_dims : Z) : Prop :=
  firstn (Z.to_nat batch_dims) params_shape = firstn (Z.to_nat batch_dims) indices_shape.

Definition invariant_2 (params_shape indices_shape : Shape) (batch_dims : Z) : Prop :=
  batch_dims + coordinates_size indices_shape <= rank params_shape.

Definition invariant_3 (params_shape out_shape : Shape) (batch_dims : Z) : Prop :=
  batch_dims <> 0 -> front out_shape = Some (batch_size params_shape batch_dims).

(** Shapes on which the call is defined: the three invariants of the
    specification and, beyond them, a [batch_dims] that is a non-negative
    count of leading axes strictly below the rank of [indices_shape] and a
    coordinate tuple of at least one component; the entries are [size_t]
    values and the rank is one a vector can have. *)
Record valid_shapes (params_shape indices_shape out_shape : Shape)
    (batch_dims : Z) : Prop :=
  { vs_params : Forall size_t_range params_shape;
    vs_indices : Forall size_t_range indices_shape;
    vs_rank : rank params_shape < 2 ^ 63;
    vs_batch_dims : 0 <= batch_dims < rank indices_shape;
    vs_width : 1 <= coordinates_size indices_shape;
    vs_inv1 : invariant_1 params_shape indices_shape batch_dims;
    vs_inv2 : invariant_2 params_shape indices_shape batch_dims;
    vs_inv3 : invariant_3 params_shape out_shape batch_dims }.

(** Every component of every coordinate tuple lies in [-axis, axis). *)
Definition coordinates_in_range (indices : list Z)
    (params_shape indices_shape : Shape) (batch_dims : Z) : Prop :=
  forall t c,
    0 <= t < batch_size params_shape batch_dims
            * number_of_slices_to_copy_in_one_batch indices_shape batch_dims ->
    0 <= c < coordinates_size indices_shape ->
    - axis_size params_shape batch_dims c
    <= coordinate indices (coordinates_size indices_shape) t c
    < axis_size params_shape batch_dims c.

(** A valid call: valid shapes, buffers of the sizes the shapes give (each
    addressable by a [size_t]), coordinates in range. *)
Record valid_input {T : Type} (params : list T) (indices : list Z) (out : list T)
    (params_shape indices_shape out_shape : Shape) (batch_dims : Z) : Prop :=
  { vi_shapes : valid_shapes params_shape indices_shape out_shape batch_dims;
    vi_params : rank params = product params_shape;
    vi_params_size : rank params < size_t_mod;
    vi_indices :
      batch_size params_shape batch_dims
      * number_of_slices_to_copy_in_one_batch indices_shape batch_dims
      * coordinates_size indices_shape <= rank indices;
    vi_indices_size : rank indices < size_t_mod;
    vi_coordinates : coordinates_in_range indices params_shape indices_shape batch_dims;
    vi_out : region_size params_shape indices_shape batch_dims <= rank out;
    vi_out_size : rank out < size_t_mod }.

(** ** Auxiliary definitions of the statements *)

(** The state after the first [k] copies [evs] of a run that started from
    the buffer [out0] and the log [log0], each copy being of [ss] elements
    and the [j]-th one going to position [j * ss]. *)
Definition copied_so_far (T : Type) (params out0 : list T) (log0 : list copy_event)
    (ss : Z) (evs : list copy_event) (k : Z) (m : mem T) : Prop :=
  out_buf m = gathered params evs ++ skipn (Z.to_nat (k * ss)) out0
  /\ copied m = log0 ++ evs
  /\ rank (gathered params evs) = k * ss.

(** A decision procedure for [coordinates_in_range]. *)
Definition coordinates_in_rangeb (indices : list Z)
    (params_shape indices_shape : Shape) (batch_dims : Z) : bool :=
  forallb
    (fun t =>
       forallb
         (fun c =>
            (- axis_size params_shape batch_dims c
             <=? coordinate indices (coordinates_size indices_shape) t c)
            && (coordinate indices (coordinates_size indices_shape) t c
                <? axis_size params_shape batch_dims c))
         (range (coordinates_size indices_shape)))
    (range (batch_size params_shape batch_dims
            * number_of_slices_to_copy_in_one_batch indices_shape batch_dims)).

(** Modelled from the spec: the position of an element in a buffer laid out
    in row-major order (the last axis varies fastest). *)
Fixpoint row_major_from (acc : Z) (shape index : list Z) : Z :=
  match shape, index with
  | d :: shape', i :: index' => row_major_from (acc * d + i) shape' index'
  | _, _ => acc
  end.

Definition row_major (shape index : list Z) : Z := row_major_from 0 shape index.

(** The [out] buffer a call leaves when it returns. *)
Definition output {T : Type} (r : outcome unit * mem T) : option (list T) :=
  match r with
  | (Returns _, m) => Some (out_buf m)
  | _ => None
  end.

(** The call for batch [b] alone: [batch_dims = 0], [params_shape] and
    [indices_shape] without their [batch_dims] batch axes, [out_shape]
    without its leading dimension (the batch size), and the parts of the
    three buffers that belong to the batch. *)
Definition batch_call {T : Type} (params : list T) (indices : list Z) (out : list T)
    (params_shape indices_shape out_shape : Shape) (batch_dims b : Z)
  : option (list T) :=
  let bo := batch_offset params_shape indices_shape batch_dims in
  let n := number_of_slices_to_copy_in_one_batch indices_shape batch_dims in
  let ss := slice_size params_shape indices_shape batch_dims in
  let w := coordinates_size indices_shape in
  output
    (gather_nd
       (slice params (b * bo) (b * bo + bo))
       (slice indices (b * n * w) (b * n * w + n * w))
       (skipn (Z.to_nat batch_dims) params_shape)
       (skipn (Z.to_nat batch_dims) indices_shape)
       (skipn 1 out_shape) 0
       (mk_mem (slice out (b * n * ss) (b * n * ss + n * ss)) [])).

(** The buffer [0, 1, ..., k - 1], for examples. *)
Definition iota (k : nat) : list Z := map Z.of_nat (seq 0 k).

(** * Properties *)

(** ** Arithmetic of [size_t] *)

Lemma size_t_mod_pos : 0 < size_t_mod.
Proof. reflexivity. Qed.

Lemma to_size_t_range z : 0 <= to_size_t z < size_t_mod.
Proof. apply Z.mod_pos_bound, size_t_mod_pos. Qed.

Lemma to_size_t_small z : 0 <= z < size_t_mod -> to_size_t z = z.
Proof. apply Z.mod_small. Qed.

Lemma to_size_t_mul_l a b : to_size_t (to_size_t a * b) = to_size_t (a * b).
Proof. unfold to_size_t. apply Z.mul_mod_idemp_l. discriminate. Qed.

Lemma to_size_t_mul_r a b : to_size_t (a * to_size_t b) = to_size_t (a * b).
Proof. unfold to_size_t. apply Z.mul_mod_idemp_r. discriminate. Qed.

Lemma to_size_t_add_l a b : to_size_t (to_size_t a + b) = to_size_t (a + b).
Proof. unfold to_size_t. apply Z.add_mod_idemp_l. discriminate. Qed.

Lemma to_size_t_add_r a b : to_size_t (a + to_size_t b) = to_size_t (a + b).
Proof. unfold to_size_t. apply Z.add_mod_idemp_r. discriminate. Qed.

Lemma to_size_t_add_m a b c : to_size_t (a + to_size_t b + c) = to_size_t (a + b + c).
Proof.
  rewrite <- (to_size_t_add_l (a + to_size_t b)), to_size_t_add_r.
  apply to_size_t_add_l.
Qed.

Lemma to_size_t_le z : 0 <= z -> to_size_t z <= z.
Proof. intros H. apply Z.mod_le; [ exact H | exact size_t_mod_pos ]. Qed.

Lemma to_size_t_nonzero z : to_size_t z <> 0 -> z <> 0.
Proof. intros H ->. apply H. reflexivity. Qed.

Ltac size_t_norm :=
  repeat first
    [ rewrite to_size_t_mul_l | rewrite to_size_t_mul_r
    | rewrite to_size_t_add_l | rewrite to_size_t_add_r ].

(** ** Products of dimensions *)

Lemma product_app s1 s2 : product (s1 ++ s2) = product s1 * product s2.
Proof.
  induction s1 as [| d s1 IH]; simpl.
  - destruct (product s2); reflexivity.
  - rewrite IH. ring.
Qed.

Lemma product_nonneg s : Forall (fun d => 0 <= d) s -> 0 <= product s.
Proof.
  induction 1 as [| d s Hd _ IH]; simpl; [ lia | ].
  apply Z.mul_nonneg_nonneg; assumption.
Qed.

Lemma product_pos s : Forall (fun d => 1 <= d) s -> 1 <= product s.
Proof.
  induction 1 as [| d s Hd _ IH]; simpl; [ lia | nia ].
Qed.

Lemma product_nonzero s :
  Forall (fun d => 0 <= d) s -> product s <> 0 -> Forall (fun d => 1 <= d) s.
Proof.
  induction 1 as [| d s Hd _ IH]; simpl; intros Hp; constructor.
  - assert (d <> 0) by (intros ->; apply Hp; reflexivity). lia.
  - apply IH. intros H0. apply Hp. rewrite H0. ring.
Qed.

Lemma shape_size_from s : forall size,
  fold_left (fun size d => to_size_t (size * d)) s (to_size_t size)
  = to_size_t (size * product s).
Proof.
  induction s as [| d s IH]; intros size; simpl.
  - f_equal. ring.
  - rewrite to_size_t_mul_l, IH. f_equal. ring.
Qed.

Lemma shape_size_product s : shape_size s = to_size_t (product s).
Proof.
  unfold shape_size. change 1 with (to_size_t 1) at 1.
  rewrite shape_size_from. f_equal. ring.
Qed.

Lemma shape_size_range s : 0 <= shape_size s < size_t_mod.
Proof. rewrite shape_size_product. apply to_size_t_range. Qed.

Lemma size_t_range_nonneg s :
  Forall size_t_range s -> Forall (fun d => 0 <= d) s.
Proof. apply Forall_impl. intros d [H _]. exact H. Qed.

(** ** Vectors *)

Lemma rank_nonneg {A : Type} (v : list A) : 0 <= rank v.
Proof. unfold rank. lia. Qed.

Lemma rank_app {A : Type} (v w : list A) : rank (v ++ w) = rank v + rank w.
Proof. unfold rank. rewrite length_app. lia. Qed.

Lemma rank_cons {A : Type} (x : A) (v : list A) : rank (x :: v) = 1 + rank v.
Proof. unfold rank. simpl length. lia. Qed.

Lemma at_app_here {A : Type} (pre : list A) x post i :
  i = rank pre -> at_ (pre ++ x :: post) i = Some x.
Proof.
  intros ->. unfold at_, rank.
  destruct (Z.ltb_spec (Z.of_nat (length pre)) 0) as [H | _]; [ lia | ].
  rewrite Nat2Z.id, nth_error_app2, Nat.sub_diag by lia. reflexivity.
Qed.

Lemma at_nth {A : Type} (v : list A) i d :
  0 <= i < rank v -> at_ v i = Some (nth (Z.to_nat i) v d).
Proof.
  unfold at_, rank. intros H.
  destruct (Z.ltb_spec i 0) as [H0 | _]; [ lia | ].
  apply nth_error_nth'. lia.
Qed.

Lemma store_app_here {A : Type} (pre : list A) x y post i :
  i = length pre -> store (pre ++ x :: post) i y = pre ++ y :: post.
Proof.
  intros ->. unfold store.
  rewrite firstn_app, firstn_all, Nat.sub_diag, app_nil_r.
  rewrite skipn_app, skipn_all2 by lia.
  replace (S (length pre) - length pre)%nat with 1%nat by lia.
  reflexivity.
Qed.

(** ** The offset table *)

Lemma strides_nonempty ds last : strides ds last <> [].
Proof. destruct ds; discriminate. Qed.

Lemma strides_length ds last : length (strides ds last) = S (length ds).
Proof. induction ds as [| d ds IH]; simpl; [ reflexivity | now rewrite IH ]. Qed.

Lemma strides_rank ds last : rank (strides ds last) = rank ds + 1.
Proof. unfold rank. rewrite strides_length. lia. Qed.

Lemma strides_last ds last : nth (length ds) (strides ds last) 0 = last.
Proof. induction ds as [| d ds IH]; simpl; [ reflexivity | exact IH ]. Qed.

Lemma strides_step ds last i :
  (i < length ds)%nat ->
  nth i (strides ds last) 0
  = to_size_t (nth i ds 0 * nth (S i) (strides ds last) 0).
Proof.
  revert i. induction ds as [| d ds IH]; intros i Hi; simpl in Hi; [ lia | ].
  destruct i as [| i].
  - simpl. destruct (strides ds last) eqn:E; [ now apply strides_nonempty in E | ].
    reflexivity.
  - simpl. apply IH. lia.
Qed.

(** Entry [i] is the product of the axes from [i] on, times the slice. *)
Lemma strides_nth ds last : forall i,
  (i <= length ds)%nat ->
  nth i (strides ds (to_size_t last)) 0 = to_size_t (product (skipn i ds) * last).
Proof.
  induction ds as [| d ds IH]; intros i Hi.
  - simpl in Hi. replace i with 0%nat by lia.
    cbn [strides nth skipn product fold_right]. f_equal. ring.
  - destruct i as [| i].
    + cbn [strides nth skipn]. replace (hd 0 (strides ds (to_size_t last)))
        with (nth 0 (strides ds (to_size_t last)) 0)
        by (destruct (strides ds (to_size_t last)); reflexivity).
      rewrite IH by lia. rewrite to_size_t_mul_r. cbn [skipn].
      f_equal. change (product (d :: ds)) with (d * product ds). ring.
    + cbn [strides nth skipn]. apply IH. simpl in Hi. lia.
Qed.

Lemma strides_hd ds last :
  hd 0 (strides ds (to_size_t last)) = to_size_t (product ds * last).
Proof.
  pose proof (strides_nth ds last 0 ltac:(lia)) as H. cbn [skipn] in H.
  rewrite <- H. destruct (strides ds (to_size_t last)); reflexivity.
Qed.

Lemma offsets_loop_strides last : forall rest s pre post done_,
  s = pre ++ rest ++ post ->
  offsets_loop (length rest) s (rank pre)
    (repeat last (length rest) ++ strides done_ last)
  = Some (strides (rev rest ++ done_) last).
Proof.
  induction rest as [| e rest IH]; intros s pre post done_ Hs.
  - reflexivity.
  - simpl length. cbn [offsets_loop].
    rewrite Hs. rewrite (at_app_here pre e (rest ++ post)) by reflexivity.
    assert (Hn : nth_error (repeat last (S (length rest)) ++ strides done_ last)
                   (S (length rest)) = Some (hd 0 (strides done_ last))).
    { rewrite nth_error_app2 by (rewrite repeat_length; lia).
      rewrite repeat_length, Nat.sub_diag.
      destruct (strides done_ last) eqn:E;
        [ now apply strides_nonempty in E | reflexivity ]. }
    rewrite Hn.
    assert (Hst : forall v,
               store (repeat last (S (length rest)) ++ strides done_ last)
                 (length rest) v
               = repeat last (length rest) ++ v :: strides done_ last).
    { intros v.
      change (repeat last (S (length rest)))
        with (last :: repeat last (length rest)).
      rewrite repeat_cons, <- app_assoc.
      apply store_app_here. now rewrite repeat_length. }
    rewrite Hst.
    change (to_size_t (e * hd 0 (strides done_ last)) :: strides done_ last)
      with (strides (e :: done_) last).
    replace (rank pre + 1) with (rank (pre ++ [e]))
      by (rewrite rank_app; reflexivity).
    rewrite (IH _ (pre ++ [e]) post (e :: done_)).
    + simpl rev. rewrite <- app_assoc. reflexivity.
    + rewrite <- app_assoc. reflexivity.
Qed.

(** [get_indices_offsets] on the dimensions [dims], met in this order
    between the two iterators: the strides of the reversed [dims]. *)
Lemma get_indices_offsets_strides pre dims post last :
  get_indices_offsets (pre ++ dims ++ post) (rank pre) (rank pre + rank dims) last
  = Some (strides (rev dims) last).
Proof.
  unfold get_indices_offsets.
  replace (rank pre + rank dims - rank pre) with (rank dims) by ring.
  destruct (Z.ltb_spec (rank dims + 1) 0) as [H | _];
    [ pose proof (rank_nonneg dims); lia | ].
  replace (Z.to_nat (rank dims)) with (length dims) by (unfold rank; lia).
  replace (Z.to_nat (rank dims + 1)) with (S (length dims)) by (unfold rank; lia).
  rewrite <- (app_nil_r (rev dims)).
  rewrite <- (offsets_loop_strides last dims (pre ++ dims ++ post) pre post [])
    by reflexivity.
  f_equal. cbn [strides].
  change (repeat last (S (length dims)))
    with (last :: repeat last (length dims)).
  apply repeat_cons.
Qed.

(** ** Lists: prefixes, slices, writes *)

Lemma firstn_app_exact {A : Type} (l1 l2 : list A) n :
  n = length l1 -> firstn n (l1 ++ l2) = l1.
Proof.
  intros ->. rewrite firstn_app, firstn_all, Nat.sub_diag. apply app_nil_r.
Qed.

Lemma skipn_app_exact {A : Type} (l1 l2 : list A) n :
  n = length l1 -> skipn n (l1 ++ l2) = l2.
Proof.
  intros ->. rewrite skipn_app, skipn_all, Nat.sub_diag. reflexivity.
Qed.

Lemma slice_rank {A : Type} (buf : list A) first last :
  0 <= first <= last -> last <= rank buf -> rank (slice buf first last) = last - first.
Proof.
  unfold slice, rank. intros H1 H2.
  rewrite length_firstn, length_skipn. lia.
Qed.

Lemma write_at_end {A : Type} (done_ rest data : list A) d :
  d = rank done_ ->
  write (done_ ++ rest) d data = done_ ++ data ++ skipn (length data) rest.
Proof.
  intros ->. unfold write, rank. rewrite Nat2Z.id.
  rewrite firstn_app_exact by reflexivity.
  rewrite skipn_app, skipn_all2 by lia.
  replace (length done_ + length data - length done_)%nat with (length data) by lia.
  reflexivity.
Qed.

Lemma range_0 : range 0 = [].
Proof. reflexivity. Qed.

Lemma range_succ k : 0 <= k -> range (k + 1) = range k ++ [k].
Proof.
  intros H. unfold range.
  replace (Z.to_nat (k + 1)) with (S (Z.to_nat k)) by lia.
  rewrite seq_S, map_app. simpl. rewrite Z2Nat.id by lia. reflexivity.
Qed.

Lemma range_In k x : In x (range k) <-> 0 <= x < k.
Proof.
  unfold range. rewrite in_map_iff. split.
  - intros [i [<- Hi]]. apply in_seq in Hi. lia.
  - intros H. exists (Z.to_nat x). split; [ lia | apply in_seq; lia ].
Qed.

Lemma range_length k : length (range k) = Z.to_nat k.
Proof. unfold range. now rewrite length_map, length_seq. Qed.

(** ** Running the monad *)

Section Runs.

Variable T : Type.

Lemma bind_defined {A B : Type} (o : option A) (a : A) (k : A -> M T B) m :
  o = Some a -> bind (defined o) k m = k a m.
Proof. intros ->. reflexivity. Qed.

(** A loop whose body keeps an invariant returns, and the invariant holds
    of the final state. *)
Lemma for_loop_inv (Inv : Z -> mem T -> Prop) (body : Z -> M T unit) :
  forall count i m,
    Inv i m ->
    (forall j m', i <= j < i + Z.of_nat count -> Inv j m' ->
       exists m'', body j m' = (Returns tt, m'') /\ Inv (j + 1) m'') ->
    exists m_end,
      for_loop count i body m = (Returns tt, m_end)
      /\ Inv (i + Z.of_nat count) m_end.
Proof.
  induction count as [| count IH]; intros i m Hi Hbody.
  - exists m. split; [ reflexivity | ]. now replace (i + Z.of_nat 0) with i by lia.
  - destruct (Hbody i m ltac:(lia) Hi) as [m1 [E1 H1]].
    destruct (IH (i + 1) m1 H1) as [m2 [E2 H2]].
    { intros j m' Hj. apply Hbody. lia. }
    exists m2. split.
    + cbn [for_loop]. unfold bind. rewrite E1. exact E2.
    + now replace (i + Z.of_nat (S count)) with (i + 1 + Z.of_nat count) by lia.
Qed.

Lemma for_inv (Inv : Z -> mem T -> Prop) (body : Z -> M T unit) bound m :
  0 <= bound ->
  Inv 0 m ->
  (forall j m', 0 <= j < bound -> Inv j m' ->
     exists m'', body j m' = (Returns tt, m'') /\ Inv (j + 1) m'') ->
  exists m_end, for_ bound body m = (Returns tt, m_end) /\ Inv bound m_end.
Proof.
  intros Hb H0 Hbody. unfold for_.
  destruct (for_loop_inv Inv body (Z.to_nat bound) 0 m H0) as [m' [E H]].
  - intros j m' Hj. apply Hbody. lia.
  - exists m'. split; [ exact E | ]. now rewrite Z2Nat.id in H by lia.
Qed.

(** No loop throws when its body does not. *)
Lemma for_loop_no_throw (body : Z -> M T unit) :
  (forall j m e m', body j m <> (Throws e, m')) ->
  forall count i m e m', for_loop count i body m <> (Throws e, m').
Proof.
  intros Hbody. induction count as [| count IH]; intros i m e m'.
  - discriminate.
  - cbn [for_loop]. unfold bind.
    destruct (body i m) as [[[] | e1 | ] m1] eqn:E.
    + apply IH.
    + exfalso. exact (Hbody _ _ _ _ E).
    + discriminate.
Qed.

Lemma gathered_app (params : list T) evs1 evs2 :
  gathered params (evs1 ++ evs2) = gathered params evs1 ++ gathered params evs2.
Proof. unfold gathered. apply flat_map_app. Qed.

Lemma gathered_one (params : list T) first d l :
  gathered params [copy_ev first d l] = slice params first (first + l).
Proof. unfold gathered. cbn [flat_map src len]. apply app_nil_r. Qed.

Lemma copy_step (params out0 : list T) log0 ss evs k m first :
  copied_so_far T params out0 log0 ss evs k m ->
  0 <= k -> 0 <= ss -> 0 <= first ->
  first + ss <= rank params ->
  (k + 1) * ss <= rank out0 ->
  exists m',
    copy params first (first + ss) (k * ss) m = (Returns tt, m')
    /\ copied_so_far T params out0 log0 ss
         (evs ++ [copy_ev first (k * ss) ss]) (k + 1) m'.
Proof.
  intros (Hout & Hlog & Hrank) Hk Hss Hfirst Hparams Hroom.
  assert (Hks : 0 <= k * ss <= rank out0) by nia.
  assert (Hlen : rank (slice params first (first + ss)) = ss).
  { rewrite slice_rank by lia. ring. }
  assert (Hbuf : rank (out_buf m) = rank out0).
  { rewrite Hout, rank_app, Hrank. unfold rank in *. rewrite length_skipn. lia. }
  unfold copy.
  replace (first + ss - first) with ss by ring.
  destruct (Z.leb_spec first (first + ss)); [ | lia ].
  destruct (Z.leb_spec (first + ss) (rank params)); [ | lia ].
  destruct (Z.leb_spec (k * ss + ss) (rank (out_buf m))); [ | lia ].
  cbn [andb]. eexists. split; [ reflexivity | ].
  unfold copied_so_far. cbn [out_buf copied].
  rewrite !gathered_app, !gathered_one. repeat split.
  - rewrite Hout, write_at_end by (symmetry; exact Hrank).
    rewrite <- app_assoc. f_equal. f_equal.
    rewrite skipn_skipn. f_equal.
    unfold rank in Hlen. lia.
  - rewrite Hlog, app_assoc. reflexivity.
  - rewrite rank_app, Hlen, Hrank. ring.
Qed.

End Runs.

(** ** One coordinate tuple *)

Lemma resolve_range axis i_c :
  - axis <= i_c < axis -> 0 <= resolve axis i_c < axis.
Proof. unfold resolve. destruct (Z.ltb_spec i_c 0); lia. Qed.

(** The index the source computes is the resolved component. *)
Lemma index_resolve k_1_params c axis i_c :
  Span_at k_1_params c = Some axis ->
  - axis <= i_c < axis -> axis < size_t_mod ->
  (if i_c <? 0
   then option_map (fun k => to_size_t (k + i_c)) (Span_at k_1_params c)
   else Some (to_size_t i_c))
  = Some (resolve axis i_c).
Proof.
  intros Hk Hr Ha. unfold resolve. rewrite Hk.
  destruct (Z.ltb_spec i_c 0); cbn [option_map];
    rewrite to_size_t_small by lia; reflexivity.
Qed.

Lemma skipn_nth_cons {A : Type} (l : list A) (d : A) n :
  (n < length l)%nat -> skipn n l = nth n l d :: skipn (S n) l.
Proof.
  revert n. induction l as [| x l IH]; intros n Hn; simpl in Hn; [ lia | ].
  destruct n as [| n]; [ reflexivity | ].
  cbn [skipn nth]. apply IH. lia.
Qed.

(** The loop over the components adds the dot product of the resolved
    components with the offsets, in [size_t] arithmetic. *)
Lemma coordinates_loop_dot indices k_1_params offsets start (resolved : list Z) :
  length offsets = length resolved ->
  (forall j, (j < length resolved)%nat ->
     exists i_c axis,
       at_ indices (start + Z.of_nat j) = Some i_c
       /\ Span_at k_1_params (Z.of_nat j) = Some axis
       /\ - axis <= i_c < axis /\ axis < size_t_mod
       /\ nth j resolved 0 = resolve axis i_c) ->
  forall count c acc,
    (c + count = length resolved)%nat ->
    0 <= acc < size_t_mod ->
    coordinates_loop indices k_1_params offsets start count (Z.of_nat c) acc
    = Some (to_size_t (acc + dot_product (skipn c resolved) (skipn c offsets))).
Proof.
  intros Hlen Hread.
  induction count as [| count IH]; intros c acc Hc Hacc.
  - rewrite !skipn_all2 by lia. cbn [coordinates_loop dot_product].
    rewrite Z.add_0_r, to_size_t_small by exact Hacc. reflexivity.
  - destruct (Hread c ltac:(lia)) as (i_c & axis & Hi & Hk & Hr & Ha & Hn).
    cbn [coordinates_loop]. rewrite Hi.
    rewrite (index_resolve _ _ axis) by assumption.
    rewrite (at_nth offsets (Z.of_nat c) 0) by (unfold rank; lia).
    rewrite Nat2Z.id.
    replace (Z.of_nat c + 1) with (Z.of_nat (S c)) by lia.
    rewrite IH by (try lia; apply to_size_t_range).
    rewrite (skipn_nth_cons resolved 0 c) by lia.
    rewrite (skipn_nth_cons offsets 0 c) by lia.
    cbn [dot_product]. rewrite Hn, to_size_t_add_l, to_size_t_add_m.
    f_equal. f_equal. ring.
Qed.

(** Components in range address a slice inside the block of their axes. *)
Lemma dot_strides_bound last : forall axes a0 r0 r,
  Forall2 (fun d x => 0 <= x < d) (a0 :: axes) (r0 :: r) ->
  0 <= last -> product axes * last < size_t_mod ->
  0 <= dot_product (r0 :: r) (strides axes (to_size_t last))
  /\ dot_product (r0 :: r) (strides axes (to_size_t last)) + last
     <= a0 * product axes * last.
Proof.
  induction axes as [| a1 axes IH]; intros a0 r0 r H Hlast Hfit.
  - inversion H as [| ? ? ? ? H0 Hr]; subst. inversion Hr; subst.
    cbn [strides dot_product product fold_right].
    rewrite to_size_t_small by (cbn [product fold_right] in Hfit; lia). nia.
  - inversion H as [| ? ? ? ? H0 Hr]; subst.
    inversion Hr as [| ? r1 ? r' H1 Hr']; subst.
    change (product (a1 :: axes)) with (a1 * product axes) in *.
    assert (Hp : 0 <= product axes).
    { apply product_nonneg. clear - Hr'.
      induction Hr' as [| d x ds xs Hd _ IHr]; constructor; [ lia | exact IHr ]. }
    assert (Hfit' : product axes * last < size_t_mod) by nia.
    destruct (IH a1 r1 r' Hr Hlast Hfit') as [Hlo Hhi]. clear IH.
    change (strides (a1 :: axes) (to_size_t last))
      with (to_size_t (a1 * hd 0 (strides axes (to_size_t last)))
            :: strides axes (to_size_t last)).
    rewrite strides_hd, to_size_t_mul_r.
    rewrite (to_size_t_small (a1 * (product axes * last))) by nia.
    change (dot_product (r0 :: r1 :: r')
              (a1 * (product axes * last) :: strides axes (to_size_t last)))
      with (r0 * (a1 * (product axes * last))
            + dot_product (r1 :: r') (strides axes (to_size_t last))).
    nia.
Qed.

(** ** The derived values on shapes split into their parts

    [params_shape] is the batch axes [Bs], then the axes [a0 :: As] a
    coordinate tuple indexes, then the slice axes [Ss]; [indices_shape] is
    the batch axes, then the axes [Ks] that count the tuples of a batch,
    then the width of a tuple. *)

Section Parts.

Variables (Bs : list Z) (a0 : Z) (As Ss Ks : list Z).

Local Abbreviation width := (rank (a0 :: As)).
Local Abbreviation Ps := (Bs ++ (a0 :: As) ++ Ss).
Local Abbreviation Is := (Bs ++ Ks ++ [rank (a0 :: As)]).
Local Abbreviation bd := (rank Bs).

Hypothesis Ps_rank : rank Ps < 2 ^ 63.

Lemma parts_rank : rank Ps = bd + width + rank Ss.
Proof. rewrite !rank_app. ring. Qed.

Lemma parts_width_pos : 1 <= width.
Proof. rewrite rank_cons. pose proof (rank_nonneg As). lia. Qed.

Lemma parts_coordinates_size : coordinates_size Is = width.
Proof. unfold coordinates_size. rewrite app_assoc. apply last_last. Qed.

Lemma parts_first_slice_index : first_slice_index_in_params Is bd = bd + width.
Proof.
  unfold first_slice_index_in_params. rewrite parts_coordinates_size.
  apply to_size_t_small. pose proof parts_rank. pose proof parts_width_pos.
  pose proof (rank_nonneg Bs). pose proof (rank_nonneg Ss).
  unfold size_t_mod. lia.
Qed.

Lemma parts_batch_size : batch_size Ps bd = shape_size Bs.
Proof.
  unfold batch_size. rewrite firstn_app_exact; [ reflexivity | ].
  unfold rank. apply Nat2Z.id.
Qed.

Lemma parts_slice_shape : slice_shape Ps Is bd = Ss.
Proof.
  unfold slice_shape. rewrite parts_first_slice_index, app_assoc.
  apply skipn_app_exact. rewrite length_app. unfold rank. lia.
Qed.

Lemma parts_slice_size : slice_size Ps Is bd = shape_size Ss.
Proof. unfold slice_size. now rewrite parts_slice_shape. Qed.

Lemma parts_k_1_indices : k_1_indices Is bd = Ks.
Proof.
  unfold k_1_indices. rewrite skipn_app_exact by (unfold rank; lia).
  apply firstn_app_exact. rewrite !rank_app. unfold rank.
  cbn [length]. lia.
Qed.

Lemma parts_number_of_slices :
  number_of_slices_to_copy_in_one_batch Is bd = shape_size Ks.
Proof. unfold number_of_slices_to_copy_in_one_batch. now rewrite parts_k_1_indices. Qed.

Lemma parts_dims_begin : dims_begin Ps Is bd = rank (rev Ss).
Proof.
  unfold dims_begin. rewrite parts_first_slice_index, parts_rank.
  unfold rank. rewrite length_rev. ring.
Qed.

Lemma parts_dims_end : dims_end Ps Is bd = rank (rev Ss) + rank (rev As).
Proof.
  unfold dims_end. rewrite parts_dims_begin, parts_coordinates_size. f_equal.
  assert (H : width - 1 = rank (rev As)).
  { rewrite rank_cons. unfold rank. rewrite length_rev. ring. }
  rewrite H. pose proof (rank_nonneg (rev As)). pose proof parts_rank.
  pose proof (rank_nonneg Bs). pose proof (rank_nonneg Ss).
  rewrite to_size_t_small by (unfold size_t_mod; lia).
  unfold to_ptrdiff. destruct (Z.ltb_spec (rank (rev As)) (2 ^ 63)); lia.
Qed.

Lemma parts_rev : rev Ps = rev Ss ++ rev As ++ a0 :: rev Bs.
Proof.
  rewrite rev_app_distr. cbn [app]. cbn [rev]. rewrite rev_app_distr.
  rewrite <- !app_assoc. reflexivity.
Qed.

Lemma parts_offset_dims : offset_dims Ps Is bd = rev As.
Proof.
  unfold offset_dims, slice. rewrite parts_dims_begin, parts_dims_end, parts_rev.
  rewrite skipn_app_exact by (unfold rank; lia).
  apply firstn_app_exact. unfold rank. lia.
Qed.

Lemma parts_indices_offsets :
  indices_offsets Ps Is bd = strides As (shape_size Ss).
Proof.
  unfold indices_offsets.
  rewrite parts_dims_begin, parts_dims_end, parts_slice_size, parts_rev.
  rewrite get_indices_offsets_strides, rev_involutive. reflexivity.
Qed.

Lemma parts_batch_axis : nth (Z.to_nat bd) Ps 0 = a0.
Proof.
  unfold rank. rewrite Nat2Z.id, app_nth2, Nat.sub_diag by lia. reflexivity.
Qed.

Lemma parts_batch_offset :
  batch_offset Ps Is bd = to_size_t (product (a0 :: As) * product Ss).
Proof.
  unfold batch_offset. rewrite parts_indices_offsets, parts_batch_axis.
  rewrite shape_size_product, strides_hd, to_size_t_mul_l. f_equal.
  change (product (a0 :: As)) with (a0 * product As). ring.
Qed.

Lemma parts_axis_size c :
  0 <= c < width -> axis_size Ps bd c = nth (Z.to_nat c) (a0 :: As) 0.
Proof.
  intros Hc. unfold axis_size.
  replace (Z.to_nat (bd + c)) with (length Bs + Z.to_nat c)%nat
    by (unfold rank; lia).
  rewrite app_nth2_plus, app_nth1; [ reflexivity | ].
  unfold rank in Hc. lia.
Qed.

Lemma parts_k_1_params_at c :
  0 <= c < width -> Span_at (k_1_params Ps bd) c = Some (axis_size Ps bd c).
Proof.
  intros Hc. unfold Span_at, k_1_params, axis_size. cbn [span_of m_begin].
  apply at_nth. pose proof parts_rank. pose proof (rank_nonneg Bs).
  pose proof (rank_nonneg Ss). lia.
Qed.

End Parts.

Lemma prefix_app {A : Type} (l1 l2 : list A) : prefix (l1 ++ l2) (rank l1) = Some l1.
Proof.
  unfold prefix. pose proof (rank_nonneg l1). pose proof (rank_nonneg l2).
  rewrite rank_app.
  destruct (Z.leb_spec 0 (rank l1)); [ | lia ].
  destruct (Z.leb_spec (rank l1) (rank l1 + rank l2)); [ | lia ].
  cbn [andb]. f_equal. apply firstn_app_exact. unfold rank. lia.
Qed.

Lemma back_last {A : Type} (l : list A) x : back (l ++ [x]) = Some x.
Proof.
  unfold back. destruct l as [| y l]; [ reflexivity | ].
  cbn [app]. f_equal.
  change (last (l ++ [x]) y = x). apply last_last.
Qed.

Section PartsRun.

Variable T : Type.
Variables (Bs : list Z) (a0 : Z) (As Ss Ks : list Z).

Local Abbreviation width := (rank (a0 :: As)).
Local Abbreviation Ps := (Bs ++ (a0 :: As) ++ Ss).
Local Abbreviation Is := (Bs ++ Ks ++ [rank (a0 :: As)]).
Local Abbreviation bd := (rank Bs).

Hypothesis Ps_rank : rank Ps < 2 ^ 63.

(** On shapes that pass the checks, [gather_nd] is the copy loops run on
    the derived values. *)
Lemma parts_gather_nd (params : list T) indices out_shape m :
  (bd <> 0 -> front out_shape = Some (shape_size Bs)) ->
  gather_nd params indices Ps Is out_shape bd m
  = copy_engine params indices
      (batch_size Ps bd) (number_of_slices_to_copy_in_one_batch Is bd)
      (slice_size Ps Is bd) (coordinates_size Is)
      (indices_offsets Ps Is bd) (batch_offset Ps Is bd) (k_1_params Ps bd) m.
Proof.
  intros Hfront.
  pose proof (parts_rank Bs a0 As Ss) as Hrank.
  pose proof (parts_width_pos a0 As) as Hwidth.
  pose proof (rank_nonneg Bs) as HBs. pose proof (rank_nonneg Ss) as HSs.
  pose proof (parts_first_slice_index Bs a0 As Ss Ks Ps_rank) as Hfirst.
  unfold first_slice_index_in_params in Hfirst.
  rewrite parts_coordinates_size in Hfirst.
  unfold gather_nd.
  rewrite (bind_defined T _ Bs) by apply prefix_app.
  assert (Hcheck1 : forall k : Z -> M T unit,
             bind (if bd =? 0 then ret 0 else defined (front out_shape)) k m
             = bind (ret (if bd =? 0 then 0 else shape_size Bs)) k m).
  { intros k. destruct (Z.eqb_spec bd 0) as [E | E]; [ reflexivity | ].
    now rewrite (Hfront E). }
  rewrite Hcheck1. unfold bind at 1, ret at 1.
  replace (negb (bd =? 0) && negb (shape_size Bs =? (if bd =? 0 then 0 else shape_size Bs)))
    with false
    by (destruct (bd =? 0); cbn [negb andb];
        [ reflexivity | now rewrite Z.eqb_refl ]).
  rewrite (bind_defined T _ Bs) by apply prefix_app.
  destruct (list_eq_dec Z.eq_dec Bs Bs) as [_ | ne]; [ | contradiction ].
  cbn [negb].
  rewrite (bind_defined T _ width)
    by (rewrite app_assoc; apply back_last).
  rewrite Hfirst.
  destruct (Z.leb_spec (bd + width) (rank Ps)) as [_ | H]; [ | lia ].
  cbn [negb].
  rewrite (bind_defined T _ Ss).
  2:{ unfold Span_elems, Span_size. cbn [m_begin m_end span_of].
      destruct (Z.leb_spec 0 (bd + width)); [ | lia ].
      destruct (Z.leb_spec (bd + width) (rank Ps)); [ | lia ].
      destruct (Z.leb_spec (rank Ps) (rank Ps)); [ | lia ].
      cbn [andb]. f_equal. rewrite app_assoc.
      rewrite skipn_app_exact by (rewrite length_app; unfold rank; lia).
      apply firstn_all2. rewrite <- app_assoc. unfold rank in *. lia. }
  pose proof (parts_dims_begin Bs a0 As Ss Ks Ps_rank) as Hb.
  pose proof (parts_dims_end Bs a0 As Ss Ks Ps_rank) as He.
  unfold dims_end in He. rewrite Hb in He.
  unfold dims_begin, first_slice_index_in_params in Hb.
  rewrite parts_coordinates_size in Hb, He. rewrite Hfirst in Hb.
  unfold Span_size. cbn [m_begin m_end]. rewrite Hb, He.
  rewrite (bind_defined T _ (strides As (shape_size Ss))).
  2:{ pose proof (rank_nonneg (rev Ss)). pose proof (rank_nonneg (rev As)).
      assert (rank (rev Ss) = rank Ss) by (unfold rank; now rewrite length_rev).
      assert (rank (rev As) = width - 1)
        by (rewrite rank_cons; unfold rank; rewrite length_rev; ring).
      destruct (Z.leb_spec 0 (rank (rev Ss) + rank (rev As))); [ | lia ].
      destruct (Z.leb_spec (rank (rev Ss) + rank (rev As)) (rank Ps)); [ | lia ].
      cbn [andb]. rewrite parts_rev, get_indices_offsets_strides, rev_involutive.
      reflexivity. }
  rewrite (bind_defined T _ (hd 0 (strides As (shape_size Ss))))
    by (destruct (strides As (shape_size Ss)) eqn:E;
        [ now apply strides_nonempty in E | reflexivity ]).
  rewrite (bind_defined T _ a0) by (apply at_app_here; reflexivity).
  rewrite (bind_defined T _ Ks).
  2:{ unfold Span_elems, Span_size. cbn [m_begin m_end span_of].
      assert (HIs : rank Is = bd + rank Ks + 1)
        by (rewrite !rank_app; unfold rank at 3; cbn [length]; lia).
      pose proof (rank_nonneg Ks).
      destruct (Z.leb_spec 0 bd); [ | lia ].
      destruct (Z.leb_spec bd (rank Is - 1)); [ | lia ].
      destruct (Z.leb_spec (rank Is - 1) (rank Is)); [ | lia ].
      cbn [andb]. f_equal.
      rewrite skipn_app_exact by (unfold rank; lia).
      apply firstn_app_exact. unfold rank in *. lia. }
  rewrite parts_batch_size, parts_number_of_slices, parts_slice_size,
    parts_coordinates_size, parts_indices_offsets by exact Ps_rank.
  unfold batch_offset. rewrite parts_indices_offsets, parts_batch_axis by exact Ps_rank.
  reflexivity.
Qed.

End PartsRun.

Lemma Forall2_map_seq {A : Type} (R : A -> Z -> Prop) (f : Z -> Z) (d : A) :
  forall (l : list A) k,
    (forall i, (i < length l)%nat -> R (nth i l d) (f (Z.of_nat (k + i)))) ->
    Forall2 R l (map f (map Z.of_nat (seq k (length l)))).
Proof.
  induction l as [| x l IH]; intros k H; cbn [length seq map]; constructor.
  - specialize (H 0%nat ltac:(simpl; lia)). now rewrite Nat.add_0_r in H.
  - apply IH. intros i Hi. specialize (H (S i) ltac:(simpl; lia)).
    cbn [nth] in H. now replace (S k + i)%nat with (k + S i)%nat by lia.
Qed.

Lemma in_range_positive axes r :
  Forall2 (fun d x => 0 <= x < d) axes r -> Forall (fun d => 1 <= d) axes.
Proof. induction 1; constructor; [ lia | assumption ]. Qed.

Section PartsEngine.

Variable T : Type.
Variables (Bs : list Z) (a0 : Z) (As Ss Ks : list Z).
Variables (params : list T) (indices : list Z).

Local Abbreviation width := (rank (a0 :: As)).
Local Abbreviation Ps := (Bs ++ (a0 :: As) ++ Ss).
Local Abbreviation Is := (Bs ++ Ks ++ [rank (a0 :: As)]).
Local Abbreviation bd := (rank Bs).
Local Abbreviation bs := (shape_size Bs).
Local Abbreviation n := (shape_size Ks).
Local Abbreviation ss := (shape_size Ss).
Local Abbreviation bo := (to_size_t (product (a0 :: As) * product Ss)).
Local Abbreviation tuple := (resolved_tuple indices Ps Is bd).

Hypothesis Ps_rank : rank Ps < 2 ^ 63.
Hypothesis Ps_range : Forall size_t_range Ps.
Hypothesis params_rank : rank params = product Ps.
Hypothesis params_size : rank params < size_t_mod.
Hypothesis indices_rank : bs * n * width <= rank indices.
Hypothesis indices_size : rank indices < size_t_mod.
Hypothesis in_range : coordinates_in_range indices Ps Is bd.

Lemma parts_tuple_index b s :
  0 <= b < bs -> 0 <= s < n -> 0 <= b * n + s /\ b * n + s + 1 <= bs * n.
Proof. intros Hb Hs. nia. Qed.

Lemma parts_tuple_in_range t :
  0 <= t < bs * n -> Forall2 (fun d x => 0 <= x < d) (a0 :: As) (tuple t).
Proof.
  intros Ht. unfold resolved_tuple, range.
  rewrite parts_coordinates_size.
  replace (Z.to_nat width) with (length (a0 :: As)) by (unfold rank; lia).
  apply (Forall2_map_seq _ _ 0). intros i Hi. rewrite Nat.add_0_l.
  assert (Hc : 0 <= Z.of_nat i < width) by (unfold rank; lia).
  rewrite parts_axis_size, Nat2Z.id by exact Hc.
  apply resolve_range.
  pose proof (in_range t (Z.of_nat i)) as H.
  rewrite parts_batch_size, parts_number_of_slices, parts_coordinates_size,
    parts_axis_size, Nat2Z.id in H by assumption.
  apply H; assumption.
Qed.

Lemma parts_tuple_length t : length (tuple t) = length (a0 :: As).
Proof.
  unfold resolved_tuple. rewrite length_map, range_length, parts_coordinates_size.
  unfold rank. lia.
Qed.

(** When there is a tuple to copy, no product of dimensions wraps. *)
Lemma parts_exact b s :
  0 <= b < bs -> 0 <= s < n ->
  ss = product Ss
  /\ bo = product (a0 :: As) * product Ss
  /\ 0 <= product Ss
  /\ product As * product Ss < size_t_mod
  /\ (b + 1) * (product (a0 :: As) * product Ss) <= rank params.
Proof.
  intros Hb Hs.
  destruct (parts_tuple_index b s Hb Hs) as [Ht0 Ht1].
  pose proof (parts_tuple_in_range (b * n + s) ltac:(lia)) as Hr.
  apply in_range_positive in Hr.
  pose proof (size_t_range_nonneg _ Ps_range) as Hnn.
  apply Forall_app in Hnn. destruct Hnn as [HnB Hnn].
  apply Forall_app in Hnn. destruct Hnn as [_ HnS].
  assert (HB : 1 <= product Bs).
  { apply product_pos, product_nonzero; [ exact HnB | ].
    apply to_size_t_nonzero. rewrite <- shape_size_product. lia. }
  pose proof (product_pos _ Hr) as HA.
  pose proof (product_nonneg _ HnS) as HS.
  assert (HAs : 1 <= product As)
    by (apply product_pos; inversion Hr; assumption).
  assert (Ha0 : 1 <= a0) by (inversion Hr; assumption).
  assert (HP : product Ps = product Bs * (product (a0 :: As) * product Ss))
    by (rewrite !product_app; reflexivity).
  assert (Hbs : bs <= product Bs)
    by (rewrite shape_size_product; apply to_size_t_le; lia).
  change (product (a0 :: As)) with (a0 * product As) in *.
  remember (product As) as pAs. remember (product Ss) as pSs.
  remember (product Bs) as pBs.
  assert (HAS : 0 <= pAs * pSs) by (apply Z.mul_nonneg_nonneg; lia).
  assert (HX : 0 <= a0 * pAs * pSs) by nia.
  assert (Hfit : a0 * pAs * pSs <= rank params) by (rewrite params_rank, HP; nia).
  assert (HSfit : pSs <= a0 * pAs * pSs) by nia.
  assert (HASfit : pAs * pSs <= a0 * pAs * pSs) by nia.
  repeat split.
  - rewrite shape_size_product, <- HeqpSs. apply to_size_t_small. lia.
  - apply to_size_t_small. lia.
  - exact HS.
  - lia.
  - rewrite params_rank, HP.
    replace (pBs * (a0 * pAs * pSs)) with (pBs * (a0 * pAs * pSs)) by ring.
    apply Z.mul_le_mono_nonneg_r; lia.
Qed.

(** The source offset of a tuple, and its slice, lie inside [params]. *)
Lemma parts_source_bound b s :
  0 <= b < bs -> 0 <= s < n ->
  0 <= b * bo + dot_product (tuple (b * n + s)) (strides As ss)
  /\ b * bo + dot_product (tuple (b * n + s)) (strides As ss) + ss <= rank params.
Proof.
  intros Hb Hs.
  destruct (parts_exact b s Hb Hs) as (Ess & Ebo & HS & Hfit & Hroom).
  destruct (parts_tuple_index b s Hb Hs) as [Ht0 Ht1].
  pose proof (parts_tuple_in_range (b * n + s) ltac:(lia)) as Hr.
  destruct (tuple (b * n + s)) as [| r0 r] eqn:E; [ inversion Hr | ].
  destruct (dot_strides_bound (product Ss) As a0 r0 r Hr HS Hfit) as [Hlo Hhi].
  rewrite <- shape_size_product in Hlo, Hhi.
  remember (dot_product (r0 :: r) (strides As ss)) as D.
  rewrite Ebo, Ess.
  change (product (a0 :: As)) with (a0 * product As) in *.
  remember (a0 * product As * product Ss) as X.
  assert (HbX : 0 <= b * X) by (apply Z.mul_nonneg_nonneg; lia).
  lia.
Qed.

Variables (out0 : list T) (log0 : list copy_event).

Hypothesis out_rank : bs * n * ss <= rank out0.
Hypothesis out_size : rank out0 < size_t_mod.

Lemma parts_copy_of b s :
  copy_of indices Ps Is bd b s
  = copy_ev (b * bo + dot_product (tuple (b * n + s)) (strides As ss))
            ((b * n + s) * ss) ss.
Proof.
  unfold copy_of, source_offset, destination_offset.
  rewrite parts_batch_offset, parts_number_of_slices, parts_indices_offsets,
    parts_slice_size by exact Ps_rank.
  f_equal. ring.
Qed.

(** One turn of the inner loop: the copy of tuple [s] of batch [b]. *)
Lemma parts_slice_run b s evs m :
  0 <= b < bs -> 0 <= s < n ->
  copied_so_far T params out0 log0 ss evs (b * n + s) m ->
  exists m',
    bind (defined
            (coordinates_loop indices (k_1_params Ps bd) (strides As ss)
               (to_size_t (to_size_t (to_size_t (b * n) * width)
                           + to_size_t (s * width)))
               (Z.to_nat width) 0 (to_size_t (b * bo))))
         (fun input_slice_offset =>
            copy params input_slice_offset
              (to_size_t (input_slice_offset + ss))
              (to_size_t (to_size_t (to_size_t (b * n) * ss) + to_size_t (s * ss))))
         m
    = (Returns tt, m')
    /\ copied_so_far T params out0 log0 ss
         (evs ++ [copy_of indices Ps Is bd b s]) (b * n + s + 1) m'.
Proof.
  intros Hb Hs Hm.
  destruct (parts_tuple_index b s Hb Hs) as [Ht0 Ht1].
  destruct (parts_source_bound b s Hb Hs) as [Hlo Hhi].
  pose proof (shape_size_range Ss) as Hss.
  pose proof (parts_width_pos a0 As) as Hw.
  set (t := b * n + s) in *.
  assert (Htw : 0 <= t * width /\ t * width + width <= rank indices) by nia.
  assert (Hts : 0 <= t * ss /\ (t + 1) * ss <= rank out0) by nia.
  (* the position of the tuple in [indices] *)
  assert (Hpos : to_size_t (to_size_t (to_size_t (b * n) * width)
                            + to_size_t (s * width)) = t * width).
  { size_t_norm. replace (b * n * width + s * width) with (t * width)
      by (unfold t; ring).
    apply to_size_t_small. lia. }
  (* the position of the slice in [out] *)
  assert (Hdst : to_size_t (to_size_t (to_size_t (b * n) * ss)
                            + to_size_t (s * ss)) = t * ss).
  { size_t_norm. replace (b * n * ss + s * ss) with (t * ss) by (unfold t; ring).
    apply to_size_t_small. lia. }
  rewrite Hpos, Hdst.
  (* the source offset *)
  assert (Hloop :
            coordinates_loop indices (k_1_params Ps bd) (strides As ss)
              (t * width) (Z.to_nat width) 0 (to_size_t (b * bo))
            = Some (b * bo + dot_product (tuple t) (strides As ss))).
  { change 0 with (Z.of_nat 0) at 1.
    rewrite (coordinates_loop_dot _ _ _ _ (tuple t)).
    - cbn [skipn]. rewrite to_size_t_add_l. f_equal.
      apply to_size_t_small. lia.
    - rewrite strides_length, parts_tuple_length. reflexivity.
    - intros j Hj. rewrite parts_tuple_length in Hj.
      assert (Hc : 0 <= Z.of_nat j < width) by (unfold rank; lia).
      exists (coordinate indices width t (Z.of_nat j)),
        (axis_size Ps bd (Z.of_nat j)).
      pose proof (in_range t (Z.of_nat j)) as Hr.
      rewrite parts_batch_size, parts_number_of_slices, parts_coordinates_size
        in Hr by assumption.
      specialize (Hr ltac:(lia) Hc).
      repeat split.
      + unfold coordinate. apply at_nth. nia.
      + apply parts_k_1_params_at; assumption.
      + apply Hr.
      + apply Hr.
      + pose proof Ps_range as HP. rewrite Forall_forall in HP.
        apply (HP (axis_size Ps bd (Z.of_nat j))).
        unfold axis_size. apply nth_In.
        pose proof (parts_rank Bs a0 As Ss). unfold rank in *. lia.
      + unfold resolved_tuple. rewrite parts_coordinates_size.
        unfold range. rewrite map_map.
        rewrite (nth_indep _ 0 ((fun x => resolve (axis_size Ps bd (Z.of_nat x))
                                   (coordinate indices width t (Z.of_nat x))) 0%nat))
          by (rewrite length_map, length_seq; unfold rank in *; lia).
        rewrite (map_nth (fun x => resolve (axis_size Ps bd (Z.of_nat x))
                                     (coordinate indices width t (Z.of_nat x)))).
        rewrite seq_nth by (unfold rank in *; lia). reflexivity.
    - rewrite parts_tuple_length. unfold rank. lia.
    - apply to_size_t_range. }
  rewrite (bind_defined T _ _ _ _ Hloop).
  rewrite (to_size_t_small (b * bo + dot_product (tuple t) (strides As ss) + ss))
    by lia.
  destruct (copy_step T params out0 log0 ss evs t m
              (b * bo + dot_product (tuple t) (strides As ss)) Hm)
    as [m' [Hrun Hm']]; try lia.
  exists m'. split; [ exact Hrun | ].
  rewrite parts_copy_of. exact Hm'.
Qed.

(** The copy loops return, having made exactly the copies [copies]
    prescribes, in order, each packed after the one before. *)
Lemma parts_copy_engine :
  copy_engine params indices bs n ss width (strides As ss) bo (k_1_params Ps bd)
    (mk_mem out0 log0)
  = (Returns tt,
     mk_mem (gathered params (copies indices Ps Is bd)
             ++ skipn (Z.to_nat (bs * n * ss)) out0)
            (log0 ++ copies indices Ps Is bd))
  /\ rank (gathered params (copies indices Ps Is bd)) = bs * n * ss.
Proof.
  pose (E := fun b s =>
               flat_map (fun b' => map (copy_of indices Ps Is bd b') (range n))
                        (range b)
               ++ map (copy_of indices Ps Is bd b) (range s)).
  pose proof (shape_size_range Bs) as Hbs.
  pose proof (shape_size_range Ks) as Hn.
  unfold copy_engine.
  match goal with
  | |- for_ ?bound ?body ?start = _ /\ _ =>
      destruct (for_inv T
                  (fun b mb => copied_so_far T params out0 log0 ss (E b 0) (b * n) mb)
                  body bound start) as [m_end [Hrun Hend]]
  end.
  - lia.
  - unfold copied_so_far, E. cbn [out_buf copied range Z.to_nat seq map flat_map app].
    repeat split. now rewrite app_nil_r.
  - intros b m Hb Hm. cbv zeta.
    match goal with
    | |- exists _, for_ ?bound ?body ?start = _ /\ _ =>
        destruct (for_inv T
                    (fun s ms => copied_so_far T params out0 log0 ss (E b s)
                                   (b * n + s) ms)
                    body bound start) as [m' [Hrun' Hend']]
    end.
    + lia.
    + now rewrite Z.add_0_r.
    + intros s m1 Hs Hm1.
      destruct (parts_slice_run b s (E b s) m1 Hb Hs Hm1) as [m2 [H1 H2]].
      exists m2. split; [ exact H1 | ].
      replace (E b (s + 1)) with (E b s ++ [copy_of indices Ps Is bd b s]).
      * now replace (b * n + (s + 1)) with (b * n + s + 1) by ring.
      * unfold E. rewrite range_succ, map_app by lia. cbn [map].
        symmetry. apply app_assoc.
    + exists m'. split; [ exact Hrun' | ].
      replace (E (b + 1) 0) with (E b n).
      * now replace ((b + 1) * n) with (b * n + n) by ring.
      * unfold E. rewrite (range_succ b), flat_map_app by lia.
        cbn [flat_map range Z.to_nat seq map]. now rewrite !app_nil_r.
  - assert (HE : E bs 0 = copies indices Ps Is bd).
    { unfold E, copies. rewrite parts_batch_size, parts_number_of_slices.
      cbn [range Z.to_nat seq map]. apply app_nil_r. }
    destruct Hend as (Hout & Hlog & Hrk). rewrite HE in *.
    split; [ | exact Hrk ].
    rewrite Hrun. f_equal. destruct m_end as [o l].
    cbn [out_buf copied] in Hout, Hlog. subst o l. reflexivity.
Qed.

End PartsEngine.

(** ** Valid shapes are split shapes *)

Lemma shapes_split params_shape indices_shape out_shape batch_dims :
  valid_shapes params_shape indices_shape out_shape batch_dims ->
  exists Bs a0 As Ss Ks,
    params_shape = Bs ++ (a0 :: As) ++ Ss
    /\ indices_shape = Bs ++ Ks ++ [rank (a0 :: As)]
    /\ batch_dims = rank Bs.
Proof.
  intros [HP HI Hrank Hbd Hw H1 H2 H3].
  unfold invariant_1 in H1. unfold invariant_2 in H2.
  set (nb := Z.to_nat batch_dims) in *.
  set (w := coordinates_size indices_shape) in *.
  assert (Hnb : (nb + Z.to_nat w <= length params_shape)%nat)
    by (unfold rank in *; lia).
  assert (HnbI : (nb < length indices_shape)%nat) by (unfold rank in *; lia).
  destruct (firstn (Z.to_nat w) (skipn nb params_shape)) as [| a0 As] eqn:EA.
  { apply (f_equal (@length Z)) in EA.
    rewrite length_firstn, length_skipn in EA. simpl in EA. lia. }
  assert (HA : rank (a0 :: As) = w).
  { rewrite <- EA. unfold rank. rewrite length_firstn, length_skipn. lia. }
  assert (HI' : skipn nb indices_shape
                = removelast (skipn nb indices_shape)
                  ++ [last (skipn nb indices_shape) 0]).
  { apply app_removelast_last. intros E. apply (f_equal (@length Z)) in E.
    rewrite length_skipn in E. simpl in E. lia. }
  assert (HIs : indices_shape
                = firstn nb params_shape
                  ++ removelast (skipn nb indices_shape)
                  ++ [last (skipn nb indices_shape) 0]).
  { rewrite <- HI', H1. symmetry. apply firstn_skipn. }
  assert (Hlast : last (skipn nb indices_shape) 0 = w).
  { unfold w, coordinates_size. rewrite HIs at 2.
    rewrite app_assoc. symmetry. apply last_last. }
  exists (firstn nb params_shape), a0, As,
    (skipn (Z.to_nat w) (skipn nb params_shape)),
    (removelast (skipn nb indices_shape)).
  repeat split.
  - rewrite <- EA, firstn_skipn, firstn_skipn. reflexivity.
  - rewrite HA, <- Hlast. exact HIs.
  - unfold rank. rewrite length_firstn. lia.
Qed.

Section Valid.

Variable T : Type.
Variables (params : list T) (indices : list Z) (out : list T).
Variables (params_shape indices_shape out_shape : Shape) (batch_dims : Z).

Hypothesis valid :
  valid_input params indices out params_shape indices_shape out_shape batch_dims.

(** On a valid call [gather_nd] returns; it has made the copies of
    [copies], in this order, and [out] holds the copied slices one after
    the other, followed by what it held beyond them. *)
Lemma gather_nd_valid_rank log0 :
  gather_nd params indices params_shape indices_shape out_shape batch_dims
    (mk_mem out log0)
  = (Returns tt,
     mk_mem (gathered params (copies indices params_shape indices_shape batch_dims)
             ++ skipn (Z.to_nat (region_size params_shape indices_shape batch_dims)) out)
            (log0 ++ copies indices params_shape indices_shape batch_dims))
  /\ rank (gathered params (copies indices params_shape indices_shape batch_dims))
     = region_size params_shape indices_shape batch_dims.
Proof.
  destruct valid as [Hs Hp Hps Hi His Hc Ho Hos].
  destruct (shapes_split _ _ _ _ Hs) as (Bs & a0 & As & Ss & Ks & EP & EI & Ebd).
  destruct Hs as [HP HI Hrank Hbd Hw H1 H2 H3].
  subst params_shape indices_shape batch_dims.
  unfold invariant_3 in H3. rewrite parts_batch_size in H3.
  rewrite parts_gather_nd by assumption.
  unfold region_size in *.
  rewrite parts_batch_size, parts_number_of_slices, parts_slice_size,
    parts_coordinates_size, parts_indices_offsets, parts_batch_offset in *
    by assumption.
  apply parts_copy_engine; assumption.
Qed.

Lemma gather_nd_valid log0 :
  gather_nd params indices params_shape indices_shape out_shape batch_dims
    (mk_mem out log0)
  = (Returns tt,
     mk_mem (gathered params (copies indices params_shape indices_shape batch_dims)
             ++ skipn (Z.to_nat (region_size params_shape indices_shape batch_dims)) out)
            (log0 ++ copies indices params_shape indices_shape batch_dims)).
Proof. apply gather_nd_valid_rank. Qed.

Lemma gathered_rank_valid :
  rank (gathered params (copies indices params_shape indices_shape batch_dims))
  = region_size params_shape indices_shape batch_dims.
Proof. apply (gather_nd_valid_rank []). Qed.

End Valid.

(** ** The derived values on valid shapes *)

Section ValidShapes.

Variables (params_shape indices_shape out_shape : Shape) (batch_dims : Z).

Hypothesis valid : valid_shapes params_shape indices_shape out_shape batch_dims.

Lemma valid_first_slice_index :
  first_slice_index_in_params indices_shape batch_dims
  = batch_dims + coordinates_size indices_shape.
Proof.
  destruct (shapes_split _ _ _ _ valid) as (Bs & a0 & As & Ss & Ks & EP & EI & Ebd).
  destruct valid as [HP HI Hrank Hbd Hw H1 H2 H3]. subst.
  rewrite (parts_first_slice_index Bs a0 As Ss Ks), parts_coordinates_size
    by assumption.
  reflexivity.
Qed.

(** The dimensions handed to [get_indices_offsets] are the axes
    [batch_dims + 1 .. batch_dims + width - 1] of [params_shape], last
    first. *)
Lemma valid_offset_dims :
  offset_dims params_shape indices_shape batch_dims
  = rev (slice params_shape (batch_dims + 1)
           (batch_dims + coordinates_size indices_shape)).
Proof.
  destruct (shapes_split _ _ _ _ valid) as (Bs & a0 & As & Ss & Ks & EP & EI & Ebd).
  destruct valid as [HP HI Hrank Hbd Hw H1 H2 H3]. subst.
  rewrite parts_offset_dims, parts_coordinates_size by assumption. f_equal.
  unfold slice.
  replace (Z.to_nat (rank Bs + 1)) with (length (Bs ++ [a0]))
    by (rewrite length_app; unfold rank; simpl; lia).
  replace (Bs ++ (a0 :: As) ++ Ss) with ((Bs ++ [a0]) ++ As ++ Ss)
    by (rewrite <- app_assoc; reflexivity).
  rewrite skipn_app_exact by reflexivity.
  symmetry. apply firstn_app_exact. rewrite rank_cons. unfold rank. lia.
Qed.

Lemma valid_indices_offsets :
  indices_offsets params_shape indices_shape batch_dims
  = strides (rev (offset_dims params_shape indices_shape batch_dims))
            (slice_size params_shape indices_shape batch_dims).
Proof.
  destruct (shapes_split _ _ _ _ valid) as (Bs & a0 & As & Ss & Ks & EP & EI & Ebd).
  destruct valid as [HP HI Hrank Hbd Hw H1 H2 H3]. subst.
  rewrite parts_indices_offsets, parts_offset_dims, parts_slice_size by assumption.
  now rewrite rev_involutive.
Qed.

Lemma valid_offset_dims_rank :
  rank (offset_dims params_shape indices_shape batch_dims)
  = coordinates_size indices_shape - 1.
Proof.
  destruct (shapes_split _ _ _ _ valid) as (Bs & a0 & As & Ss & Ks & EP & EI & Ebd).
  destruct valid as [HP HI Hrank Hbd Hw H1 H2 H3]. subst.
  rewrite parts_offset_dims, parts_coordinates_size by assumption.
  rewrite rank_cons. unfold rank. rewrite length_rev. ring.
Qed.

Lemma valid_axis_after c :
  0 <= c < coordinates_size indices_shape - 1 ->
  nth (Z.to_nat c) (rev (offset_dims params_shape indices_shape batch_dims)) 0
  = axis_size params_shape batch_dims (c + 1).
Proof.
  intros Hc.
  destruct (shapes_split _ _ _ _ valid) as (Bs & a0 & As & Ss & Ks & EP & EI & Ebd).
  destruct valid as [HP HI Hrank Hbd Hw H1 H2 H3]. subst.
  rewrite parts_coordinates_size in Hc.
  rewrite parts_offset_dims, rev_involutive by assumption.
  rewrite parts_axis_size by lia.
  replace (Z.to_nat (c + 1)) with (S (Z.to_nat c)) by lia. reflexivity.
Qed.

Lemma valid_k_1_params_at c :
  0 <= c < coordinates_size indices_shape ->
  Span_at (k_1_params params_shape batch_dims) c
  = Some (axis_size params_shape batch_dims c).
Proof.
  intros Hc.
  destruct (shapes_split _ _ _ _ valid) as (Bs & a0 & As & Ss & Ks & EP & EI & Ebd).
  destruct valid as [HP HI Hrank Hbd Hw H1 H2 H3]. subst.
  rewrite parts_coordinates_size in Hc. now apply parts_k_1_params_at.
Qed.

(** On valid shapes no check fails and [gather_nd] is its copy loops. *)
Lemma gather_nd_valid_shapes {T : Type} (params : list T) indices m :
  gather_nd params indices params_shape indices_shape out_shape batch_dims m
  = copy_engine params indices
      (batch_size params_shape batch_dims)
      (number_of_slices_to_copy_in_one_batch indices_shape batch_dims)
      (slice_size params_shape indices_shape batch_dims)
      (coordinates_size indices_shape)
      (indices_offsets params_shape indices_shape batch_dims)
      (batch_offset params_shape indices_shape batch_dims)
      (k_1_params params_shape batch_dims) m.
Proof.
  destruct (shapes_split _ _ _ _ valid) as (Bs & a0 & As & Ss & Ks & EP & EI & Ebd).
  destruct valid as [HP HI Hrank Hbd Hw H1 H2 H3]. subst.
  unfold invariant_3 in H3. rewrite parts_batch_size in H3.
  now apply parts_gather_nd.
Qed.

End ValidShapes.

Section ValidBounds.

Variable T : Type.
Variables (params : list T) (indices : list Z) (out : list T).
Variables (params_shape indices_shape out_shape : Shape) (batch_dims : Z).

Hypothesis valid :
  valid_input params indices out params_shape indices_shape out_shape batch_dims.

(** Every prescribed copy reads inside [params]. *)
Lemma valid_source_bound b s :
  0 <= b < batch_size params_shape batch_dims ->
  0 <= s < number_of_slices_to_copy_in_one_batch indices_shape batch_dims ->
  0 <= source_offset indices params_shape indices_shape batch_dims b s
  /\ source_offset indices params_shape indices_shape batch_dims b s
     + slice_size params_shape indices_shape batch_dims <= rank params.
Proof.
  destruct valid as [Hs Hp Hps Hi His Hc Ho Hos].
  destruct (shapes_split _ _ _ _ Hs) as (Bs & a0 & As & Ss & Ks & EP & EI & Ebd).
  destruct Hs as [HP HI Hrank Hbd Hw H1 H2 H3]. subst.
  unfold source_offset.
  rewrite parts_batch_size, parts_number_of_slices, parts_slice_size,
    parts_indices_offsets, parts_batch_offset in * by assumption.
  rewrite parts_coordinates_size in Hi.
  apply parts_source_bound; assumption.
Qed.

End ValidBounds.

(** ** Failures *)

Section Throws.

Variable T : Type.

Lemma bind_defined_throws {A B : Type} (o : option A) (k : A -> M T B) m e m' :
  bind (defined o) k m = (Throws e, m') ->
  exists a, o = Some a /\ k a m = (Throws e, m').
Proof.
  unfold bind, defined. destruct o as [a |]; [ | discriminate ].
  intros H. exists a. split; [ reflexivity | exact H ].
Qed.

Lemma bind_front_throws {B : Type} batch_dims (out_shape : Shape)
    (k : Z -> M T B) m e m' :
  bind (if batch_dims =? 0 then ret 0 else defined (front out_shape)) k m
  = (Throws e, m') ->
  exists d, (batch_dims <> 0 -> front out_shape = Some d)
            /\ k d m = (Throws e, m').
Proof.
  destruct (Z.eqb_spec batch_dims 0) as [E0 | E0]; intros H.
  - exists 0. split; [ contradiction | exact H ].
  - apply bind_defined_throws in H. destruct H as (d & Ed & H).
    exists d. split; [ intros _; exact Ed | exact H ].
Qed.

Lemma copy_no_throw (params : list T) first last d m e m' :
  copy params first last d m <> (Throws e, m').
Proof.
  unfold copy.
  destruct ((first <=? last) && (last <=? rank params)
            && (d + (last - first) <=? rank (out_buf m))); discriminate.
Qed.

(** The copy loops do not throw. *)
Lemma copy_engine_no_throw (params : list T) indices bs n ss w offsets bo kp m e m' :
  copy_engine params indices bs n ss w offsets bo kp m <> (Throws e, m').
Proof.
  unfold copy_engine, for_.
  apply for_loop_no_throw. intros b m1 e1 m1'. cbv zeta.
  apply for_loop_no_throw. intros s m2 e2 m2'.
  unfold bind, defined.
  destruct (coordinates_loop _ _ _ _ _ _ _); [ apply copy_no_throw | discriminate ].
Qed.

(** Every [throw] of [gather_nd] is one of its three checks, made on the
    shapes alone and before the state is touched. *)
Lemma gather_nd_throws (params : list T) indices
    params_shape indices_shape out_shape batch_dims m e m' :
  gather_nd params indices params_shape indices_shape out_shape batch_dims m
  = (Throws e, m') ->
  m' = m
  /\ exists batch_shape,
       prefix params_shape batch_dims = Some batch_shape
       /\ ((e = out_shape_first_dim
            /\ batch_dims <> 0
            /\ exists d, front out_shape = Some d /\ shape_size batch_shape <> d)
           \/ (e = batch_dims_differ
               /\ exists indices_batch,
                    prefix indices_shape batch_dims = Some indices_batch
                    /\ batch_shape <> indices_batch)
           \/ (e = not_enough_rank
               /\ prefix indices_shape batch_dims = Some batch_shape
               /\ exists indices_back,
                    back indices_shape = Some indices_back
                    /\ rank params_shape < to_size_t (batch_dims + indices_back))).
Proof.
  unfold gather_nd. intros H.
  apply bind_defined_throws in H. destruct H as (batch_shape & E1 & H).
  apply bind_front_throws in H. destruct H as (d & Hd & H).
  destruct (negb (batch_dims =? 0) && negb (shape_size batch_shape =? d)) eqn:C1.
  { inversion H; subst. split; [ reflexivity | ].
    exists batch_shape. split; [ exact E1 | ]. left.
    apply andb_prop in C1. destruct C1 as [C0 C1].
    apply negb_true_iff in C0, C1.
    apply Z.eqb_neq in C0, C1.
    repeat split; [ exact C0 | ]. exists d. split; [ now apply Hd | exact C1 ]. }
  apply bind_defined_throws in H. destruct H as (indices_batch & E2 & H).
  destruct (list_eq_dec Z.eq_dec batch_shape indices_batch) as [Eq | Ne];
    cbn [negb] in H.
  2:{ inversion H; subst. split; [ reflexivity | ].
      exists batch_shape. split; [ exact E1 | ]. right. left.
      split; [ reflexivity | ]. exists indices_batch. now split. }
  subst indices_batch.
  apply bind_defined_throws in H. destruct H as (indices_back & E3 & H).
  destruct (to_size_t (batch_dims + indices_back) <=? rank params_shape) eqn:C3;
    cbn [negb] in H.
  2:{ inversion H; subst. split; [ reflexivity | ].
      exists batch_shape. split; [ exact E1 | ]. right. right.
      split; [ reflexivity | ]. split; [ exact E2 | ].
      exists indices_back. split; [ exact E3 | ].
      apply Z.leb_gt. exact C3. }
  exfalso.
  apply bind_defined_throws in H. destruct H as (slice_dims & _ & H).
  apply bind_defined_throws in H. destruct H as (offsets & _ & H).
  apply bind_defined_throws in H. destruct H as (offsets_front & _ & H).
  apply bind_defined_throws in H. destruct H as (batch_axis & _ & H).
  apply bind_defined_throws in H. destruct H as (k_1_dims & _ & H).
  exact (copy_engine_no_throw _ _ _ _ _ _ _ _ _ _ _ _ H).
Qed.

End Throws.

(** ** Concrete inputs *)

Lemma coordinates_in_rangeb_correct indices params_shape indices_shape batch_dims :
  coordinates_in_rangeb indices params_shape indices_shape batch_dims = true ->
  coordinates_in_range indices params_shape indices_shape batch_dims.
Proof.
  unfold coordinates_in_rangeb, coordinates_in_range. intros H t c Ht Hc.
  rewrite forallb_forall in H. specialize (H t (proj2 (range_In _ _) Ht)).
  rewrite forallb_forall in H. specialize (H c (proj2 (range_In _ _) Hc)).
  apply andb_prop in H. destruct H as [H1 H2].
  apply Z.leb_le in H1. apply Z.ltb_lt in H2. lia.
Qed.

Ltac compute_num :=
  vm_compute;
  first [ reflexivity | discriminate
        | split; first [ reflexivity | discriminate ] ].

Ltac compute_forall :=
  repeat first [ apply Forall_nil | apply Forall_cons; [ compute_num | ] ].

Ltac compute_invariant_3 :=
  vm_compute;
  let H := fresh in
  intros H; first [ reflexivity | exfalso; apply H; reflexivity ].

Ltac compute_valid_shapes :=
  constructor;
  [ compute_forall | compute_forall | compute_num | compute_num | compute_num
  | compute_num | compute_num | compute_invariant_3 ].

Ltac compute_valid_input :=
  constructor;
  [ compute_valid_shapes | compute_num | compute_num | compute_num | compute_num
  | apply coordinates_in_rangeb_correct; vm_compute; reflexivity
  | compute_num | compute_num ].

(** * The claims of the specification *)

(** ** The stride/offset builder *)

(** C6, as the code has it.  [get_indices_offsets], given [k] dimensions in
    reversed order and a slice size, returns [k + 1] offsets: the last one
    is the slice size and each other one is its dimension times the next
    offset.  [gather_nd] hands it the [width - 1] axes
    [batch_dims + 1 .. batch_dims + width - 1] of [params_shape], so that
    its table has [width] entries, entry [c] being the size of axis
    [batch_dims + c + 1] times entry [c + 1], and runs its copy loops on
    that table. *)
Theorem C6_offset_table (params_shape indices_shape out_shape : Shape)
    (batch_dims : Z)
    (valid : valid_shapes params_shape indices_shape out_shape batch_dims) :
  (forall dims last_slice_size,
     exists offsets,
       get_indices_offsets dims 0 (rank dims) last_slice_size = Some offsets
       /\ rank offsets = rank dims + 1
       /\ nth (length dims) offsets 0 = last_slice_size
       /\ forall i, (i < length dims)%nat ->
            nth i offsets 0
            = to_size_t (nth i (rev dims) 0 * nth (S i) offsets 0))
  /\ offset_dims params_shape indices_shape batch_dims
     = rev (slice params_shape (batch_dims + 1)
              (batch_dims + coordinates_size indices_shape))
  /\ rank (offset_dims params_shape indices_shape batch_dims)
     = coordinates_size indices_shape - 1
  /\ rank (indices_offsets params_shape indices_shape batch_dims)
     = coordinates_size indices_shape
  /\ nth (Z.to_nat (coordinates_size indices_shape - 1))
         (indices_offsets params_shape indices_shape batch_dims) 0
     = slice_size params_shape indices_shape batch_dims
  /\ (forall c, 0 <= c < coordinates_size indices_shape - 1 ->
        nth (Z.to_nat c) (indices_offsets params_shape indices_shape batch_dims) 0
        = to_size_t
            (axis_size params_shape batch_dims (c + 1)
             * nth (Z.to_nat (c + 1))
                   (indices_offsets params_shape indices_shape batch_dims) 0))
  /\ (forall (T : Type) (params : list T) indices m,
        gather_nd params indices params_shape indices_shape out_shape batch_dims m
        = copy_engine params indices
            (batch_size params_shape batch_dims)
            (number_of_slices_to_copy_in_one_batch indices_shape batch_dims)
            (slice_size params_shape indices_shape batch_dims)
            (coordinates_size indices_shape)
            (indices_offsets params_shape indices_shape batch_dims)
            (batch_offset params_shape indices_shape batch_dims)
            (k_1_params params_shape batch_dims) m).
Proof.
  pose proof (valid_offset_dims_rank _ _ _ _ valid) as Hrank.
  pose proof (valid_indices_offsets _ _ _ _ valid) as Hoff.
  pose proof (rank_nonneg (offset_dims params_shape indices_shape batch_dims)) as H0.
  assert (Hlen : length (rev (offset_dims params_shape indices_shape batch_dims))
                 = Z.to_nat (coordinates_size indices_shape - 1))
    by (rewrite length_rev; unfold rank in Hrank; lia).
  split; [ | split; [ | split; [ | split; [ | split; [ | split ] ] ] ] ].
  - intros dims last_slice_size.
    exists (strides (rev dims) last_slice_size).
    pose proof (get_indices_offsets_strides [] dims [] last_slice_size) as H.
    cbn [app] in H. rewrite app_nil_r in H.
    change (rank []) with 0 in H. rewrite Z.add_0_l in H.
    split; [ exact H | ]. split; [ | split ].
    + rewrite strides_rank. unfold rank. now rewrite length_rev.
    + rewrite <- (length_rev dims). apply strides_last.
    + intros i Hi. apply strides_step. now rewrite length_rev.
  - exact (valid_offset_dims _ _ _ _ valid).
  - exact Hrank.
  - rewrite Hoff, strides_rank. unfold rank in *. rewrite length_rev. lia.
  - rewrite Hoff, <- Hlen. apply strides_last.
  - intros c Hc. rewrite Hoff.
    rewrite strides_step by lia.
    rewrite (valid_axis_after _ _ _ _ valid) by exact Hc.
    now replace (Z.to_nat (c + 1)) with (S (Z.to_nat c)) by lia.
  - intros T params indices m. now apply gather_nd_valid_shapes.
Qed.

Lemma C6_offset_table_witness :
  valid_shapes [2; 3; 4; 5] [7; 3] [] 0
  /\ indices_offsets [2; 3; 4; 5] [7; 3] 0 = [60; 20; 5]
  /\ rank (indices_offsets [2; 3; 4; 5] [7; 3] 0) = coordinates_size [7; 3].
Proof.
  assert (H : valid_shapes [2; 3; 4; 5] [7; 3] [] 0) by compute_valid_shapes.
  split; [ exact H | ]. split; [ reflexivity | ].
  exact (proj1 (proj2 (proj2 (proj2 (C6_offset_table _ _ _ _ H))))).
Defined.

(** C6 as the specification words it fails: for [params_shape = [2,3,4]]
    and tuples of width 2 the builder is handed one dimension, not two, and
    returns two offsets, not three. *)
Lemma C6_counterexample :
  coordinates_size [1; 2] = 2
  /\ offset_dims [2; 3; 4] [1; 2] 0 = [3]
  /\ indices_offsets [2; 3; 4] [1; 2] 0 = [12; 4]
  /\ rank (offset_dims [2; 3; 4] [1; 2] 0) <> coordinates_size [1; 2]
  /\ rank (indices_offsets [2; 3; 4] [1; 2] 0) <> coordinates_size [1; 2] + 1.
Proof.
  split; [ reflexivity | ]. split; [ reflexivity | ]. split; [ reflexivity | ].
  split; vm_compute; discriminate.
Qed.

(** ** Reads through [k_1_params] *)

(** C9.  When [batch_dims] is not negative and invariant 2 holds, for every
    position [c] of a coordinate tuple the unchecked read [k_1_params[c]]
    is the read of [params_shape[batch_dims + c]], an index below the rank,
    and yields the size of the axis the component indexes.  When
    [batch_dims + width] is the rank, the last position is the size of the
    span, one past its last index, and the read yields the last entry of
    [params_shape], which the span leaves out. *)
Theorem C9_k_1_params_read (params_shape indices_shape : Shape) (batch_dims c : Z)
    (Hbatch : 0 <= batch_dims)
    (H2 : invariant_2 params_shape indices_shape batch_dims)
    (Hc : 0 <= c < coordinates_size indices_shape) :
  0 <= batch_dims + c < rank params_shape
  /\ Span_at (k_1_params params_shape batch_dims) c
     = at_ params_shape (batch_dims + c)
  /\ at_ params_shape (batch_dims + c)
     = Some (axis_size params_shape batch_dims c)
  /\ Span_size (k_1_params params_shape batch_dims)
     = rank params_shape - 1 - batch_dims
  /\ (batch_dims + coordinates_size indices_shape = rank params_shape ->
      c = coordinates_size indices_shape - 1 ->
      c = Span_size (k_1_params params_shape batch_dims)
      /\ Span_at (k_1_params params_shape batch_dims) c
         = back params_shape).
Proof.
  unfold invariant_2 in H2.
  assert (Hread : Span_at (k_1_params params_shape batch_dims) c
                  = at_ params_shape (batch_dims + c)) by reflexivity.
  split; [ lia | ]. split; [ exact Hread | ].
  split; [ unfold axis_size; apply at_nth; lia | ].
  split; [ reflexivity | ].
  intros Hfull Hlast. split; [ unfold Span_size, k_1_params; cbn; lia | ].
  rewrite Hread.
  replace (batch_dims + c) with (rank params_shape - 1) by lia.
  destruct params_shape as [| d ds] using rev_ind.
  - unfold rank in *. simpl in *. lia.
  - rewrite back_last, rank_app.
    replace (rank ds + rank [d] - 1) with (rank ds) by (unfold rank; simpl; lia).
    apply at_app_here. reflexivity.
Qed.

Lemma C9_k_1_params_read_witness :
  Span_size (k_1_params [2; 3; 4] 0) = 2
  /\ Span_at (k_1_params [2; 3; 4] 0) 2 = Some 4.
Proof.
  split; [ reflexivity | ].
  assert (Hb : 0 <= 0) by lia.
  assert (H2 : invariant_2 [2; 3; 4] [5; 3] 0) by (vm_compute; discriminate).
  assert (Hc : 0 <= 2 < coordinates_size [5; 3])
    by (vm_compute; split; [ discriminate | reflexivity ]).
  destruct (C9_k_1_params_read [2; 3; 4] [5; 3] 0 2 Hb H2 Hc)
    as (_ & _ & _ & _ & Hlast).
  exact (proj2 (Hlast eq_refl eq_refl)).
Defined.

(** ** The checks *)

Lemma prefix_firstn {A : Type} (v : list A) k :
  0 <= k <= rank v -> prefix v k = Some (firstn (Z.to_nat k) v).
Proof.
  intros H. unfold prefix.
  destruct (Z.leb_spec 0 k); [ | lia ]. destruct (Z.leb_spec k (rank v)); [ | lia ].
  reflexivity.
Qed.

Lemma prefix_inv {A : Type} (v w : list A) k :
  prefix v k = Some w -> w = firstn (Z.to_nat k) v.
Proof.
  unfold prefix. destruct ((0 <=? k) && (k <=? rank v)); [ | discriminate ].
  intros H. now inversion H.
Qed.

Lemma last_cons {A : Type} (s : list A) : forall y d, last (y :: s) d = last s y.
Proof.
  induction s as [| z s IH]; intros y d; [ reflexivity | ].
  change (last (y :: z :: s) d) with (last (z :: s) d).
  now rewrite (IH z d), (IH z y).
Qed.

Lemma back_inv (s : Shape) x : back s = Some x -> coordinates_size s = x.
Proof.
  unfold back, coordinates_size. destruct s as [| y s]; [ discriminate | ].
  intros H. inversion H. apply last_cons.
Qed.


(** C10.  With [batch_dims = 0] the outcome of [gather_nd] is the same for
    any two [out_shape]s: no check reads [out_shape].  No check fails when
    a coordinate tuple is not wider than the rank of [params_shape]
    (invariant 2; invariant 1 says nothing of an empty batch prefix), and on
    shapes of the data model the call is its copy loops. *)
Theorem C10_no_out_shape_check {T : Type} (params : list T) (indices : list Z)
    (params_shape indices_shape out_shape : Shape) (m : mem T)
    (H1 : invariant_1 params_shape indices_shape 0)
    (H2 : invariant_2 params_shape indices_shape 0)
    (Hw : size_t_range (coordinates_size indices_shape)) :
  (forall out_shape',
     gather_nd params indices params_shape indices_shape out_shape 0 m
     = gather_nd params indices params_shape indices_shape out_shape' 0 m)
  /\ (forall e m',
        gather_nd params indices params_shape indices_shape out_shape 0 m
        <> (Throws e, m'))
  /\ (forall out_shape',
        valid_shapes params_shape indices_shape out_shape' 0 ->
        gather_nd params indices params_shape indices_shape out_shape 0 m
        = copy_engine params indices
            (batch_size params_shape 0)
            (number_of_slices_to_copy_in_one_batch indices_shape 0)
            (slice_size params_shape indices_shape 0)
            (coordinates_size indices_shape)
            (indices_offsets params_shape indices_shape 0)
            (batch_offset params_shape indices_shape 0)
            (k_1_params params_shape 0) m).
Proof.
  assert (Hany : forall out_shape',
             gather_nd params indices params_shape indices_shape out_shape 0 m
             = gather_nd params indices params_shape indices_shape out_shape' 0 m)
    by reflexivity.
  split; [ exact Hany | ]. split.
  - intros e m' H.
    apply gather_nd_throws in H.
    destruct H as (_ & bshape & Eb & [(_ & Hbd & _) | [(_ & ib & Ei & Hne) | (_ & _ & ib & Ei & Hlt)]]).
    + now apply Hbd.
    + apply prefix_inv in Eb, Ei. subst. now apply Hne.
    + apply back_inv in Ei. subst ib. unfold invariant_2 in H2.
      rewrite to_size_t_small in Hlt by (unfold size_t_range in Hw; lia). lia.
  - intros out_shape' Hv. rewrite (Hany out_shape').
    now apply gather_nd_valid_shapes.
Qed.

Lemma C10_no_out_shape_check_witness :
  gather_nd (iota 24) [1; 2] [2; 3; 4] [1; 2] [9; 9; 9] 0 (mk_mem (repeat 0 4) [])
  = gather_nd (iota 24) [1; 2] [2; 3; 4] [1; 2] [] 0 (mk_mem (repeat 0 4) []).
Proof.
  apply (C10_no_out_shape_check (iota 24) [1; 2] [2; 3; 4] [1; 2] [9; 9; 9]).
  - reflexivity.
  - vm_compute. discriminate.
  - vm_compute. split; [ discriminate | reflexivity ].
Defined.

(** C3.  When the first [batch_dims] entries of [params_shape] and of
    [indices_shape] are not pairwise equal, [gather_nd] throws an error of
    kind [ShapeMismatch] and the state is the one it was called in: no
    element was copied.  And whatever [gather_nd] throws, on any input, it
    throws in the state it was called in. *)
Theorem C3_mismatch_fails_before_copy {T : Type} (params : list T) (indices : list Z)
    (params_shape indices_shape out_shape : Shape) (batch_dims : Z) (m : mem T)
    (Hparams : 0 <= batch_dims <= rank params_shape)
    (Hindices : batch_dims <= rank indices_shape)
    (Hout : batch_dims <> 0 -> out_shape <> [])
    (Hmismatch : firstn (Z.to_nat batch_dims) params_shape
                 <> firstn (Z.to_nat batch_dims) indices_shape) :
  (exists e,
     gather_nd params indices params_shape indices_shape out_shape batch_dims m
     = (Throws e, m)
     /\ kind e = ShapeMismatch)
  /\ (forall params' indices' params_shape' indices_shape' out_shape' batch_dims'
        (m0 : mem T) e m',
        gather_nd params' indices' params_shape' indices_shape' out_shape'
          batch_dims' m0 = (Throws e, m') ->
        m' = m0 /\ copied m' = copied m0 /\ out_buf m' = out_buf m0).
Proof.
  split.
  - unfold gather_nd.
    rewrite (bind_defined T _ _ _ _ (prefix_firstn params_shape batch_dims Hparams)).
    destruct (Z.eqb_spec batch_dims 0) as [E0 | E0].
    { exfalso. apply Hmismatch. rewrite E0. reflexivity. }
    destruct out_shape as [| d out_shape']; [ now exfalso; apply Hout | ].
    rewrite (bind_defined T _ d) by reflexivity.
    cbn [negb andb].
    destruct (shape_size (firstn (Z.to_nat batch_dims) params_shape) =? d).
    2:{ exists out_shape_first_dim. split; reflexivity. }
    cbn [negb].
    rewrite (bind_defined T _ _ _ _
               (prefix_firstn indices_shape batch_dims ltac:(lia))).
    destruct (list_eq_dec Z.eq_dec _ _) as [Eq | Ne]; [ contradiction | ].
    exists batch_dims_differ. split; reflexivity.
  - intros params' indices' params_shape' indices_shape' out_shape' batch_dims'
      m0 e m' H.
    apply gather_nd_throws in H. destruct H as [-> _]. repeat split.
Qed.

Lemma C3_mismatch_fails_before_copy_witness :
  exists e,
    gather_nd (iota 24) [0; 0; 0] [2; 3; 4] [3; 1; 1] [2; 1; 4] 1
      (mk_mem (repeat 7 8) [])
    = (Throws e, mk_mem (repeat 7 8) [])
    /\ kind e = ShapeMismatch.
Proof.
  apply (C3_mismatch_fails_before_copy (iota 24) [0; 0; 0] [2; 3; 4] [3; 1; 1]
           [2; 1; 4] 1 (mk_mem (repeat 7 8) [])).
  - vm_compute. split; discriminate.
  - vm_compute. discriminate.
  - discriminate.
  - vm_compute. discriminate.
Defined.



(** ** Enumerations *)

Lemma range_app a b :
  0 <= a -> 0 <= b -> range (a + b) = range a ++ map (Z.add a) (range b).
Proof.
  intros Ha Hb. unfold range.
  replace (Z.to_nat (a + b)) with (Z.to_nat a + Z.to_nat b)%nat by lia.
  rewrite seq_app, map_app. f_equal.
  rewrite map_map. cbn [Nat.add].
  rewrite <- (Nat.add_0_r (Z.to_nat a)) at 1.
  generalize 0%nat as k. generalize (Z.to_nat b) as c.
  induction c as [| c IH]; intros k; [ reflexivity | ].
  cbn [seq map]. f_equal; [ lia | ].
  replace (S (Z.to_nat a + k)) with (Z.to_nat a + S k)%nat by lia. apply IH.
Qed.

Lemma range_split k n :
  0 <= k < n -> exists rest, range n = range k ++ k :: rest.
Proof.
  intros H. exists (map (Z.add k) (map (Z.add 1) (range (n - k - 1)))).
  replace n with (k + (1 + (n - k - 1))) at 1 by ring.
  rewrite range_app, (range_app 1) by lia.
  change (range 1) with [0]. cbn [app map]. now rewrite Z.add_0_r.
Qed.

(** Pairs [(b, s)] in batch-major order are the numbers [b * n + s] in
    increasing order. *)
Lemma flat_map_pairs {A : Type} (g : Z -> A) n :
  0 <= n ->
  forall k : nat,
    flat_map (fun b => map (fun s => g (b * n + s)) (range n)) (range (Z.of_nat k))
    = map g (range (Z.of_nat k * n)).
Proof.
  intros Hn. induction k as [| k IH]; [ reflexivity | ].
  replace (Z.of_nat (S k)) with (Z.of_nat k + 1) by lia.
  rewrite range_succ, flat_map_app, IH by lia.
  replace ((Z.of_nat k + 1) * n) with (Z.of_nat k * n + n) by ring.
  rewrite range_app, map_app, map_map by nia.
  cbn [flat_map]. now rewrite app_nil_r.
Qed.

Lemma flat_map_ext_in {A B : Type} (f g : A -> list B) l :
  (forall a, In a l -> f a = g a) -> flat_map f l = flat_map g l.
Proof.
  induction l as [| a l IH]; intros H; [ reflexivity | ].
  cbn [flat_map]. rewrite (H a (or_introl eq_refl)), IH; [ reflexivity | ].
  intros b Hb. apply H. now right.
Qed.

Lemma flat_map_flat_map {A B C : Type} (f : A -> list B) (g : B -> list C) l :
  flat_map g (flat_map f l) = flat_map (fun a => flat_map g (f a)) l.
Proof.
  induction l as [| a l IH]; [ reflexivity | ].
  cbn [flat_map]. now rewrite flat_map_app, IH.
Qed.

Lemma flat_map_of_map {A B C : Type} (f : A -> B) (g : B -> list C) l :
  flat_map g (map f l) = flat_map (fun a => g (f a)) l.
Proof.
  induction l as [| a l IH]; [ reflexivity | ].
  cbn [map flat_map]. now rewrite IH.
Qed.

Lemma flat_map_length_uniform {A B : Type} (f : A -> list B) c l :
  (forall a, In a l -> length (f a) = c) ->
  length (flat_map f l) = (length l * c)%nat.
Proof.
  induction l as [| a l IH]; intros H; [ reflexivity | ].
  cbn [flat_map length]. rewrite length_app, (H a (or_introl eq_refl)), IH.
  - reflexivity.
  - intros b Hb. apply H. now right.
Qed.

(** The positions a run of back-to-back copies writes. *)
Lemma written_copies indices params_shape indices_shape batch_dims :
  written (copies indices params_shape indices_shape batch_dims)
  = range (region_size params_shape indices_shape batch_dims).
Proof.
  unfold written, copies, region_size.
  pose proof (shape_size_range (firstn (Z.to_nat batch_dims) params_shape)) as Hb.
  pose proof (shape_size_range (k_1_indices indices_shape batch_dims)) as Hn.
  pose proof (shape_size_range (slice_shape params_shape indices_shape batch_dims)) as Hs.
  fold (batch_size params_shape batch_dims) in Hb.
  fold (number_of_slices_to_copy_in_one_batch indices_shape batch_dims) in Hn.
  fold (slice_size params_shape indices_shape batch_dims) in Hs.
  set (bs := batch_size params_shape batch_dims) in *.
  set (n := number_of_slices_to_copy_in_one_batch indices_shape batch_dims) in *.
  set (ss := slice_size params_shape indices_shape batch_dims) in *.
  rewrite flat_map_flat_map.
  pose proof (flat_map_pairs id (n * ss) ltac:(nia) (Z.to_nat bs)) as Houter.
  rewrite Z2Nat.id, map_id in Houter by lia.
  replace (bs * n * ss) with (bs * (n * ss)) by ring.
  rewrite <- Houter. apply flat_map_ext_in. intros b _.
  rewrite flat_map_of_map.
  cbn [dst len copy_of]. unfold destination_offset. fold n ss.
  pose proof (flat_map_pairs (fun x => id (b * (n * ss) + x)) ss ltac:(lia)
                (Z.to_nat n)) as Hinner.
  rewrite Z2Nat.id in Hinner by lia.
  rewrite <- Hinner. apply flat_map_ext_in. intros s _.
  apply map_ext. intros e. unfold id. ring.
Qed.

Lemma slice_app_middle {A : Type} (pre mid post : list A) first last :
  first = rank pre -> last = rank pre + rank mid ->
  slice (pre ++ mid ++ post) first last = mid.
Proof.
  intros -> ->. unfold slice.
  rewrite skipn_app_exact by (unfold rank; lia).
  apply firstn_app_exact. unfold rank. lia.
Qed.

Lemma gathered_cons {T : Type} (params : list T) ev evs :
  gathered params (ev :: evs)
  = slice params (src ev) (src ev + len ev) ++ gathered params evs.
Proof. reflexivity. Qed.

Lemma gathered_rank_uniform {T : Type} (params : list T) ss evs :
  0 <= ss ->
  Forall (fun ev => len ev = ss /\ 0 <= src ev /\ src ev + ss <= rank params) evs ->
  rank (gathered params evs) = Z.of_nat (length evs) * ss.
Proof.
  intros Hss. induction 1 as [| ev evs (Hl & H0 & H1) _ IH]; [ reflexivity | ].
  rewrite gathered_cons, rank_app, IH, Hl, slice_rank by lia.
  cbn [length]. lia.
Qed.

Section ValidCopies.

Variable T : Type.
Variables (params : list T) (indices : list Z) (out : list T).
Variables (params_shape indices_shape out_shape : Shape) (batch_dims : Z).

Hypothesis valid :
  valid_input params indices out params_shape indices_shape out_shape batch_dims.

Local Abbreviation bs := (batch_size params_shape batch_dims).
Local Abbreviation n := (number_of_slices_to_copy_in_one_batch indices_shape batch_dims).
Local Abbreviation ss := (slice_size params_shape indices_shape batch_dims).
Local Abbreviation the_copy := (copy_of indices params_shape indices_shape batch_dims).

Lemma valid_copy_bound b s :
  0 <= b < bs -> 0 <= s < n ->
  len (the_copy b s) = ss
  /\ 0 <= src (the_copy b s) /\ src (the_copy b s) + ss <= rank params.
Proof.
  intros Hb Hs. split; [ reflexivity | ].
  exact (valid_source_bound T params indices out _ _ _ _ valid b s Hb Hs).
Qed.

(** The slice of batch [b] and tuple [s] is found in [out] at its
    destination offset. *)
Lemma valid_slice_at b s rest :
  0 <= b < bs -> 0 <= s < n ->
  slice (gathered params (copies indices params_shape indices_shape batch_dims)
         ++ rest)
        (destination_offset params_shape indices_shape batch_dims b s)
        (destination_offset params_shape indices_shape batch_dims b s + ss)
  = slice params
      (source_offset indices params_shape indices_shape batch_dims b s)
      (source_offset indices params_shape indices_shape batch_dims b s + ss).
Proof.
  intros Hb Hs.
  pose proof (shape_size_range (slice_shape params_shape indices_shape batch_dims))
    as Hss. fold ss in Hss.
  destruct (range_split b bs Hb) as [R1 E1].
  destruct (range_split s n Hs) as [R2 E2].
  set (F := fun b' => map (the_copy b') (range n)).
  set (pre := flat_map F (range b) ++ map (the_copy b) (range s)).
  set (post := map (the_copy b) R2 ++ flat_map F R1).
  assert (Hcopies : copies indices params_shape indices_shape batch_dims
                    = pre ++ the_copy b s :: post).
  { unfold copies. fold F. rewrite E1, flat_map_app. cbn [flat_map].
    unfold F at 2. rewrite E2, map_app. cbn [map].
    unfold pre, post. rewrite <- !app_assoc. reflexivity. }
  assert (Hpre : rank (gathered params pre)
                 = destination_offset params_shape indices_shape batch_dims b s).
  { assert (Hall : Forall (fun ev => len ev = ss /\ 0 <= src ev
                                     /\ src ev + ss <= rank params) pre).
    { unfold pre. apply Forall_app. split.
      - apply Forall_flat_map, Forall_forall. intros b' Hb'.
        apply range_In in Hb'. unfold F. apply Forall_map, Forall_forall.
        intros s' Hs'. apply range_In in Hs'. apply valid_copy_bound; lia.
      - apply Forall_map, Forall_forall. intros s' Hs'.
        apply range_In in Hs'. apply valid_copy_bound; lia. }
    rewrite (gathered_rank_uniform params ss pre) by (lia || exact Hall).
    unfold pre. rewrite length_app, length_map, range_length.
    rewrite (flat_map_length_uniform F (Z.to_nat n))
      by (intros; unfold F; now rewrite length_map, range_length).
    rewrite range_length. unfold destination_offset. nia. }
  destruct (valid_copy_bound b s Hb Hs) as (_ & H0 & H1).
  rewrite Hcopies, gathered_app, gathered_cons, <- !app_assoc.
  cbn [src len copy_of] in *.
  apply slice_app_middle; [ now rewrite Hpre | ].
  rewrite Hpre, slice_rank by lia. ring.
Qed.

(** The copy of batch [b] and tuple [s] is copy number [b * n + s]. *)
Lemma copies_nth b s :
  0 <= b < bs -> 0 <= s < n ->
  nth_error (copies indices params_shape indices_shape batch_dims)
            (Z.to_nat (b * n + s))
  = Some (the_copy b s).
Proof.
  intros Hb Hs.
  destruct (range_split b bs Hb) as [R1 E1].
  destruct (range_split s n Hs) as [R2 E2].
  set (F := fun b' => map (the_copy b') (range n)).
  set (pre := flat_map F (range b) ++ map (the_copy b) (range s)).
  set (post := map (the_copy b) R2 ++ flat_map F R1).
  assert (Hcopies : copies indices params_shape indices_shape batch_dims
                    = pre ++ the_copy b s :: post).
  { unfold copies. fold F. rewrite E1, flat_map_app. cbn [flat_map].
    unfold F at 2. rewrite E2, map_app. cbn [map].
    unfold pre, post. rewrite <- !app_assoc. reflexivity. }
  assert (Hpre : length pre = Z.to_nat (b * n + s)).
  { unfold pre. rewrite length_app, length_map, range_length.
    rewrite (flat_map_length_uniform F (Z.to_nat n))
      by (intros; unfold F; now rewrite length_map, range_length).
    rewrite range_length. nia. }
  rewrite Hcopies, nth_error_app2 by lia.
  now rewrite Hpre, Nat.sub_diag.
Qed.

Lemma valid_tuple_event t :
  0 <= t < bs * n ->
  nth_error (copies indices params_shape indices_shape batch_dims) (Z.to_nat t)
  = Some (copy_ev
            (t / n * batch_offset params_shape indices_shape batch_dims
             + dot_product
                 (map (fun c =>
                         let i_c :=
                           coordinate indices (coordinates_size indices_shape) t c in
                         if i_c <? 0 then axis_size params_shape batch_dims c + i_c
                         else i_c)
                      (range (coordinates_size indices_shape)))
                 (indices_offsets params_shape indices_shape batch_dims))
            (t * ss) ss).
Proof.
  intros Ht.
  pose proof (shape_size_range (k_1_indices indices_shape batch_dims)) as Hn.
  pose proof (shape_size_range (firstn (Z.to_nat batch_dims) params_shape)) as Hb.
  fold n in Hn. fold bs in Hb.
  assert (Hpos : 0 < n) by nia.
  pose proof (Z.div_mod t n ltac:(lia)) as Ediv.
  pose proof (Z.mod_pos_bound t n Hpos) as Hs.
  assert (Hq : 0 <= t / n < bs).
  { split; [ apply Z.div_pos; lia | ].
    apply Z.div_lt_upper_bound; [ exact Hpos | ]. lia. }
  pose proof (copies_nth (t / n) (t mod n) Hq Hs) as H.
  unfold copy_of, destination_offset, source_offset in H.
  replace (t / n * n * ss + t mod n * ss) with (t * ss) in H by nia.
  replace (t / n * n + t mod n) with t in H by lia.
  exact H.
Qed.

(** The slice of tuple number [t], counted across the batches, is read at
    the batch base plus the sum, over the components [i_c] of the tuple, of
    [i_c] (of [axis + i_c] when [i_c] is negative) times the offset of the
    component. *)
Lemma valid_tuple_slice t rest :
  0 <= t < bs * n ->
  slice (gathered params (copies indices params_shape indices_shape batch_dims)
         ++ rest)
        (t * ss) (t * ss + ss)
  = slice params
      (t / n * batch_offset params_shape indices_shape batch_dims
       + dot_product
           (map (fun c =>
                   let i_c := coordinate indices (coordinates_size indices_shape) t c in
                   if i_c <? 0 then axis_size params_shape batch_dims c + i_c
                   else i_c)
                (range (coordinates_size indices_shape)))
           (indices_offsets params_shape indices_shape batch_dims))
      (t / n * batch_offset params_shape indices_shape batch_dims
       + dot_product
           (map (fun c =>
                   let i_c := coordinate indices (coordinates_size indices_shape) t c in
                   if i_c <? 0 then axis_size params_shape batch_dims c + i_c
                   else i_c)
                (range (coordinates_size indices_shape)))
           (indices_offsets params_shape indices_shape batch_dims)
       + ss).
Proof.
  intros Ht.
  pose proof (shape_size_range (k_1_indices indices_shape batch_dims)) as Hn.
  pose proof (shape_size_range (firstn (Z.to_nat batch_dims) params_shape)) as Hb.
  fold n in Hn. fold bs in Hb.
  assert (Hpos : 0 < n) by nia.
  pose proof (Z.div_mod t n ltac:(lia)) as Ediv.
  pose proof (Z.mod_pos_bound t n Hpos) as Hs.
  assert (Hq : 0 <= t / n < bs).
  { split; [ apply Z.div_pos; lia | ].
    apply Z.div_lt_upper_bound; [ exact Hpos | ]. lia. }
  pose proof (valid_slice_at (t / n) (t mod n) rest Hq Hs) as H.
  unfold destination_offset, source_offset in H.
  replace (t / n * n * ss + t mod n * ss) with (t * ss) in H by nia.
  replace (t / n * n + t mod n) with t in H by lia.
  exact H.
Qed.

End ValidCopies.

(** ** The copies of a valid call *)

(** C1, as the code has it.  On a valid input, which besides invariants 1-3
    has coordinate tuples of width 1 or more and a [batch_dims] below the
    rank of [indices_shape] (with buffers of the sizes the shapes give and
    components in the range of their axes), [gather_nd] returns, and the
    copies it has made
    are, in this order, those of [copies]: for each batch [b] in turn and,
    within it, each tuple [s] in turn, [slice_size] elements from
    [b * batch_offset + dot_product resolved_tuple indices_offsets] of
    [params] to [b * number_of_slices * slice_size + s * slice_size] of
    [out].  Afterwards [out] holds, from that destination on, the
    [slice_size] elements [params] holds from that source on. *)
Theorem C1_copies_in_order {T : Type} (params : list T) (indices : list Z)
    (out : list T) (params_shape indices_shape out_shape : Shape) (batch_dims : Z)
    (valid : valid_input params indices out params_shape indices_shape out_shape
               batch_dims) :
  exists out',
    gather_nd params indices params_shape indices_shape out_shape batch_dims
      (mk_mem out [])
    = (Returns tt, mk_mem out' (copies indices params_shape indices_shape batch_dims))
    /\ forall b s,
         0 <= b < batch_size params_shape batch_dims ->
         0 <= s < number_of_slices_to_copy_in_one_batch indices_shape batch_dims ->
         In (copy_of indices params_shape indices_shape batch_dims b s)
            (copies indices params_shape indices_shape batch_dims)
         /\ rank (slice params
                    (source_offset indices params_shape indices_shape batch_dims b s)
                    (source_offset indices params_shape indices_shape batch_dims b s
                     + slice_size params_shape indices_shape batch_dims))
            = slice_size params_shape indices_shape batch_dims
         /\ slice out'
              (destination_offset params_shape indices_shape batch_dims b s)
              (destination_offset params_shape indices_shape batch_dims b s
               + slice_size params_shape indices_shape batch_dims)
            = slice params
                (source_offset indices params_shape indices_shape batch_dims b s)
                (source_offset indices params_shape indices_shape batch_dims b s
                 + slice_size params_shape indices_shape batch_dims).
Proof.
  eexists. split; [ exact (gather_nd_valid T _ _ _ _ _ _ _ valid []) | ].
  intros b s Hb Hs. split; [ | split ].
  - unfold copies. apply in_flat_map. exists b.
    split; [ now apply range_In | ]. apply in_map. now apply range_In.
  - destruct (valid_source_bound T _ _ _ _ _ _ _ valid b s Hb Hs) as [H0 H1].
    pose proof (shape_size_range
                  (slice_shape params_shape indices_shape batch_dims)) as Hss.
    fold (slice_size params_shape indices_shape batch_dims) in Hss.
    rewrite slice_rank by lia. ring.
  - now apply (valid_slice_at T params indices out _ _ out_shape).
Qed.

Lemma C1_copies_in_order_witness :
  valid_input (iota 24) [1; 0; -1; -2] (repeat 0 16) [2; 3; 4] [2; 2; 1] [2; 2; 4] 1
  /\ exists out',
       gather_nd (iota 24) [1; 0; -1; -2] [2; 3; 4] [2; 2; 1] [2; 2; 4] 1
         (mk_mem (repeat 0 16) [])
       = (Returns tt,
          mk_mem out' [copy_ev 4 0 4; copy_ev 0 4 4; copy_ev 20 8 4; copy_ev 16 12 4]).
Proof.
  assert (H : valid_input (iota 24) [1; 0; -1; -2] (repeat 0 16)
                [2; 3; 4] [2; 2; 1] [2; 2; 4] 1) by compute_valid_input.
  split; [ exact H | ].
  destruct (C1_copies_in_order _ _ _ _ _ _ _ H) as [out' [Hrun _]].
  exists out'. exact Hrun.
Defined.

(** C1 as the specification words it fails: invariants 1-3 allow coordinate
    tuples of width 0, and a [batch_dims] equal to the rank of
    [indices_shape].  With [params_shape = [2,3]] and
    [indices_shape = [4,0]] the invariants hold and there are four tuples,
    each with a slice of 6 elements to copy; with [params_shape = [2,1,3]],
    [indices_shape = [2,1]] and [batch_dims = 2] they hold and there is one
    tuple in each of the two batches.  In both cases the call has no defined
    outcome, and has copied nothing. *)
Lemma C1_counterexample :
  (invariant_1 [2; 3] [4; 0] 0
   /\ invariant_2 [2; 3] [4; 0] 0
   /\ invariant_3 [2; 3] [4; 2; 3] 0
   /\ 0 <= rank [2; 3] /\ 0 <= rank [4; 0]
   /\ rank (iota 6) = shape_size [2; 3]
   /\ rank (@nil Z) = shape_size [4; 0]
   /\ rank (repeat 0 24) = shape_size [4; 2; 3]
   /\ batch_size [2; 3] 0 = 1
   /\ number_of_slices_to_copy_in_one_batch [4; 0] 0 = 4
   /\ slice_size [2; 3] [4; 0] 0 = 6
   /\ gather_nd (iota 6) [] [2; 3] [4; 0] [4; 2; 3] 0 (mk_mem (repeat 0 24) [])
      = (Undefined, mk_mem (repeat 0 24) []))
  /\ (invariant_1 [2; 1; 3] [2; 1] 2
      /\ invariant_2 [2; 1; 3] [2; 1] 2
      /\ invariant_3 [2; 1; 3] [2] 2
      /\ 2 <= rank [2; 1; 3] /\ 2 <= rank [2; 1]
      /\ rank (iota 6) = shape_size [2; 1; 3]
      /\ rank [0; 2] = shape_size [2; 1]
      /\ rank (repeat 0 2) = shape_size [2]
      /\ batch_size [2; 1; 3] 2 = 2
      /\ number_of_slices_to_copy_in_one_batch [2; 1] 2 = 1
      /\ slice_size [2; 1; 3] [2; 1] 2 = 1
      /\ 0 <= coordinate [0; 2] (coordinates_size [2; 1]) 0 0
           < axis_size [2; 1; 3] 2 0
      /\ 0 <= coordinate [0; 2] (coordinates_size [2; 1]) 1 0
           < axis_size [2; 1; 3] 2 0
      /\ gather_nd (iota 6) [0; 2] [2; 1; 3] [2; 1] [2] 2 (mk_mem (repeat 0 2) [])
         = (Undefined, mk_mem (repeat 0 2) [])).
Proof.
  split.
  - repeat (split; [ first [ reflexivity | compute_num | compute_invariant_3 ] | ]).
    reflexivity.
  - repeat (split; [ first [ reflexivity | compute_num | compute_invariant_3 ] | ]).
    reflexivity.
Qed.

Lemma range_NoDup k : NoDup (range k).
Proof.
  unfold range. generalize (seq_NoDup (Z.to_nat k) 0).
  induction 1 as [| x l Hx _ IH]; cbn [map]; constructor; [ | exact IH ].
  intros Hin. apply in_map_iff in Hin. destruct Hin as (y & Hy & Hin).
  apply Nat2Z.inj in Hy. now subst y.
Qed.

(** C2, as the code has it.  On a valid input, which besides invariants 1-3
    has coordinate tuples of width 1 or more and a [batch_dims] below the
    rank of [indices_shape] (with buffers of the sizes the shapes give and
    components in the range of their axes), [gather_nd] returns and the
    positions it has written are [0, 1, ..., region_size - 1], each once,
    [region_size] being [batch_size * number_of_slices * slice_size]; what
    it leaves there is read from [params] alone, the same whatever [out]
    held, and [out] is unchanged beyond.  [region_size] is
    [shape_size out_shape] when [out_shape] is the batch size (for a
    non-zero [batch_dims]) followed by the dimensions of [k_1_indices] and
    those of the slice. *)
Theorem C2_region_written_once {T : Type} (params : list T) (indices : list Z)
    (out : list T) (params_shape indices_shape out_shape : Shape) (batch_dims : Z)
    (valid : valid_input params indices out params_shape indices_shape out_shape
               batch_dims) :
  exists out',
    gather_nd params indices params_shape indices_shape out_shape batch_dims
      (mk_mem out [])
    = (Returns tt, mk_mem out' (copies indices params_shape indices_shape batch_dims))
    /\ written (copies indices params_shape indices_shape batch_dims)
       = range (region_size params_shape indices_shape batch_dims)
    /\ NoDup (written (copies indices params_shape indices_shape batch_dims))
    /\ slice out' 0 (region_size params_shape indices_shape batch_dims)
       = gathered params (copies indices params_shape indices_shape batch_dims)
    /\ skipn (Z.to_nat (region_size params_shape indices_shape batch_dims)) out'
       = skipn (Z.to_nat (region_size params_shape indices_shape batch_dims)) out
    /\ (forall out2 : list T,
          region_size params_shape indices_shape batch_dims <= rank out2 ->
          rank out2 < size_t_mod ->
          exists out2',
            gather_nd params indices params_shape indices_shape out_shape batch_dims
              (mk_mem out2 [])
            = (Returns tt,
               mk_mem out2' (copies indices params_shape indices_shape batch_dims))
            /\ slice out2' 0 (region_size params_shape indices_shape batch_dims)
               = slice out' 0 (region_size params_shape indices_shape batch_dims))
    /\ (out_shape
        = (if batch_dims =? 0 then [] else [batch_size params_shape batch_dims])
          ++ k_1_indices indices_shape batch_dims
          ++ slice_shape params_shape indices_shape batch_dims ->
        shape_size out_shape = region_size params_shape indices_shape batch_dims).
Proof.
  pose proof (gathered_rank_valid T _ _ _ _ _ _ _ valid) as Hrank.
  pose proof (rank_nonneg
                (gathered params
                   (copies indices params_shape indices_shape batch_dims))) as H0.
  assert (Hfirst : forall rest : list T,
             slice (gathered params
                      (copies indices params_shape indices_shape batch_dims) ++ rest)
                   0 (region_size params_shape indices_shape batch_dims)
             = gathered params
                 (copies indices params_shape indices_shape batch_dims)).
  { intros rest.
    apply (slice_app_middle [] _ rest); [ reflexivity | ].
    rewrite Hrank. reflexivity. }
  eexists. split; [ exact (gather_nd_valid T _ _ _ _ _ _ _ valid []) | ].
  split; [ apply written_copies | ].
  split; [ rewrite written_copies; apply range_NoDup | ].
  split; [ apply Hfirst | ].
  split; [ apply skipn_app_exact; unfold rank in Hrank; lia | ].
  split.
  - intros out2 Hroom Hsize.
    assert (valid2 : valid_input params indices out2 params_shape indices_shape
                       out_shape batch_dims)
      by (destruct valid; constructor; assumption).
    eexists. split; [ exact (gather_nd_valid T _ _ _ _ _ _ _ valid2 []) | ].
    now rewrite !Hfirst.
  - intros Hshape.
    destruct valid as [Hs Hp Hps Hi His Hc Ho Hos].
    assert (Hregion : to_size_t (region_size params_shape indices_shape batch_dims)
                      = region_size params_shape indices_shape batch_dims)
      by (apply to_size_t_small; lia).
    rewrite <- Hregion, Hshape, shape_size_product, !product_app.
    unfold region_size, number_of_slices_to_copy_in_one_batch, slice_size.
    rewrite !shape_size_product.
    set (pK := product (k_1_indices indices_shape batch_dims)).
    set (pS := product (slice_shape params_shape indices_shape batch_dims)).
    rewrite to_size_t_mul_r.
    replace (batch_size params_shape batch_dims * to_size_t pK * pS)
      with (to_size_t pK * (batch_size params_shape batch_dims * pS)) by ring.
    rewrite to_size_t_mul_l. f_equal.
    destruct (Z.eqb_spec batch_dims 0) as [E | E].
    + rewrite E. change (batch_size params_shape 0) with 1.
      cbn [product fold_right]. ring.
    + cbn [product fold_right]. ring.
Qed.

Lemma C2_region_written_once_witness :
  valid_input (iota 24) [1; 0; -1; -2] (repeat 0 16) [2; 3; 4] [2; 2; 1] [2; 2; 4] 1
  /\ written (copies [1; 0; -1; -2] [2; 3; 4] [2; 2; 1] 1) = range 16
  /\ shape_size [2; 2; 4] = region_size [2; 3; 4] [2; 2; 1] 1.
Proof.
  assert (H : valid_input (iota 24) [1; 0; -1; -2] (repeat 0 16)
                [2; 3; 4] [2; 2; 1] [2; 2; 4] 1) by compute_valid_input.
  split; [ exact H | ].
  destruct (C2_region_written_once _ _ _ _ _ _ _ H)
    as (out' & _ & Hwritten & _ & _ & _ & _ & Hshape).
  split; [ exact Hwritten | ]. apply Hshape. reflexivity.
Defined.

(** C2 as the specification words it fails: invariants 1-3 do not relate
    [out_shape] to the region.  Here they hold, the call returns having
    written 4 elements, and [out_shape] is the shape of 7.  Nor do they
    keep out coordinate tuples of width 0 or a [batch_dims] equal to the
    rank of [indices_shape]: with [params_shape = [3,4]] and
    [indices_shape = [2,0]], and with [params_shape = [1,5]],
    [indices_shape = [1]] and [batch_dims = 1], the invariants hold, the
    region is not empty, and the call has no defined outcome and has written
    nothing. *)
Lemma C2_counterexample :
  valid_input (iota 24) [1; 2] (repeat 0 7) [2; 3; 4] [1; 2] [7] 0
  /\ gather_nd (iota 24) [1; 2] [2; 3; 4] [1; 2] [7] 0 (mk_mem (repeat 0 7) [])
     = (Returns tt, mk_mem [20; 21; 22; 23; 0; 0; 0] [copy_ev 20 0 4])
  /\ region_size [2; 3; 4] [1; 2] 0 = 4
  /\ shape_size [7] = 7
  /\ region_size [2; 3; 4] [1; 2] 0 <> shape_size [7]
  /\ (invariant_1 [3; 4] [2; 0] 0
      /\ invariant_2 [3; 4] [2; 0] 0
      /\ invariant_3 [3; 4] [2; 3; 4] 0
      /\ rank (iota 12) = shape_size [3; 4]
      /\ rank (@nil Z) = shape_size [2; 0]
      /\ rank (repeat 0 24) = shape_size [2; 3; 4]
      /\ region_size [3; 4] [2; 0] 0 = 24
      /\ gather_nd (iota 12) [] [3; 4] [2; 0] [2; 3; 4] 0 (mk_mem (repeat 0 24) [])
         = (Undefined, mk_mem (repeat 0 24) []))
  /\ (invariant_1 [1; 5] [1] 1
      /\ invariant_2 [1; 5] [1] 1
      /\ invariant_3 [1; 5] [1] 1
      /\ 1 <= rank [1; 5] /\ 1 <= rank [1]
      /\ rank (iota 5) = shape_size [1; 5]
      /\ rank [4] = shape_size [1]
      /\ rank (repeat 0 1) = shape_size [1]
      /\ 0 <= coordinate [4] (coordinates_size [1]) 0 0 < axis_size [1; 5] 1 0
      /\ region_size [1; 5] [1] 1 = 1
      /\ gather_nd (iota 5) [4] [1; 5] [1] [1] 1 (mk_mem (repeat 0 1) [])
         = (Undefined, mk_mem (repeat 0 1) [])).
Proof.
  split; [ compute_valid_input | ].
  split; [ reflexivity | ]. split; [ reflexivity | ]. split; [ reflexivity | ].
  split; [ vm_compute; discriminate | ].
  split.
  - repeat (split; [ first [ reflexivity | compute_num | compute_invariant_3 ] | ]).
    reflexivity.
  - repeat (split; [ first [ reflexivity | compute_num | compute_invariant_3 ] | ]).
    reflexivity.
Qed.

(** ** Negative components *)

Lemma store_length {A : Type} (l : list A) j x :
  (j < length l)%nat -> length (store l j x) = length l.
Proof.
  intros H. unfold store.
  rewrite length_app, length_firstn. cbn [length]. rewrite length_skipn. lia.
Qed.

Lemma nth_store {A : Type} (l : list A) i j x d :
  (j < length l)%nat ->
  nth i (store l j x) d = if Nat.eqb i j then x else nth i l d.
Proof.
  intros H. unfold store.
  assert (Hj : length (firstn j l) = j) by (rewrite length_firstn; lia).
  destruct (Nat.eqb_spec i j) as [-> | Hne].
  - rewrite app_nth2 by lia. now rewrite Hj, Nat.sub_diag.
  - destruct (Nat.lt_ge_cases i j) as [Hlt | Hge].
    + rewrite app_nth1 by lia. rewrite nth_firstn.
      destruct (Nat.ltb_spec i j); [ reflexivity | lia ].
    + rewrite app_nth2 by lia. rewrite Hj.
      destruct (i - j)%nat as [| k] eqn:E; [ lia | ].
      cbn [nth]. rewrite nth_skipn. f_equal. lia.
Qed.

Section NegativeIndex.

Variable T : Type.
Variables (params : list T) (indices : list Z) (out : list T).
Variables (params_shape indices_shape out_shape : Shape) (batch_dims : Z).
Variables (t c : Z).

Local Abbreviation bs := (batch_size params_shape batch_dims).
Local Abbreviation n := (number_of_slices_to_copy_in_one_batch indices_shape batch_dims).
Local Abbreviation width := (coordinates_size indices_shape).
Local Abbreviation axis := (axis_size params_shape batch_dims c).
Local Abbreviation v := (coordinate indices (coordinates_size indices_shape) t c).
Local Abbreviation indices' := (store indices (Z.to_nat (t * width + c)) (v - axis)).

Hypothesis valid :
  valid_input params indices out params_shape indices_shape out_shape batch_dims.
Hypothesis Ht : 0 <= t < bs * n.
Hypothesis Hc : 0 <= c < width.
Hypothesis Hv : 0 <= v.

Lemma negative_position : 0 <= t * width + c < rank indices.
Proof. destruct valid as [_ _ _ Hi _ _ _ _]. nia. Qed.

Lemma negative_coordinate t' c' :
  0 <= t' -> 0 <= c' < width ->
  coordinate indices' width t' c'
  = if (t' =? t) && (c' =? c) then v - axis else coordinate indices width t' c'.
Proof.
  intros Ht' Hc'. pose proof negative_position as Hpos.
  assert (HX' : 0 <= t' * width) by nia.
  assert (HX : 0 <= t * width) by nia.
  unfold coordinate at 1.
  rewrite nth_store by (unfold rank in Hpos; lia).
  destruct (Nat.eqb_spec (Z.to_nat (t' * width + c')) (Z.to_nat (t * width + c)))
    as [E | E];
    destruct (Z.eqb_spec t' t) as [Et | Et]; destruct (Z.eqb_spec c' c) as [Ec | Ec];
    cbn [andb]; try reflexivity; exfalso.
  - subst t'. lia.
  - assert (t' * width + c' = t * width + c) by lia. nia.
  - assert (t' * width - t * width = c - c') by lia.
    assert ((t' - t) * width = c - c') by lia. nia.
  - subst. now apply E.
Qed.

Lemma negative_resolve :
  v < axis /\ resolve axis (v - axis) = v /\ resolve axis v = v.
Proof.
  destruct valid as [_ _ _ _ _ Hin _ _]. specialize (Hin t c Ht Hc).
  unfold resolve.
  destruct (Z.ltb_spec (v - axis) 0); destruct (Z.ltb_spec v 0); lia.
Qed.

Lemma negative_resolved_tuple t' :
  0 <= t' ->
  resolved_tuple indices' params_shape indices_shape batch_dims t'
  = resolved_tuple indices params_shape indices_shape batch_dims t'.
Proof.
  intros Ht'. unfold resolved_tuple. apply map_ext_in. intros c' Hc'.
  apply range_In in Hc'. rewrite negative_coordinate by assumption.
  destruct (Z.eqb_spec t' t) as [Et | Et]; destruct (Z.eqb_spec c' c) as [Ec | Ec];
    cbn [andb]; try reflexivity.
  subst. destruct negative_resolve as (_ & -> & ->). reflexivity.
Qed.

Lemma negative_copies :
  copies indices' params_shape indices_shape batch_dims
  = copies indices params_shape indices_shape batch_dims.
Proof.
  pose proof (shape_size_range (k_1_indices indices_shape batch_dims)) as Hn.
  fold n in Hn.
  unfold copies. apply flat_map_ext_in. intros b Hb. apply range_In in Hb.
  apply map_ext_in. intros s Hs. apply range_In in Hs.
  unfold copy_of, source_offset. rewrite negative_resolved_tuple by nia.
  reflexivity.
Qed.

Lemma negative_valid :
  valid_input params indices' out params_shape indices_shape out_shape batch_dims.
Proof.
  pose proof negative_position as Hpos.
  pose proof (shape_size_range (k_1_indices indices_shape batch_dims)) as Hn.
  fold n in Hn.
  pose proof (shape_size_range (firstn (Z.to_nat batch_dims) params_shape)) as Hb.
  fold bs in Hb.
  destruct negative_resolve as (Hlt & _ & _).
  destruct valid as [Hs Hp Hps Hi His Hin Ho Hos].
  assert (Hrank : rank indices' = rank indices)
    by (unfold rank in *; rewrite store_length; lia).
  constructor; try assumption; try (rewrite Hrank; assumption).
  intros t' c' Ht' Hc'. rewrite negative_coordinate by lia.
  destruct (Z.eqb_spec t' t) as [Et | Et]; destruct (Z.eqb_spec c' c) as [Ec | Ec];
    cbn [andb]; try (apply Hin; assumption).
  subst. lia.
Qed.

End NegativeIndex.

(** C5, as the code has it.  On a valid input, which besides invariants 1-3
    has a [batch_dims] below the rank of [indices_shape] (with buffers of
    the sizes the shapes give and components in the range of their axes),
    for a component of a coordinate tuple with a non-negative value [v]
    (below the size of its axis), writing [v - axis_size] in its place in
    the [indices] buffer changes nothing to the call: same outcome, same
    [out], same copies.  A negative component resolves to itself plus the
    size of its axis, a non-negative one to itself; and this is what the
    call does with the buffer that holds the negative component: it
    returns, and the slice it leaves in [out] for the tuple is the one
    [params] holds at the batch base plus the sum, over the components
    [i_c] of the tuple, of [i_c] (of [axis_size + i_c] when [i_c] is
    negative) times the offset of the component. *)
Theorem C5_negative_index {T : Type} (params : list T) (indices : list Z)
    (out : list T) (params_shape indices_shape out_shape : Shape)
    (batch_dims t c : Z)
    (valid : valid_input params indices out params_shape indices_shape out_shape
               batch_dims)
    (Ht : 0 <= t < batch_size params_shape batch_dims
                   * number_of_slices_to_copy_in_one_batch indices_shape batch_dims)
    (Hc : 0 <= c < coordinates_size indices_shape)
    (Hv : 0 <= coordinate indices (coordinates_size indices_shape) t c) :
  coordinate indices (coordinates_size indices_shape) t c
  < axis_size params_shape batch_dims c
  /\ resolve (axis_size params_shape batch_dims c)
       (coordinate indices (coordinates_size indices_shape) t c
        - axis_size params_shape batch_dims c)
     = coordinate indices (coordinates_size indices_shape) t c
  /\ resolve (axis_size params_shape batch_dims c)
       (coordinate indices (coordinates_size indices_shape) t c)
     = coordinate indices (coordinates_size indices_shape) t c
  /\ (forall i_c axis_, i_c < 0 -> resolve axis_ i_c = axis_ + i_c)
  /\ (forall i_c axis_, 0 <= i_c -> resolve axis_ i_c = i_c)
  /\ (forall log0,
       gather_nd params
         (store indices (Z.to_nat (t * coordinates_size indices_shape + c))
            (coordinate indices (coordinates_size indices_shape) t c
             - axis_size params_shape batch_dims c))
         params_shape indices_shape out_shape batch_dims (mk_mem out log0)
       = gather_nd params indices params_shape indices_shape out_shape batch_dims
           (mk_mem out log0))
  /\ let width := coordinates_size indices_shape in
     let n := number_of_slices_to_copy_in_one_batch indices_shape batch_dims in
     let ss := slice_size params_shape indices_shape batch_dims in
     let negative :=
       store indices (Z.to_nat (t * width + c))
         (coordinate indices width t c - axis_size params_shape batch_dims c) in
     let source :=
       t / n * batch_offset params_shape indices_shape batch_dims
       + dot_product
           (map (fun c' =>
                   let i_c := coordinate negative width t c' in
                   if i_c <? 0 then axis_size params_shape batch_dims c' + i_c
                   else i_c)
                (range width))
           (indices_offsets params_shape indices_shape batch_dims) in
     coordinate negative width t c
     = coordinate indices width t c - axis_size params_shape batch_dims c
     /\ coordinate negative width t c < 0
     /\ axis_size params_shape batch_dims c + coordinate negative width t c
        = coordinate indices width t c
     /\ forall log0,
          exists out',
            gather_nd params negative params_shape indices_shape out_shape
              batch_dims (mk_mem out log0)
            = (Returns tt,
               mk_mem out'
                 (log0 ++ copies negative params_shape indices_shape batch_dims))
            /\ nth_error (copies negative params_shape indices_shape batch_dims)
                 (Z.to_nat t)
               = Some (copy_ev source (t * ss) ss)
            /\ slice out' (t * ss) (t * ss + ss)
               = slice params source (source + ss).
Proof.
  pose proof (negative_resolve T params indices out _ _ _ _ t c valid Ht Hc Hv)
    as (H1 & H2 & H3).
  pose proof (negative_valid T params indices out _ _ _ _ t c valid Ht Hc Hv)
    as valid'.
  split; [ exact H1 | ]. split; [ exact H2 | ]. split; [ exact H3 | ].
  split; [ | split; [ | split ] ].
  - intros i_c axis_ Hneg. unfold resolve.
    destruct (Z.ltb_spec i_c 0); [ reflexivity | lia ].
  - intros i_c axis_ Hpos. unfold resolve.
    destruct (Z.ltb_spec i_c 0); [ lia | reflexivity ].
  - intros log0.
    rewrite (gather_nd_valid T _ _ _ _ _ _ _ valid' log0).
    rewrite (gather_nd_valid T _ _ _ _ _ _ _ valid log0).
    rewrite (negative_copies T params indices out _ _ _ _ t c valid Ht Hc Hv).
    reflexivity.
  - intros width n ss negative source. subst width.
    assert (Hstored : coordinate negative (coordinates_size indices_shape) t c
                      = coordinate indices (coordinates_size indices_shape) t c
                        - axis_size params_shape batch_dims c).
    { subst negative.
      rewrite (negative_coordinate T params indices out _ _ _ _ t c valid Ht Hc t c)
        by lia.
      now rewrite !Z.eqb_refl. }
    split; [ exact Hstored | ]. rewrite Hstored.
    split; [ lia | ]. split; [ lia | ].
    intros log0. eexists.
    split; [ exact (gather_nd_valid T _ _ _ _ _ _ _ valid' log0) | ].
    split.
    + apply (valid_tuple_event negative _ _ _ t Ht).
    + apply (valid_tuple_slice T params negative out _ _ _ _ valid' t _ Ht).
Qed.

Lemma C5_negative_index_witness :
  valid_input (iota 24) [1; 0; -1; -2] (repeat 0 16) [2; 3; 4] [2; 2; 1] [2; 2; 4] 1
  /\ gather_nd (iota 24) [1 - 3; 0; -1; -2] [2; 3; 4] [2; 2; 1] [2; 2; 4] 1
       (mk_mem (repeat 0 16) [])
     = gather_nd (iota 24) [1; 0; -1; -2] [2; 3; 4] [2; 2; 1] [2; 2; 4] 1
         (mk_mem (repeat 0 16) [])
  /\ exists out',
       gather_nd (iota 24) [-2; 0; -1; -2] [2; 3; 4] [2; 2; 1] [2; 2; 4] 1
         (mk_mem (repeat 0 16) [])
       = (Returns tt,
          mk_mem out' (copies [-2; 0; -1; -2] [2; 3; 4] [2; 2; 1] 1))
       /\ slice out' 0 4 = slice (iota 24) ((3 + -2) * 4) ((3 + -2) * 4 + 4).
Proof.
  assert (H : valid_input (iota 24) [1; 0; -1; -2] (repeat 0 16)
                [2; 3; 4] [2; 2; 1] [2; 2; 4] 1) by compute_valid_input.
  split; [ exact H | ].
  assert (Ht : 0 <= 0 < batch_size [2; 3; 4] 1
                        * number_of_slices_to_copy_in_one_batch [2; 2; 1] 1)
    by (vm_compute; split; [ discriminate | reflexivity ]).
  assert (Hc : 0 <= 0 < coordinates_size [2; 2; 1])
    by (vm_compute; split; [ discriminate | reflexivity ]).
  assert (Hv : 0 <= coordinate [1; 0; -1; -2] (coordinates_size [2; 2; 1]) 0 0)
    by (vm_compute; discriminate).
  destruct (C5_negative_index _ _ _ _ _ _ _ 0 0 H Ht Hc Hv)
    as (_ & _ & _ & _ & _ & Hsame & _ & _ & _ & Hrun).
  split; [ exact (Hsame []) | ].
  destruct (Hrun []) as (out' & Hreturns & _ & Hslice).
  exists out'. split; [ exact Hreturns | exact Hslice ].
Defined.

(** C5 as the specification words it fails: invariants 1-3 allow a
    [batch_dims] equal to the rank of [indices_shape].  With
    [params_shape = [1,3]], [indices_shape = [1]] and [batch_dims = 1] they
    hold, the buffers have the sizes of the shapes, and the one component,
    0, is in the range of its axis, of size 3.  With 0 and with [0 - 3] in
    its place alike the call has no defined outcome: no output is produced
    and no component is resolved. *)
Lemma C5_counterexample :
  invariant_1 [1; 3] [1] 1
  /\ invariant_2 [1; 3] [1] 1
  /\ invariant_3 [1; 3] [1] 1
  /\ 1 <= rank [1; 3] /\ 1 <= rank [1]
  /\ rank [10; 11; 12] = shape_size [1; 3]
  /\ rank [0] = shape_size [1]
  /\ rank [7] = shape_size [1]
  /\ 0 <= coordinate [0] (coordinates_size [1]) 0 0 < axis_size [1; 3] 1 0
  /\ output (gather_nd [10; 11; 12] [0] [1; 3] [1] [1] 1 (mk_mem [7] [])) = None
  /\ output (gather_nd [10; 11; 12] [0 - 3] [1; 3] [1] [1] 1 (mk_mem [7] [])) = None
  /\ gather_nd [10; 11; 12] [0 - 3] [1; 3] [1] [1] 1 (mk_mem [7] [])
     = (Undefined, mk_mem [7] []).
Proof.
  repeat (split; [ first [ reflexivity | compute_num | compute_invariant_3 ] | ]).
  reflexivity.
Qed.

(** ** The scenario of the specification *)

Lemma nth_error_slice {A : Type} (l : list A) first last i :
  0 <= first -> 0 <= i < last - first ->
  at_ (slice l first last) i = at_ l (first + i).
Proof.
  intros Hf Hi. unfold at_, slice.
  destruct (Z.ltb_spec i 0); [ lia | ]. destruct (Z.ltb_spec (first + i) 0); [ lia | ].
  rewrite nth_error_firstn, nth_error_skipn.
  destruct (Nat.ltb_spec (Z.to_nat i) (Z.to_nat (last - first))); [ | lia ].
  f_equal. lia.
Qed.

(** C7, as the code has it.  With [params_shape = [2,3,4]],
    [indices_shape = [1,2]] (one coordinate tuple, of width 2),
    [batch_dims = 0] and the tuple [[1,2]], [gather_nd] makes one copy, of
    the 4 elements of [params] from position 20 on, which are
    [params[1][2][0..4)]; [out_shape = [1,4]] is the shape of these 4
    elements. *)
Theorem C7_scenario {T : Type} (params out : list T)
    (Hparams : rank params = 24) (Hout : rank out = 4) :
  gather_nd params [1; 2] [2; 3; 4] [1; 2] [1; 4] 0 (mk_mem out [])
  = (Returns tt, mk_mem (slice params 20 24) [copy_ev 20 0 4])
  /\ rank (slice params 20 24) = 4
  /\ (forall k, 0 <= k < 4 ->
        at_ (slice params 20 24) k = at_ params (row_major [2; 3; 4] [1; 2; k]))
  /\ shape_size [1; 4] = region_size [2; 3; 4] [1; 2] 0.
Proof.
  assert (valid : valid_input params [1; 2] out [2; 3; 4] [1; 2] [1; 4] 0).
  { constructor;
      [ compute_valid_shapes | | | compute_num | compute_num
      | apply coordinates_in_rangeb_correct; vm_compute; reflexivity | | ];
      rewrite ?Hparams, ?Hout; compute_num. }
  split; [ | split; [ | split ] ].
  - rewrite (gather_nd_valid T _ _ _ _ _ _ _ valid []).
    replace (copies [1; 2] [2; 3; 4] [1; 2] 0) with [copy_ev 20 0 4]
      by (vm_compute; reflexivity).
    replace (region_size [2; 3; 4] [1; 2] 0) with 4 by (vm_compute; reflexivity).
    rewrite gathered_one, skipn_all2 by (unfold rank in Hout; lia).
    rewrite app_nil_r. reflexivity.
  - rewrite slice_rank by lia. reflexivity.
  - intros k Hk. rewrite nth_error_slice by lia.
    f_equal; unfold row_major; cbn [row_major_from]; lia.
  - reflexivity.
Qed.

Lemma C7_scenario_witness :
  gather_nd (iota 24) [1; 2] [2; 3; 4] [1; 2] [1; 4] 0 (mk_mem (repeat 0 4) [])
  = (Returns tt, mk_mem [20; 21; 22; 23] [copy_ev 20 0 4]).
Proof.
  exact (proj1 (C7_scenario (iota 24) (repeat 0 4) eq_refl eq_refl)).
Defined.

(** C7 as the specification words it fails: with [indices_shape = [2,1]]
    the buffer [[1,2]] is two tuples of width 1, the slices have 12
    elements, and the second tuple indexes the first axis, of size 2, out
    of range: the call has no defined outcome, whether [out] has the 4
    elements of [out_shape] or room for both slices. *)
Lemma C7_counterexample :
  coordinates_size [2; 1] = 1
  /\ number_of_slices_to_copy_in_one_batch [2; 1] 0 = 2
  /\ slice_size [2; 3; 4] [2; 1] 0 = 12
  /\ gather_nd (iota 24) [1; 2] [2; 3; 4] [2; 1] [1; 4] 0 (mk_mem (repeat 0 4) [])
     = (Undefined, mk_mem (repeat 0 4) [])
  /\ gather_nd (iota 24) [1; 2] [2; 3; 4] [2; 1] [1; 4] 0 (mk_mem (repeat 0 24) [])
     = (Undefined,
        mk_mem ([12; 13; 14; 15; 16; 17; 18; 19; 20; 21; 22; 23] ++ repeat 0 12)
               [copy_ev 12 0 12])
  /\ gather_nd (iota 24) [1; 2] [2; 3; 4] [2; 1] [1; 4] 0 (mk_mem (repeat 0 4) [])
     <> (Returns tt, mk_mem [20; 21; 22; 23] [copy_ev 20 0 4]).
Proof.
  repeat (split; [ reflexivity | ]). vm_compute. discriminate.
Qed.

(** ** One call per batch *)

Lemma nth_slice {A : Type} (l : list A) first last i d :
  0 <= first -> 0 <= i < last - first ->
  nth (Z.to_nat i) (slice l first last) d = nth (Z.to_nat (first + i)) l d.
Proof.
  intros Hf Hi. unfold slice. rewrite nth_firstn, nth_skipn.
  destruct (Nat.ltb_spec (Z.to_nat i) (Z.to_nat (last - first))); [ | lia ].
  f_equal. lia.
Qed.

Lemma slice_slice {A : Type} (l : list A) a e x y :
  0 <= a -> 0 <= x <= y -> y <= e - a ->
  slice (slice l a e) x y = slice l (a + x) (a + y).
Proof.
  intros Ha Hx Hy. unfold slice.
  rewrite skipn_firstn_comm, firstn_firstn, skipn_skipn.
  f_equal; [ lia | f_equal; lia ].
Qed.

Section PartsBatch.

Variable T : Type.
Variables (Bs : list Z) (a0 : Z) (As Ss Ks : list Z).
Variables (params : list T) (indices : list Z) (out0 : list T).
Variable b : Z.

Local Abbreviation width := (rank (a0 :: As)).
Local Abbreviation Ps := (Bs ++ (a0 :: As) ++ Ss).
Local Abbreviation Is := (Bs ++ Ks ++ [rank (a0 :: As)]).
Local Abbreviation bd := (rank Bs).
Local Abbreviation Ps' := ([] ++ (a0 :: As) ++ Ss).
Local Abbreviation Is' := ([] ++ Ks ++ [rank (a0 :: As)]).
Local Abbreviation bd' := (rank (@nil Z)).
Local Abbreviation bs := (shape_size Bs).
Local Abbreviation n := (shape_size Ks).
Local Abbreviation ss := (shape_size Ss).
Local Abbreviation bo := (to_size_t (product (a0 :: As) * product Ss)).
Local Abbreviation params_b := (slice params (b * bo) (b * bo + bo)).
Local Abbreviation indices_b :=
  (slice indices (b * n * width) (b * n * width + n * width)).
Local Abbreviation out_b := (slice out0 (b * n * ss) (b * n * ss + n * ss)).

Hypothesis Ps_rank : rank Ps < 2 ^ 63.
Hypothesis Ps_range : Forall size_t_range Ps.
Hypothesis params_rank : rank params = product Ps.
Hypothesis params_size : rank params < size_t_mod.
Hypothesis indices_rank : bs * n * width <= rank indices.
Hypothesis indices_size : rank indices < size_t_mod.
Hypothesis in_range : coordinates_in_range indices Ps Is bd.
Hypothesis out_rank : bs * n * ss <= rank out0.
Hypothesis out_size : rank out0 < size_t_mod.
Hypothesis Hb : 0 <= b < bs.

Lemma batch_exact :
  bo = product Ps' /\ 0 <= bo /\ (b + 1) * bo <= rank params.
Proof.
  pose proof (size_t_range_nonneg _ Ps_range) as Hnn.
  apply Forall_app in Hnn. destruct Hnn as [HnB Hnn].
  assert (HB : 1 <= product Bs).
  { apply product_pos, product_nonzero; [ exact HnB | ].
    apply to_size_t_nonzero. rewrite <- shape_size_product. lia. }
  pose proof (product_nonneg _ Hnn) as HAS.
  assert (Hbs : bs <= product Bs)
    by (rewrite shape_size_product; apply to_size_t_le; lia).
  assert (HP : product Ps = product Bs * product ((a0 :: As) ++ Ss))
    by apply product_app.
  rewrite <- product_app.
  change ([] ++ (a0 :: As) ++ Ss) with ((a0 :: As) ++ Ss).
  remember (product ((a0 :: As) ++ Ss)) as pAS.
  assert (Hle : pAS <= rank params) by (rewrite params_rank, HP; nia).
  rewrite to_size_t_small by lia.
  repeat split; [ lia | ]. rewrite params_rank, HP. nia.
Qed.

Lemma batch_params_rank : rank params_b = product Ps'.
Proof.
  destruct batch_exact as (E & H0 & H1). rewrite <- E.
  rewrite slice_rank by nia. ring.
Qed.

Lemma batch_indices_rank : rank indices_b = n * width.
Proof.
  pose proof (shape_size_range Ks). pose proof (parts_width_pos a0 As).
  rewrite slice_rank by nia. ring.
Qed.

Lemma batch_out_rank : rank out_b = n * ss.
Proof.
  pose proof (shape_size_range Ks). pose proof (shape_size_range Ss).
  rewrite slice_rank by nia. ring.
Qed.

Lemma batch_coordinate s c :
  0 <= s < n -> 0 <= c < width ->
  coordinate indices_b width s c = coordinate indices width (b * n + s) c.
Proof.
  intros Hs Hc. unfold coordinate.
  assert (H0 : 0 <= b * n) by nia.
  assert (H1 : 0 <= b * n * width) by nia.
  assert (H2 : 0 <= s * width) by nia.
  assert (H3 : (s + 1) * width <= n * width) by nia.
  rewrite nth_slice by lia. f_equal. f_equal. ring.
Qed.

Lemma batch_axis c :
  0 <= c < width -> axis_size Ps' bd' c = axis_size Ps bd c.
Proof.
  intros Hc. rewrite (parts_axis_size Bs) by exact Hc.
  apply (parts_axis_size [] a0 As Ss c Hc).
Qed.

Lemma batch_in_range : coordinates_in_range indices_b Ps' Is' bd'.
Proof.
  intros t c Ht Hc.
  rewrite (parts_coordinates_size [] a0 As Ks) in *.
  rewrite (parts_number_of_slices [] a0 As Ks) in Ht.
  change (batch_size Ps' bd') with 1 in Ht.
  rewrite batch_coordinate, batch_axis by lia.
  pose proof (in_range (b * n + t) c) as H.
  rewrite parts_batch_size, parts_number_of_slices, parts_coordinates_size in H.
  apply H; [ nia | exact Hc ].
Qed.

Lemma batch_tuple s :
  0 <= s < n ->
  resolved_tuple indices_b Ps' Is' bd' s
  = resolved_tuple indices Ps Is bd (b * n + s).
Proof.
  intros Hs. unfold resolved_tuple.
  rewrite (parts_coordinates_size [] a0 As Ks), parts_coordinates_size.
  apply map_ext_in. intros c Hc. apply range_In in Hc.
  now rewrite batch_coordinate, batch_axis.
Qed.

(** The call for batch [b] returns the slices of batch [b]. *)
Lemma batch_run out_shape' :
  gather_nd params_b indices_b Ps' Is' out_shape' bd' (mk_mem out_b [])
  = (Returns tt,
     mk_mem (gathered params (map (copy_of indices Ps Is bd b) (range n)))
            (copies indices_b Ps' Is' bd')).
Proof.
  pose proof (shape_size_range Ks) as Hn.
  pose proof (shape_size_range Ss) as Hss.
  pose proof (parts_width_pos a0 As) as Hw.
  pose proof (parts_rank Bs a0 As Ss) as Hrank.
  pose proof (rank_nonneg Bs) as HBs.
  pose proof batch_params_rank as Hp. pose proof batch_indices_rank as Hi.
  pose proof batch_out_rank as Ho.
  destruct batch_exact as (Ebo & Hbo0 & Hbo1).
  assert (Ps'_rank : rank Ps' < 2 ^ 63).
  { rewrite (parts_rank [] a0 As Ss). change (rank []) with 0. lia. }
  assert (Ps'_range : Forall size_t_range Ps').
  { apply Forall_app in Ps_range. apply Ps_range. }
  assert (Hone : shape_size [] = 1) by reflexivity.
  pose proof (to_size_t_range (product (a0 :: As) * product Ss)) as Hbo.
  assert (Hnw : 0 <= n * width <= rank indices) by nia.
  assert (Hns : 0 <= n * ss <= rank out0) by nia.
  rewrite (parts_gather_nd T [] a0 As Ss Ks Ps'_rank)
    by (intros H; now exfalso; apply H).
  rewrite (parts_batch_size [] a0 As Ss), (parts_number_of_slices [] a0 As Ks),
    (parts_slice_size [] a0 As Ss Ks), (parts_coordinates_size [] a0 As Ks),
    (parts_indices_offsets [] a0 As Ss Ks), (parts_batch_offset [] a0 As Ss Ks)
    by exact Ps'_rank.
  destruct (parts_copy_engine T [] a0 As Ss Ks params_b indices_b
              Ps'_rank Ps'_range Hp ltac:(lia) ltac:(rewrite Hone; lia)
              ltac:(lia) batch_in_range out_b []
              ltac:(rewrite Hone; lia) ltac:(lia)) as [Hrun _].
  rewrite Hrun. f_equal. f_equal.
  rewrite Hone, skipn_all2 by (unfold rank in Ho; lia).
  rewrite app_nil_r.
  unfold copies.
  rewrite (parts_batch_size [] a0 As Ss), (parts_number_of_slices [] a0 As Ks).
  rewrite Hone. change (range 1) with [0]. cbn [flat_map]. rewrite app_nil_r.
  unfold gathered. rewrite !flat_map_of_map.
  apply flat_map_ext_in. intros s Hs. apply range_In in Hs.
  cbn [src len copy_of]. unfold source_offset.
  rewrite (parts_batch_offset [] a0 As Ss Ks), (parts_number_of_slices [] a0 As Ks),
    (parts_indices_offsets [] a0 As Ss Ks), (parts_slice_size [] a0 As Ss Ks),
    parts_batch_offset, parts_number_of_slices, parts_indices_offsets,
    parts_slice_size by assumption.
  pose proof (parts_source_bound T [] a0 As Ss Ks params_b indices_b
                Ps'_range Hp ltac:(lia) batch_in_range 0 s
                ltac:(rewrite Hone; lia) Hs) as [Hlo Hhi].
  replace (0 * n + s) with s in * by ring.
  rewrite batch_tuple in * by exact Hs.
  rewrite Z.mul_0_l, Z.add_0_l in *.
  rewrite slice_slice by (rewrite Hp, <- Ebo in Hhi; nia).
  f_equal; ring.
Qed.

End PartsBatch.

Lemma Forall2_map_right {A B : Type} (R : A -> B -> Prop) (f : A -> B) l :
  (forall a, In a l -> R a (f a)) -> Forall2 R l (map f l).
Proof.
  induction l as [| a l IH]; intros H; cbn [map]; constructor.
  - apply H. now left.
  - apply IH. intros a' Ha'. apply H. now right.
Qed.

(** C8, as the code has it.  On a valid input with [batch_dims > 0], which
    besides invariants 1-3 has coordinate tuples of width 1 or more and a
    [batch_dims] below the rank of [indices_shape] (with buffers of the
    sizes the shapes give and components in the range of their axes), the
    call for each batch
    alone ([batch_dims = 0], shapes without the batch prefix, the parts of
    the buffers that belong to the batch) returns, and the outputs of these
    calls, concatenated in the order of the batches, are what the single
    call leaves in [out] (followed by what [out] held beyond the region,
    when it is larger). *)
Theorem C8_batch_independence {T : Type} (params : list T) (indices : list Z)
    (out : list T) (params_shape indices_shape out_shape : Shape) (batch_dims : Z)
    (valid : valid_input params indices out params_shape indices_shape out_shape
               batch_dims)
    (Hbatch : 0 < batch_dims) :
  exists outs,
    Forall2
      (fun b out_b =>
         batch_call params indices out params_shape indices_shape out_shape
           batch_dims b = Some out_b)
      (range (batch_size params_shape batch_dims)) outs
    /\ output (gather_nd params indices params_shape indices_shape out_shape
                 batch_dims (mk_mem out []))
       = Some (concat outs
               ++ skipn (Z.to_nat (region_size params_shape indices_shape batch_dims))
                    out)
    /\ (rank out = region_size params_shape indices_shape batch_dims ->
        output (gather_nd params indices params_shape indices_shape out_shape
                  batch_dims (mk_mem out []))
        = Some (concat outs)).
Proof.
  exists (map (fun b =>
                 gathered params
                   (map (copy_of indices params_shape indices_shape batch_dims b)
                      (range (number_of_slices_to_copy_in_one_batch
                                indices_shape batch_dims))))
              (range (batch_size params_shape batch_dims))).
  assert (Hcombined :
            output (gather_nd params indices params_shape indices_shape out_shape
                      batch_dims (mk_mem out []))
            = Some (concat
                      (map (fun b =>
                              gathered params
                                (map (copy_of indices params_shape indices_shape
                                        batch_dims b)
                                   (range (number_of_slices_to_copy_in_one_batch
                                             indices_shape batch_dims))))
                         (range (batch_size params_shape batch_dims)))
                    ++ skipn (Z.to_nat (region_size params_shape indices_shape
                                          batch_dims)) out)).
  { rewrite (gather_nd_valid T _ _ _ _ _ _ _ valid []). cbn [output out_buf].
    f_equal. f_equal. unfold copies, gathered at 1.
    rewrite flat_map_flat_map. apply flat_map_concat_map. }
  split; [ | split; [ exact Hcombined | ] ].
  - apply Forall2_map_right. intros b Hb. apply range_In in Hb.
    destruct valid as [Hs Hp Hps Hi His Hc Ho Hos].
    destruct (shapes_split _ _ _ _ Hs) as (Bs & a0 & As & Ss & Ks & EP & EI & Ebd).
    destruct Hs as [HP HI Hrank Hbd Hw H1 H2 H3]. subst.
    unfold batch_call, region_size in *.
    rewrite parts_batch_size, parts_number_of_slices, parts_slice_size,
      parts_coordinates_size, parts_batch_offset in * by assumption.
    rewrite !skipn_app_exact by (unfold rank; lia).
    pose proof (batch_run T Bs a0 As Ss Ks params indices out b Hrank HP Hp Hps
                  Hi His Hc Ho Hos Hb (skipn 1 out_shape)) as Hrun.
    change (rank []) with 0 in Hrun. cbn [app] in Hrun. cbn [app].
    rewrite Hrun. reflexivity.
  - intros Hexact. rewrite Hcombined, skipn_all2 by (unfold rank in Hexact; lia).
    now rewrite app_nil_r.
Qed.

Lemma C8_batch_independence_witness :
  valid_input (iota 24) [1; 0; -1; -2] (repeat 0 16) [2; 3; 4] [2; 2; 1] [2; 2; 4] 1
  /\ exists outs,
       Forall2
         (fun b out_b =>
            batch_call (iota 24) [1; 0; -1; -2] (repeat 0 16) [2; 3; 4] [2; 2; 1]
              [2; 2; 4] 1 b = Some out_b)
         (range (batch_size [2; 3; 4] 1)) outs
       /\ output (gather_nd (iota 24) [1; 0; -1; -2] [2; 3; 4] [2; 2; 1] [2; 2; 4] 1
                    (mk_mem (repeat 0 16) []))
          = Some (concat outs).
Proof.
  assert (H : valid_input (iota 24) [1; 0; -1; -2] (repeat 0 16)
                [2; 3; 4] [2; 2; 1] [2; 2; 4] 1) by compute_valid_input.
  split; [ exact H | ].
  destruct (C8_batch_independence _ _ _ _ _ _ _ H eq_refl) as (outs & H1 & _ & H3).
  exists outs. split; [ exact H1 | ]. apply H3. reflexivity.
Defined.

(** C8 as the specification words it fails: invariants 1-3 allow a
    [batch_dims] equal to the rank of [indices_shape], and coordinate
    tuples of width 0.  With [params_shape = [3,1,2]],
    [indices_shape = [3,1]] and [batch_dims = 2], and with
    [params_shape = [2,3]], [indices_shape = [2,0]] and [batch_dims = 1],
    they hold and the buffers have the sizes of the shapes; the single call
    has no defined outcome, so there is no output for the outputs of the
    calls per batch to equal, and these have none either. *)
Lemma C8_counterexample :
  (invariant_1 [3; 1; 2] [3; 1] 2
   /\ invariant_2 [3; 1; 2] [3; 1] 2
   /\ invariant_3 [3; 1; 2] [3] 2
   /\ 0 < 2 <= rank [3; 1; 2] /\ 2 <= rank [3; 1]
   /\ rank (iota 6) = shape_size [3; 1; 2]
   /\ rank [0; 1; 0] = shape_size [3; 1]
   /\ rank (repeat 0 3) = shape_size [3]
   /\ batch_size [3; 1; 2] 2 = 3
   /\ coordinates_in_range [0; 1; 0] [3; 1; 2] [3; 1] 2
   /\ gather_nd (iota 6) [0; 1; 0] [3; 1; 2] [3; 1] [3] 2 (mk_mem (repeat 0 3) [])
      = (Undefined, mk_mem (repeat 0 3) [])
   /\ output (gather_nd (iota 6) [0; 1; 0] [3; 1; 2] [3; 1] [3] 2
                (mk_mem (repeat 0 3) []))
      = None
   /\ batch_call (iota 6) [0; 1; 0] (repeat 0 3) [3; 1; 2] [3; 1] [3] 2 0 = None)
  /\ (invariant_1 [2; 3] [2; 0] 1
      /\ invariant_2 [2; 3] [2; 0] 1
      /\ invariant_3 [2; 3] [2; 3] 1
      /\ 0 < 1 <= rank [2; 3] /\ 1 <= rank [2; 0]
      /\ rank (iota 6) = shape_size [2; 3]
      /\ rank (@nil Z) = shape_size [2; 0]
      /\ rank (repeat 0 6) = shape_size [2; 3]
      /\ batch_size [2; 3] 1 = 2
      /\ gather_nd (iota 6) [] [2; 3] [2; 0] [2; 3] 1 (mk_mem (repeat 0 6) [])
         = (Undefined, mk_mem (repeat 0 6) [])
      /\ output (gather_nd (iota 6) [] [2; 3] [2; 0] [2; 3] 1
                   (mk_mem (repeat 0 6) []))
         = None
      /\ batch_call (iota 6) [] (repeat 0 6) [2; 3] [2; 0] [2; 3] 1 0 = None).
Proof.
  split.
  - repeat (split; [ first [ reflexivity | compute_num | compute_invariant_3
                           | apply coordinates_in_rangeb_correct; reflexivity ] | ]).
    reflexivity.
  - repeat (split; [ first [ reflexivity | compute_num | compute_invariant_3 ] | ]).
    reflexivity.
Qed.

(** * Further properties of the code *)

(** ** [Span] *)

(** Inside a valid span, [operator[]] reads the elements a range-based
    [for] visits, in the same order, and [size()] is their number. *)
Theorem Span_at_elems (s : Span) (elems : list Z) (idx : Z)
    (Hvalid : Span_elems s = Some elems)
    (Hidx : 0 <= idx < Span_size s) :
  rank elems = Span_size s
  /\ Span_at s idx = nth_error elems (Z.to_nat idx)
  /\ exists x, Span_at s idx = Some x.
Proof.
  unfold Span_elems in Hvalid.
  destruct (Z.leb_spec 0 (m_begin s)) as [Hb | ]; [ | discriminate ].
  destruct (Z.leb_spec (m_begin s) (m_end s)) as [Hbe | ]; [ | discriminate ].
  destruct (Z.leb_spec (m_end s) (rank (span_of s))) as [He | ]; [ | discriminate ].
  cbn [andb] in Hvalid. inversion Hvalid as [Helems]. clear Hvalid.
  unfold Span_size in *.
  assert (Hread : Span_at s idx
                  = nth_error (firstn (Z.to_nat (m_end s - m_begin s))
                                 (skipn (Z.to_nat (m_begin s)) (span_of s)))
                      (Z.to_nat idx)).
  { unfold Span_at, at_.
    destruct (Z.ltb_spec (m_begin s + idx) 0); [ lia | ].
    rewrite nth_error_firstn, nth_error_skipn.
    destruct (Nat.ltb_spec (Z.to_nat idx) (Z.to_nat (m_end s - m_begin s)));
      [ | lia ].
    f_equal. lia. }
  split; [ | split ].
  - unfold rank in *. rewrite length_firstn, length_skipn. lia.
  - exact Hread.
  - rewrite Hread.
    destruct (nth_error _ (Z.to_nat idx)) as [x |] eqn:E; [ now exists x | ].
    apply nth_error_None in E. rewrite length_firstn, length_skipn in E.
    unfold rank in *. lia.
Qed.

Lemma Span_at_elems_witness :
  Span_elems (span [2; 3; 4; 5] 1 3) = Some [3; 4]
  /\ Span_at (span [2; 3; 4; 5] 1 3) 1 = nth_error [3; 4] 1.
Proof.
  split; [ reflexivity | ].
  assert (Hidx : 0 <= 1 < Span_size (span [2; 3; 4; 5] 1 3))
    by (vm_compute; split; [ discriminate | reflexivity ]).
  exact (proj1 (proj2 (Span_at_elems (span [2; 3; 4; 5] 1 3) [3; 4] 1
                         eq_refl Hidx))).
Defined.

(** ** What the checks read, and in which order *)

(** Of [out_shape], [gather_nd] reads the leading dimension only: two
    shapes with the same [front()] give the same outcome. *)
Theorem gather_nd_reads_out_shape_front {T : Type} (params : list T)
    (indices : list Z) (params_shape indices_shape out_shape out_shape' : Shape)
    (batch_dims : Z) (m : mem T)
    (Hfront : front out_shape = front out_shape') :
  gather_nd params indices params_shape indices_shape out_shape batch_dims m
  = gather_nd params indices params_shape indices_shape out_shape' batch_dims m.
Proof. unfold gather_nd. rewrite Hfront. reflexivity. Qed.

Lemma gather_nd_reads_out_shape_front_witness :
  gather_nd (iota 24) [1; 0; -1; -2] [2; 3; 4] [2; 2; 1] [2; 2; 4] 1
    (mk_mem (repeat 0 16) [])
  = gather_nd (iota 24) [1; 0; -1; -2] [2; 3; 4] [2; 2; 1] [2; 9] 1
      (mk_mem (repeat 0 16) []).
Proof.
  exact (gather_nd_reads_out_shape_front (iota 24) [1; 0; -1; -2] [2; 3; 4]
           [2; 2; 1] [2; 2; 4] [2; 9] 1 (mk_mem (repeat 0 16) []) eq_refl).
Defined.

(** With a non-zero [batch_dims], a leading dimension of [out_shape] other
    than the batch size is the first thing reported: the error is thrown
    before [indices_shape], [params] or [indices] are looked at, whatever
    they are. *)
Theorem gather_nd_out_shape_checked_first {T : Type} (params : list T)
    (indices : list Z) (params_shape indices_shape out_shape : Shape)
    (batch_dims d : Z) (m : mem T)
    (Hbatch : 0 < batch_dims <= rank params_shape)
    (Hfront : front out_shape = Some d)
    (Hd : d <> batch_size params_shape batch_dims) :
  gather_nd params indices params_shape indices_shape out_shape batch_dims m
  = (Throws out_shape_first_dim, m).
Proof.
  unfold gather_nd.
  rewrite (bind_defined T _ _ _ _
             (prefix_firstn params_shape batch_dims ltac:(lia))).
  destruct (Z.eqb_spec batch_dims 0) as [E | _]; [ lia | ].
  rewrite (bind_defined T _ _ _ _ Hfront). cbn [negb andb].
  fold (batch_size params_shape batch_dims).
  destruct (Z.eqb_spec (batch_size params_shape batch_dims) d) as [E | _];
    [ now exfalso; apply Hd | reflexivity ].
Qed.

Lemma gather_nd_out_shape_checked_first_witness :
  gather_nd (@nil Z) [] [2; 3; 4] [] [3; 2; 4] 1 (mk_mem (repeat 7 8) [])
  = (Throws out_shape_first_dim, mk_mem (repeat 7 8) []).
Proof.
  apply (gather_nd_out_shape_checked_first (@nil Z) [] [2; 3; 4] [] [3; 2; 4] 1 3).
  - vm_compute. split; [ reflexivity | discriminate ].
  - reflexivity.
  - vm_compute. discriminate.
Defined.

(** ** The strides in closed form *)

Lemma parts_suffix (Bs : list Z) a0 (As Ss : list Z) c :
  (c <= length As)%nat ->
  skipn (Z.to_nat (rank Bs + Z.of_nat c + 1)) (Bs ++ (a0 :: As) ++ Ss)
  = skipn c As ++ Ss.
Proof.
  intros Hc.
  replace (Z.to_nat (rank Bs + Z.of_nat c + 1))
    with (length (Bs ++ [a0]) + c)%nat
    by (rewrite length_app; unfold rank; simpl; lia).
  replace (Bs ++ (a0 :: As) ++ Ss) with ((Bs ++ [a0]) ++ As ++ Ss)
    by (rewrite <- app_assoc; reflexivity).
  rewrite Nat.add_comm, <- skipn_skipn, skipn_app_exact by reflexivity.
  rewrite skipn_app. replace (c - length As)%nat with 0%nat by lia.
  reflexivity.
Qed.

(** On valid shapes, entry [c] of the offset table is the number of
    elements of [params] under one index of axis [batch_dims + c]: the
    [shape_size] of the axes after it. *)
Theorem indices_offsets_closed_form (params_shape indices_shape out_shape : Shape)
    (batch_dims c : Z)
    (valid : valid_shapes params_shape indices_shape out_shape batch_dims)
    (Hc : 0 <= c < coordinates_size indices_shape) :
  nth (Z.to_nat c) (indices_offsets params_shape indices_shape batch_dims) 0
  = shape_size (skipn (Z.to_nat (batch_dims + c + 1)) params_shape).
Proof.
  destruct (shapes_split _ _ _ _ valid) as (Bs & a0 & As & Ss & Ks & EP & EI & Ebd).
  destruct valid as [HP HI Hrank Hbd Hw H1 H2 H3]. subst.
  rewrite parts_coordinates_size in Hc. rewrite rank_cons in Hc.
  rewrite parts_indices_offsets by assumption.
  rewrite <- (Z2Nat.id c) at 2 by lia.
  rewrite parts_suffix by (unfold rank in Hc; lia).
  rewrite !shape_size_product, strides_nth by (unfold rank in Hc; lia).
  now rewrite product_app.
Qed.

Lemma indices_offsets_closed_form_witness :
  valid_shapes [2; 3; 4; 5] [7; 3] [] 0
  /\ nth 1 (indices_offsets [2; 3; 4; 5] [7; 3] 0) 0 = shape_size [4; 5].
Proof.
  assert (H : valid_shapes [2; 3; 4; 5] [7; 3] [] 0) by compute_valid_shapes.
  split; [ exact H | ].
  assert (Hc : 0 <= 1 < coordinates_size [7; 3])
    by (vm_compute; split; [ discriminate | reflexivity ]).
  exact (indices_offsets_closed_form _ _ _ _ 1 H Hc).
Defined.

(** On valid shapes, [batch_offset] is the number of elements of one batch
    of [params], and [batch_size] batches make up the whole of [params]
    (in [size_t] arithmetic). *)
Theorem batch_offset_closed_form (params_shape indices_shape out_shape : Shape)
    (batch_dims : Z)
    (valid : valid_shapes params_shape indices_shape out_shape batch_dims) :
  batch_offset params_shape indices_shape batch_dims
  = shape_size (skipn (Z.to_nat batch_dims) params_shape)
  /\ to_size_t (batch_size params_shape batch_dims
                * batch_offset params_shape indices_shape batch_dims)
     = shape_size params_shape.
Proof.
  destruct (shapes_split _ _ _ _ valid) as (Bs & a0 & As & Ss & Ks & EP & EI & Ebd).
  destruct valid as [HP HI Hrank Hbd Hw H1 H2 H3]. subst.
  rewrite parts_batch_offset, parts_batch_size by assumption.
  rewrite skipn_app_exact by (unfold rank; lia).
  rewrite !shape_size_product, !product_app.
  split; [ reflexivity | ].
  now rewrite to_size_t_mul_l, to_size_t_mul_r.
Qed.

Lemma batch_offset_closed_form_witness :
  valid_shapes [2; 3; 4] [2; 2; 1] [2; 2; 4] 1
  /\ batch_offset [2; 3; 4] [2; 2; 1] 1 = shape_size [3; 4].
Proof.
  assert (H : valid_shapes [2; 3; 4] [2; 2; 1] [2; 2; 4] 1)
    by compute_valid_shapes.
  split; [ exact H | ].
  exact (proj1 (batch_offset_closed_form _ _ _ _ H)).
Defined.

(** ** Nothing to copy *)

Lemma for_loop_skip {T : Type} (body : Z -> M T unit) :
  (forall j m, body j m = (Returns tt, m)) ->
  forall count i m, for_loop count i body m = (Returns tt, m).
Proof.
  intros Hbody. induction count as [| count IH]; intros i m; [ reflexivity | ].
  cbn [for_loop]. unfold bind. rewrite Hbody. apply IH.
Qed.

(** On valid shapes with no coordinate tuple at all (a batch axis or an
    axis of [k_1_indices] of size 0), [gather_nd] returns without a copy
    and leaves the state as it was, whatever the three buffers are. *)
Theorem gather_nd_nothing_to_copy {T : Type} (params : list T) (indices : list Z)
    (params_shape indices_shape out_shape : Shape) (batch_dims : Z) (m : mem T)
    (valid : valid_shapes params_shape indices_shape out_shape batch_dims)
    (Hnone : batch_size params_shape batch_dims
             * number_of_slices_to_copy_in_one_batch indices_shape batch_dims = 0) :
  gather_nd params indices params_shape indices_shape out_shape batch_dims m
  = (Returns tt, m).
Proof.
  rewrite (gather_nd_valid_shapes _ _ _ _ valid).
  unfold copy_engine, for_.
  apply Z.mul_eq_0 in Hnone. destruct Hnone as [E | E]; rewrite E.
  - reflexivity.
  - apply for_loop_skip. intros j m'. reflexivity.
Qed.

Lemma gather_nd_nothing_to_copy_witness :
  gather_nd (@nil Z) [] [2; 3; 4] [2; 0; 1] [2; 0; 4] 1 (mk_mem [] [])
  = (Returns tt, mk_mem [] []).
Proof.
  apply gather_nd_nothing_to_copy.
  - compute_valid_shapes.
  - reflexivity.
Defined.

(** ** Where the copies read and write *)

Lemma parts_dot_bound {T : Type} (Bs : list Z) a0 (As Ss Ks : list Z)
    (params : list T) (indices : list Z) b s :
  Forall size_t_range (Bs ++ (a0 :: As) ++ Ss) ->
  rank params = product (Bs ++ (a0 :: As) ++ Ss) ->
  rank params < size_t_mod ->
  coordinates_in_range indices (Bs ++ (a0 :: As) ++ Ss)
    (Bs ++ Ks ++ [rank (a0 :: As)]) (rank Bs) ->
  0 <= b < shape_size Bs -> 0 <= s < shape_size Ks ->
  0 <= dot_product
         (resolved_tuple indices (Bs ++ (a0 :: As) ++ Ss)
            (Bs ++ Ks ++ [rank (a0 :: As)]) (rank Bs) (b * shape_size Ks + s))
         (strides As (shape_size Ss))
  /\ dot_product
       (resolved_tuple indices (Bs ++ (a0 :: As) ++ Ss)
          (Bs ++ Ks ++ [rank (a0 :: As)]) (rank Bs) (b * shape_size Ks + s))
       (strides As (shape_size Ss))
     + shape_size Ss
     <= to_size_t (product (a0 :: As) * product Ss)
  /\ 0 <= to_size_t (product (a0 :: As) * product Ss)
  /\ (b + 1) * to_size_t (product (a0 :: As) * product Ss) <= rank params.
Proof.
  intros HP Hp Hps Hin Hb Hs.
  destruct (parts_exact T Bs a0 As Ss Ks params indices HP Hp Hps Hin b s Hb Hs)
    as (Ess & Ebo & HS & Hfit & Hroom).
  assert (Ht : 0 <= b * shape_size Ks + s < shape_size Bs * shape_size Ks) by nia.
  pose proof (parts_tuple_in_range Bs a0 As Ss Ks indices Hin _ Ht) as Hr.
  destruct (resolved_tuple _ _ _ _ _) as [| r0 r]; [ inversion Hr | ].
  destruct (dot_strides_bound (product Ss) As a0 r0 r Hr HS Hfit) as [Hlo Hhi].
  rewrite <- shape_size_product in Hlo, Hhi.
  remember (dot_product (r0 :: r) (strides As (shape_size Ss))) as D.
  rewrite Ebo, Ess.
  change (product (a0 :: As)) with (a0 * product As) in *.
  remember (a0 * product As * product Ss) as X.
  repeat split; lia.
Qed.

(** On a valid input every copy of batch [b] reads its [slice_size]
    elements inside the block of batch [b] of [params] (no read crosses
    into another batch, none leaves [params]) and writes them inside the
    region of [out], which [out] has room for. *)
Theorem gather_nd_copies_in_bounds {T : Type} (params : list T) (indices : list Z)
    (out : list T) (params_shape indices_shape out_shape : Shape) (batch_dims : Z)
    (valid : valid_input params indices out params_shape indices_shape out_shape
               batch_dims) :
  (exists out',
     gather_nd params indices params_shape indices_shape out_shape batch_dims
       (mk_mem out [])
     = (Returns tt,
        mk_mem out' (copies indices params_shape indices_shape batch_dims)))
  /\ region_size params_shape indices_shape batch_dims <= rank out
  /\ forall b s,
       0 <= b < batch_size params_shape batch_dims ->
       0 <= s < number_of_slices_to_copy_in_one_batch indices_shape batch_dims ->
       b * batch_offset params_shape indices_shape batch_dims
       <= src (copy_of indices params_shape indices_shape batch_dims b s)
       /\ src (copy_of indices params_shape indices_shape batch_dims b s)
          + len (copy_of indices params_shape indices_shape batch_dims b s)
          <= (b + 1) * batch_offset params_shape indices_shape batch_dims
       /\ (b + 1) * batch_offset params_shape indices_shape batch_dims
          <= rank params
       /\ 0 <= dst (copy_of indices params_shape indices_shape batch_dims b s)
       /\ dst (copy_of indices params_shape indices_shape batch_dims b s)
          + len (copy_of indices params_shape indices_shape batch_dims b s)
          <= region_size params_shape indices_shape batch_dims.
Proof.
  split; [ eexists; exact (gather_nd_valid T _ _ _ _ _ _ _ valid []) | ].
  split; [ apply valid | ].
  intros b s Hb Hs. cbn [src dst len copy_of].
  pose proof (shape_size_range
                (slice_shape params_shape indices_shape batch_dims)) as Hss.
  fold (slice_size params_shape indices_shape batch_dims) in Hss.
  assert (Hdst : 0 <= destination_offset params_shape indices_shape batch_dims b s
                 /\ destination_offset params_shape indices_shape batch_dims b s
                    + slice_size params_shape indices_shape batch_dims
                    <= region_size params_shape indices_shape batch_dims).
  { unfold destination_offset, region_size.
    set (ss := slice_size params_shape indices_shape batch_dims) in *.
    set (n := number_of_slices_to_copy_in_one_batch indices_shape batch_dims) in *.
    set (bs := batch_size params_shape batch_dims) in *.
    assert (H0 : 0 <= b * n + s) by nia.
    assert (H1 : b * n + s + 1 <= bs * n) by nia.
    replace (b * n * ss + s * ss) with ((b * n + s) * ss) by ring.
    split; [ apply Z.mul_nonneg_nonneg; lia | ].
    replace ((b * n + s) * ss + ss) with ((b * n + s + 1) * ss) by ring.
    apply Z.mul_le_mono_nonneg_r; lia. }
  destruct valid as [Hv Hp Hps Hi His Hc Ho Hos].
  destruct (shapes_split _ _ _ _ Hv) as (Bs & a0 & As & Ss & Ks & EP & EI & Ebd).
  destruct Hv as [HP HI Hrank Hbd Hw H1 H2 H3]. subst.
  unfold source_offset.
  rewrite parts_batch_size, parts_number_of_slices, parts_slice_size,
    parts_indices_offsets, parts_batch_offset in * by assumption.
  destruct (parts_dot_bound Bs a0 As Ss Ks params indices b s HP Hp Hps Hc Hb Hs)
    as (D0 & D1 & B0 & B1).
  repeat split; try apply Hdst; lia.
Qed.

Lemma gather_nd_copies_in_bounds_witness :
  valid_input (iota 24) [1; 0; -1; -2] (repeat 0 16) [2; 3; 4] [2; 2; 1] [2; 2; 4] 1
  /\ 1 * batch_offset [2; 3; 4] [2; 2; 1] 1
     <= src (copy_of [1; 0; -1; -2] [2; 3; 4] [2; 2; 1] 1 1 0).
Proof.
  assert (H : valid_input (iota 24) [1; 0; -1; -2] (repeat 0 16)
                [2; 3; 4] [2; 2; 1] [2; 2; 4] 1) by compute_valid_input.
  split; [ exact H | ].
  assert (Hb : 0 <= 1 < batch_size [2; 3; 4] 1)
    by (vm_compute; split; [ discriminate | reflexivity ]).
  assert (Hs : 0 <= 0 < number_of_slices_to_copy_in_one_batch [2; 2; 1] 1)
    by (vm_compute; split; [ discriminate | reflexivity ]).
  exact (proj1 (proj2 (proj2 (gather_nd_copies_in_bounds _ _ _ _ _ _ _ H))
                  1 0 Hb Hs)).
Defined.

(** ** When [gather_nd] returns *)

Lemma bind_defined_returns {T A B : Type} (o : option A) (k : A -> M T B) m b m' :
  bind (defined o) k m = (Returns b, m') ->
  exists a, o = Some a /\ k a m = (Returns b, m').
Proof.
  unfold bind, defined. destruct o as [a |]; [ | discriminate ].
  intros H. exists a. split; [ reflexivity | exact H ].
Qed.

Lemma bind_front_returns {T B : Type} batch_dims (out_shape : Shape)
    (k : Z -> M T B) m b m' :
  bind (if batch_dims =? 0 then ret 0 else defined (front out_shape)) k m
  = (Returns b, m') ->
  exists d, (batch_dims <> 0 -> front out_shape = Some d)
            /\ k d m = (Returns b, m').
Proof.
  destruct (Z.eqb_spec batch_dims 0) as [E0 | E0]; intros H.
  - exists 0. split; [ contradiction | exact H ].
  - apply bind_defined_returns in H. destruct H as (d & Ed & H).
    exists d. split; [ intros _; exact Ed | exact H ].
Qed.

Lemma offsets_loop_length : forall i s next_e offsets result,
  offsets_loop i s next_e offsets = Some result ->
  length result = length offsets.
Proof.
  induction i as [| i IH]; intros s next_e offsets result H.
  - inversion H. reflexivity.
  - cbn [offsets_loop] in H.
    destruct (at_ s next_e) as [e |]; [ | discriminate ].
    destruct (nth_error offsets (S i)) as [o |] eqn:E; [ | discriminate ].
    apply IH in H. rewrite H. apply store_length.
    assert (Hlt : (S i < length offsets)%nat)
      by (apply nth_error_Some; congruence).
    lia.
Qed.

Lemma get_indices_offsets_rank s beg end_ last offsets :
  get_indices_offsets s beg end_ last = Some offsets ->
  0 <= end_ - beg + 1 /\ rank offsets = end_ - beg + 1.
Proof.
  unfold get_indices_offsets.
  destruct (Z.ltb_spec (end_ - beg + 1) 0) as [Hneg | Hpos]; [ discriminate | ].
  intros Hloop. apply offsets_loop_length in Hloop.
  rewrite repeat_length in Hloop. unfold rank. lia.
Qed.

(** [gather_nd] returns only on shapes that satisfy the three invariants,
    with [batch_dims] a count of leading axes below both ranks and a
    coordinate tuple that is not empty.  (With [batch_dims] equal to the
    rank of [indices_shape], or with tuples of width 0, the checks pass and
    the call reads out of range: it has no defined outcome.) *)
Theorem gather_nd_returns_only_on_valid_shapes {T : Type} (params : list T)
    (indices : list Z) (params_shape indices_shape out_shape : Shape)
    (batch_dims : Z) (m m' : mem T)
    (Hreturns :
       gather_nd params indices params_shape indices_shape out_shape batch_dims m
       = (Returns tt, m')) :
  0 <= batch_dims < rank params_shape
  /\ batch_dims < rank indices_shape
  /\ invariant_1 params_shape indices_shape batch_dims
  /\ invariant_3 params_shape out_shape batch_dims
  /\ first_slice_index_in_params indices_shape batch_dims <= rank params_shape
  /\ coordinates_size indices_shape <> 0.
Proof.
  unfold gather_nd in Hreturns.
  apply bind_defined_returns in Hreturns.
  destruct Hreturns as (batch_shape & E1 & H).
  apply bind_front_returns in H. destruct H as (d & Hd & H).
  destruct (negb (batch_dims =? 0) && negb (shape_size batch_shape =? d)) eqn:C1;
    [ discriminate H | ].
  apply bind_defined_returns in H. destruct H as (indices_batch & E2 & H).
  destruct (list_eq_dec Z.eq_dec batch_shape indices_batch) as [Eq | Ne];
    cbn [negb] in H; [ | discriminate H ].
  subst indices_batch.
  apply bind_defined_returns in H. destruct H as (indices_back & E3 & H).
  destruct (Z.leb_spec (to_size_t (batch_dims + indices_back)) (rank params_shape))
    as [C3 | C3]; cbn [negb] in H; [ | discriminate H ].
  apply bind_defined_returns in H. destruct H as (slice_dims & _ & H).
  apply bind_defined_returns in H. destruct H as (offsets & E5 & H).
  apply bind_defined_returns in H. destruct H as (offsets_front & E6 & H).
  apply bind_defined_returns in H. destruct H as (batch_axis & E7 & H).
  apply bind_defined_returns in H. destruct H as (k_1_dims & E8 & _).
  pose proof (prefix_inv _ _ _ E1) as Hb1. pose proof (prefix_inv _ _ _ E2) as Hb2.
  pose proof (back_inv _ _ E3) as Hw.
  assert (Hprefix : 0 <= batch_dims <= rank params_shape).
  { unfold prefix in E1.
    destruct (Z.leb_spec 0 batch_dims); [ | discriminate ].
    destruct (Z.leb_spec batch_dims (rank params_shape)); [ | discriminate ]. lia. }
  assert (Haxis : batch_dims < rank params_shape).
  { unfold at_ in E7. destruct (batch_dims <? 0); [ discriminate | ].
    assert (Hlt : (Z.to_nat batch_dims < length params_shape)%nat)
      by (apply nth_error_Some; congruence).
    unfold rank. lia. }
  assert (Hk1 : batch_dims < rank indices_shape).
  { unfold Span_elems in E8. cbn [m_begin m_end span_of] in E8.
    destruct (Z.leb_spec 0 batch_dims); [ | discriminate ].
    destruct (Z.leb_spec batch_dims (rank indices_shape - 1)); [ | discriminate ].
    lia. }
  split; [ lia | ]. split; [ exact Hk1 | ].
  split; [ unfold invariant_1; congruence | ].
  split.
  - intros Hne. rewrite (Hd Hne). f_equal. unfold batch_size. rewrite <- Hb1.
    apply andb_false_iff in C1. destruct C1 as [C1 | C1].
    + apply negb_false_iff, Z.eqb_eq in C1. contradiction.
    + apply negb_false_iff, Z.eqb_eq in C1. now symmetry.
  - split; [ unfold first_slice_index_in_params; now rewrite Hw | ].
    intros H0. rewrite H0 in Hw. subst indices_back.
    destruct ((0 <=? _) && (_ <=? rank params_shape)); [ | discriminate E5 ].
    apply get_indices_offsets_rank in E5. destruct E5 as [_ E5].
    change (to_ptrdiff (to_size_t (0 - 1))) with (-1) in E5.
    destruct offsets as [| o offsets]; [ discriminate E6 | ].
    rewrite rank_cons in E5. pose proof (rank_nonneg offsets). lia.
Qed.

Lemma gather_nd_returns_only_on_valid_shapes_witness :
  invariant_1 [2; 3; 4] [2; 2; 1] 1 /\ coordinates_size [2; 2; 1] <> 0.
Proof.
  assert (H : gather_nd (iota 24) [1; 0; -1; -2] [2; 3; 4] [2; 2; 1] [2; 2; 4] 1
                (mk_mem (repeat 0 16) [])
              = (Returns tt,
                 mk_mem [4; 5; 6; 7; 0; 1; 2; 3; 20; 21; 22; 23; 16; 17; 18; 19]
                        [copy_ev 4 0 4; copy_ev 0 4 4; copy_ev 20 8 4;
                         copy_ev 16 12 4]))
    by reflexivity.
  destruct (gather_nd_returns_only_on_valid_shapes _ _ _ _ _ _ _ _ H)
    as (_ & _ & H1 & _ & _ & Hw).
  split; [ exact H1 | exact Hw ].
Defined.

(** Coordinate tuples of width 0 pass the three checks and then have no
    defined outcome: [get_indices_offsets] is handed a range that ends
    before it begins, builds an empty table (or none, when no slice axis is
    ahead of the range), and [gather_nd] reads the front of it.  Nothing
    has been written by then. *)
Theorem gather_nd_width_0_undefined {T : Type} (params : list T) (indices : list Z)
    (params_shape indices_shape out_shape : Shape) (batch_dims : Z) (m : mem T)
    (Hparams : 0 <= batch_dims <= rank params_shape)
    (Hrank : rank params_shape < size_t_mod)
    (Hindices : batch_dims <= rank indices_shape)
    (H1 : invariant_1 params_shape indices_shape batch_dims)
    (H3 : invariant_3 params_shape out_shape batch_dims)
    (Hwidth : back indices_shape = Some 0) :
  gather_nd params indices params_shape indices_shape out_shape batch_dims m
  = (Undefined, m).
Proof.
  unfold gather_nd.
  rewrite (bind_defined T _ _ _ _ (prefix_firstn params_shape batch_dims Hparams)).
  assert (Hfront : forall k : Z -> M T unit,
             bind (if batch_dims =? 0 then ret 0 else defined (front out_shape)) k m
             = k (if batch_dims =? 0 then 0 else batch_size params_shape batch_dims) m).
  { intros k. destruct (Z.eqb_spec batch_dims 0) as [E | E]; [ reflexivity | ].
    now rewrite (H3 E). }
  rewrite Hfront.
  replace (negb (batch_dims =? 0)
           && negb (shape_size (firstn (Z.to_nat batch_dims) params_shape)
                    =? (if batch_dims =? 0 then 0
                        else batch_size params_shape batch_dims)))
    with false
    by (unfold batch_size; destruct (batch_dims =? 0); cbn [negb andb];
        [ reflexivity | now rewrite Z.eqb_refl ]).
  rewrite (bind_defined T _ _ _ _
             (prefix_firstn indices_shape batch_dims ltac:(lia))).
  destruct (list_eq_dec Z.eq_dec _ _) as [_ | Ne]; [ | contradiction ].
  cbn [negb].
  rewrite (bind_defined T _ _ _ _ Hwidth).
  rewrite Z.add_0_r, to_size_t_small by lia.
  destruct (Z.leb_spec batch_dims (rank params_shape)); [ | lia ].
  cbn [negb].
  assert (Hslice : exists dims,
             Span_elems (span params_shape batch_dims (rank params_shape))
             = Some dims).
  { unfold Span_elems. cbn [m_begin m_end span_of].
    destruct (Z.leb_spec 0 batch_dims); [ | lia ].
    destruct (Z.leb_spec batch_dims (rank params_shape)); [ | lia ].
    destruct (Z.leb_spec (rank params_shape) (rank params_shape)); [ | lia ].
    eexists. reflexivity. }
  destruct Hslice as [dims Hslice].
  rewrite (bind_defined T _ _ _ _ Hslice).
  unfold Span_size. cbn [m_begin m_end].
  change (to_ptrdiff (to_size_t (0 - 1))) with (-1).
  destruct ((0 <=? rank params_shape - batch_dims + -1)
            && (rank params_shape - batch_dims + -1 <=? rank params_shape));
    [ | reflexivity ].
  unfold get_indices_offsets.
  replace (rank params_shape - batch_dims + -1 - (rank params_shape - batch_dims))
    with (-1) by ring.
  reflexivity.
Qed.

Lemma gather_nd_width_0_undefined_witness :
  gather_nd (iota 6) [] [2; 3] [4; 0] [4; 2; 3] 0 (mk_mem (repeat 7 24) [])
  = (Undefined, mk_mem (repeat 7 24) []).
Proof.
  apply gather_nd_width_0_undefined.
  - vm_compute. split; discriminate.
  - reflexivity.
  - vm_compute. discriminate.
  - reflexivity.
  - intros H. now exfalso; apply H.
  - reflexivity.
Defined.

(** ** Elements are moved, not looked at *)

Lemma slice_map {A B : Type} (f : A -> B) (l : list A) first last :
  slice (map f l) first last = map f (slice l first last).
Proof. unfold slice. now rewrite skipn_map, firstn_map. Qed.

Lemma gathered_map {A B : Type} (f : A -> B) (params : list A) evs :
  gathered (map f params) evs = map f (gathered params evs).
Proof.
  induction evs as [| ev evs IH]; [ reflexivity | ].
  now rewrite !gathered_cons, map_app, slice_map, IH.
Qed.

(** [gather_nd] commutes with any change of the elements: on a valid
    input, applying [f] to every element of [params] and of [out] before
    the call gives [f] applied to every element of the output, and the same
    copies.  The call never inspects an element of [params] or [out]. *)
Theorem gather_nd_moves_elements {T U : Type} (f : T -> U) (params : list T)
    (indices : list Z) (out : list T)
    (params_shape indices_shape out_shape : Shape) (batch_dims : Z)
    (valid : valid_input params indices out params_shape indices_shape out_shape
               batch_dims) :
  exists out',
    gather_nd params indices params_shape indices_shape out_shape batch_dims
      (mk_mem out [])
    = (Returns tt,
       mk_mem out' (copies indices params_shape indices_shape batch_dims))
    /\ gather_nd (map f params) indices params_shape indices_shape out_shape
         batch_dims (mk_mem (map f out) [])
       = (Returns tt,
          mk_mem (map f out')
                 (copies indices params_shape indices_shape batch_dims)).
Proof.
  assert (valid' : valid_input (map f params) indices (map f out) params_shape
                     indices_shape out_shape batch_dims).
  { destruct valid as [Hs Hp Hps Hi His Hc Ho Hos].
    constructor; try assumption; unfold rank in *; rewrite length_map; assumption. }
  eexists. split; [ exact (gather_nd_valid T _ _ _ _ _ _ _ valid []) | ].
  rewrite (gather_nd_valid U _ _ _ _ _ _ _ valid' []).
  now rewrite gathered_map, map_app, skipn_map.
Qed.

Lemma gather_nd_moves_elements_witness :
  valid_input (iota 24) [1; 0; -1; -2] (repeat 0 16) [2; 3; 4] [2; 2; 1] [2; 2; 4] 1
  /\ exists out',
       gather_nd (map Z.opp (iota 24)) [1; 0; -1; -2] [2; 3; 4] [2; 2; 1] [2; 2; 4] 1
         (mk_mem (map Z.opp (repeat 0 16)) [])
       = (Returns tt,
          mk_mem (map Z.opp out') (copies [1; 0; -1; -2] [2; 3; 4] [2; 2; 1] 1)).
Proof.
  assert (H : valid_input (iota 24) [1; 0; -1; -2] (repeat 0 16)
                [2; 3; 4] [2; 2; 1] [2; 2; 4] 1) by compute_valid_input.
  split; [ exact H | ].
  destruct (gather_nd_moves_elements Z.opp _ _ _ _ _ _ _ H) as (out' & _ & Hrun).
  exists out'. exact Hrun.
Defined.

(** ** The part of [indices] a call reads *)

(** On a valid input the call reads [indices] only at the positions below
    [batch_size * number_of_slices_to_copy_in_one_batch * coordinates_size]:
    a second buffer that agrees with [indices] on these positions, whatever
    it holds after them, gives the same run. *)
Theorem gather_nd_reads_indices_region {T : Type} (params : list T)
    (indices indices' : list Z) (out : list T)
    (params_shape indices_shape out_shape : Shape) (batch_dims : Z)
    (valid : valid_input params indices out params_shape indices_shape out_shape
               batch_dims)
    (Hsize :
       batch_size params_shape batch_dims
       * number_of_slices_to_copy_in_one_batch indices_shape batch_dims
       * coordinates_size indices_shape <= rank indices' < size_t_mod)
    (Hagree :
       forall p,
         0 <= p < batch_size params_shape batch_dims
                  * number_of_slices_to_copy_in_one_batch indices_shape batch_dims
                  * coordinates_size indices_shape ->
         nth (Z.to_nat p) indices' 0 = nth (Z.to_nat p) indices 0) :
  forall log0,
    gather_nd params indices' params_shape indices_shape out_shape batch_dims
      (mk_mem out log0)
    = gather_nd params indices params_shape indices_shape out_shape batch_dims
        (mk_mem out log0).
Proof.
  intros log0.
  pose proof (shape_size_range (k_1_indices indices_shape batch_dims)) as Hn.
  pose proof (shape_size_range (firstn (Z.to_nat batch_dims) params_shape)) as Hb.
  fold (number_of_slices_to_copy_in_one_batch indices_shape batch_dims) in Hn.
  fold (batch_size params_shape batch_dims) in Hb.
  assert (Hw : 1 <= coordinates_size indices_shape)
    by (destruct valid as [[] _ _ _ _ _ _ _]; assumption).
  remember (batch_size params_shape batch_dims) as B eqn:EB.
  remember (number_of_slices_to_copy_in_one_batch indices_shape batch_dims) as N eqn:EN.
  remember (coordinates_size indices_shape) as W eqn:EW.
  assert (Hcoord : forall t c, 0 <= t < B * N -> 0 <= c < W ->
            coordinate indices' W t c = coordinate indices W t c).
  { intros t c Ht Hc. unfold coordinate. apply Hagree.
    remember (B * N) as X. assert (0 <= t * W) by nia.
    assert (t * W <= (X - 1) * W) by nia. nia. }
  subst B N W.
  assert (valid' : valid_input params indices' out params_shape indices_shape
                     out_shape batch_dims).
  { destruct valid as [Hs Hp Hps Hi His Hin Ho Hos].
    constructor; try assumption; try lia.
    intros t c Ht Hc. rewrite (Hcoord t c Ht Hc). apply Hin; assumption. }
  assert (Hcopies : copies indices' params_shape indices_shape batch_dims
                    = copies indices params_shape indices_shape batch_dims).
  { unfold copies. apply flat_map_ext_in. intros b Hb'. apply range_In in Hb'.
    apply map_ext_in. intros s Hs. apply range_In in Hs.
    unfold copy_of, source_offset. f_equal. f_equal. f_equal.
    unfold resolved_tuple. apply map_ext_in. intros c Hc. apply range_In in Hc.
    f_equal. apply Hcoord; [ nia | assumption ]. }
  rewrite (gather_nd_valid T _ _ _ _ _ _ _ valid' log0).
  rewrite (gather_nd_valid T _ _ _ _ _ _ _ valid log0).
  now rewrite Hcopies.
Qed.

Lemma gather_nd_reads_indices_region_witness :
  valid_input (iota 24) [1; 0; -1; -2] (repeat 0 16) [2; 3; 4] [2; 2; 1] [2; 2; 4] 1
  /\ gather_nd (iota 24) [1; 0; -1; -2; 7; 8; 9] [2; 3; 4] [2; 2; 1] [2; 2; 4] 1
       (mk_mem (repeat 0 16) [])
     = gather_nd (iota 24) [1; 0; -1; -2] [2; 3; 4] [2; 2; 1] [2; 2; 4] 1
         (mk_mem (repeat 0 16) []).
Proof.
  assert (H : valid_input (iota 24) [1; 0; -1; -2] (repeat 0 16)
                [2; 3; 4] [2; 2; 1] [2; 2; 4] 1) by compute_valid_input.
  split; [ exact H | ].
  apply (gather_nd_reads_indices_region _ _ [1; 0; -1; -2; 7; 8; 9] _ _ _ _ _ H).
  - vm_compute. split; [ discriminate | reflexivity ].
  - intros p Hp.
    assert (E : batch_size [2; 3; 4] 1
                * number_of_slices_to_copy_in_one_batch [2; 2; 1] 1
                * coordinates_size [2; 2; 1] = 4) by reflexivity.
    rewrite E in Hp.
    assert (Hcases : p = 0 \/ p = 1 \/ p = 2 \/ p = 3) by lia.
    destruct Hcases as [-> | [-> | [-> | ->]]]; reflexivity.
Defined.

(** ** Running the call again *)

(** A second call on the output of a first one, with the same inputs,
    returns and leaves the buffer as the first call left it: the call does
    not read [out], so its result is a fixed point. *)
Theorem gather_nd_twice {T : Type} (params : list T) (indices : list Z)
    (out : list T) (params_shape indices_shape out_shape : Shape) (batch_dims : Z)
    (valid : valid_input params indices out params_shape indices_shape out_shape
               batch_dims) :
  exists out',
    gather_nd params indices params_shape indices_shape out_shape batch_dims
      (mk_mem out [])
    = (Returns tt,
       mk_mem out' (copies indices params_shape indices_shape batch_dims))
    /\ gather_nd params indices params_shape indices_shape out_shape batch_dims
         (mk_mem out' [])
       = (Returns tt,
          mk_mem out' (copies indices params_shape indices_shape batch_dims)).
Proof.
  pose proof (gathered_rank_valid T _ _ _ _ _ _ _ valid) as Hg.
  pose proof (shape_size_range (k_1_indices indices_shape batch_dims)) as Hn.
  pose proof (shape_size_range (firstn (Z.to_nat batch_dims) params_shape)) as Hb.
  pose proof (shape_size_range (slice_shape params_shape indices_shape batch_dims))
    as Hss.
  assert (Hregion : 0 <= region_size params_shape indices_shape batch_dims).
  { unfold region_size, batch_size, number_of_slices_to_copy_in_one_batch, slice_size.
    nia. }
  eexists. split; [ exact (gather_nd_valid T _ _ _ _ _ _ _ valid []) | ].
  match goal with
  | |- gather_nd _ _ _ _ _ _ (mk_mem ?o _) = _ => set (out1 := o)
  end.
  assert (Hrank : rank out1 = rank out).
  { subst out1. unfold rank in *. rewrite length_app, length_skipn.
    destruct valid as [_ _ _ _ _ _ Ho _]. unfold rank in Ho. lia. }
  assert (valid1 : valid_input params indices out1 params_shape indices_shape
                     out_shape batch_dims).
  { destruct valid as [Hs Hp Hps Hi His Hin Ho Hos].
    constructor; try assumption; rewrite Hrank; assumption. }
  rewrite (gather_nd_valid T _ _ _ _ _ _ _ valid1 []).
  f_equal. f_equal. subst out1.
  rewrite skipn_app_exact; [ reflexivity | ].
  unfold rank in Hg. lia.
Qed.

Lemma gather_nd_twice_witness :
  valid_input (iota 24) [1; 0; -1; -2] (repeat 0 16) [2; 3; 4] [2; 2; 1] [2; 2; 4] 1
  /\ exists out',
       gather_nd (iota 24) [1; 0; -1; -2] [2; 3; 4] [2; 2; 1] [2; 2; 4] 1
         (mk_mem out' [])
       = (Returns tt, mk_mem out' (copies [1; 0; -1; -2] [2; 3; 4] [2; 2; 1] 1)).
Proof.
  assert (H : valid_input (iota 24) [1; 0; -1; -2] (repeat 0 16)
                [2; 3; 4] [2; 2; 1] [2; 2; 4] 1) by compute_valid_input.
  split; [ exact H | ].
  destruct (gather_nd_twice _ _ _ _ _ _ _ H) as (out' & _ & Hrun).
  exists out'. exact Hrun.
Defined.
